(** * Waifufy: a shallow embedding of the layout pipeline

    The development follows [waifufy_core.cpp] and [main.cpp]:
    the separator oracle [needs_separator], the art parser
    [parse_art_to_density], the comment stripper
    [strip_comments_preserve_literals], the tokenizer
    [tokenize_minimal_cpp], the layout engine [convert_layout] and the
    command-line driver [main].

    Conventions of the embedding.
    - A [std::string] / [std::string_view] is a [string]; a byte is an
      [ascii].  Where the source walks a text with an index [i], the
      model carries the suffix [code[i..]]; the source never looks behind
      [i], so nothing is lost.
    - An [int] is a [Z].  The quantities involved (column numbers, scores,
      token counts) stay far below [2^31] on every input the program can
      allocate its tables for, so no wrap-around is written out.
    - A [double] density is a [Q]; the program only copies densities and
      compares them with [0.5].
    - [std::isalnum], [std::isalpha], [std::isdigit], [std::isspace] are
      those of the "C" locale (the program never calls [setlocale]). *)

From Stdlib Require Import ZArith Ascii String List QArith Lia Bool DecimalString DecimalPos.
From stdpp Require Import base option list gmap.
Import ListNotations.
Local Open Scope string_scope.
Local Open Scope Z_scope.

#[global] Arguments String.append : simpl nomatch.

(** ** Characters *)

Definition code_of (c : ascii) : Z := Z.of_N (N_of_ascii c).

Definition in_range (lo hi : Z) (c : ascii) : bool :=
  (lo <=? code_of c) && (code_of c <=? hi).

Definition isdigit (c : ascii) : bool := in_range 48 57 c.
Definition isupper (c : ascii) : bool := in_range 65 90 c.
Definition islower (c : ascii) : bool := in_range 97 122 c.
Definition isalpha (c : ascii) : bool := isupper c || islower c.
Definition isalnum (c : ascii) : bool := isalpha c || isdigit c.
(** space, \t, \n, \v, \f, \r *)
Definition isspace (c : ascii) : bool := (code_of c =? 32) || in_range 9 13 c.

Definition is_ident_start (c : ascii) : bool := isalpha c || Ascii.eqb c "_".
Definition is_ident_char (c : ascii) : bool := isalnum c || Ascii.eqb c "_".

Definition NUL : ascii := Ascii.zero.
Definition NL : ascii := "010"%char.
Definition DQ : ascii := "034"%char.
Definition SQ : ascii := "'"%char.
Definition BSL : ascii := "\"%char.

(** ** String views *)

Definition size (s : string) : Z := Z.of_nat (String.length s).

(** [s[i]]; reading one past the end of a view over a [std::string]
    yields the terminating NUL. *)
Definition at_ (s : string) (i : nat) : ascii :=
  match String.get i s with Some c => c | None => NUL end.

Definition front (s : string) : ascii := at_ s 0.
Definition back (s : string) : ascii := at_ s (String.length s - 1).

Fixpoint drop_str (n : nat) (s : string) : string :=
  match n, s with
  | O, _ => s
  | S n', String _ s' => drop_str n' s'
  | S _, EmptyString => EmptyString
  end.

Definition take_str (n : nat) (s : string) : string := String.substring 0 n s.

Definition starts_with (s p : string) : bool := String.prefix p s.

Definition str1 (c : ascii) : string := String c EmptyString.

(** ** The separator oracle *)

Definition multi : list string :=
  [ ">>="; "<<="; "->*"; "::"; "->"; "++"; "--"; "<<"; ">>"; "&&"; "||";
    "=="; "!="; "<="; ">="; "+="; "-="; "*="; "/="; "%="; "&="; "|="; "^=";
    "##"; "..." ].

Definition count_in (set : list string) (x : string) : bool :=
  existsb (String.eqb x) set.

Definition is_alnum_ (c : ascii) : bool := isalnum c || Ascii.eqb c "_".

Definition ends_with_quote (s : string) : bool :=
  negb (String.length s =? 0)%nat && (Ascii.eqb (back s) DQ || Ascii.eqb (back s) SQ).

Definition needs_separator (a b : string) : bool :=
  if (String.length a =? 0)%nat || (String.length b =? 0)%nat then false else
  let ca := back a in
  let cb := front b in
  (* 1) merge of identifiers / numbers *)
  if is_alnum_ ca && is_alnum_ cb then true else
  (* 2) comment hazards *)
  if (Ascii.eqb ca "/" && Ascii.eqb cb "/") || (Ascii.eqb ca "/" && Ascii.eqb cb "*")
     || (Ascii.eqb ca "*" && Ascii.eqb cb "/") then true else
  (* 3) multi-character punctuators formed across the boundary *)
  if (2 <=? String.length a)%nat
     && count_in multi (String.substring (String.length a - 2) 2 a ++ str1 cb) then true else
  if count_in multi (String ca (str1 cb)) then true else
  if (2 <=? String.length b)%nat
     && count_in multi (String ca (String cb (str1 (at_ b 1)))) then true else
  if Ascii.eqb ca "." && (2 <=? String.length b)%nat
     && Ascii.eqb (at_ b 0) "." && Ascii.eqb (at_ b 1) "." then true else
  if (2 <=? String.length a)%nat && Ascii.eqb (at_ a (String.length a - 2)) "."
     && Ascii.eqb (at_ a (String.length a - 1)) "." && Ascii.eqb cb "." then true else
  (* 4) literal followed by a user-defined-literal suffix *)
  if (ends_with_quote a || isdigit ca) && (isalpha cb || Ascii.eqb cb "_") then true else
  (* 5) floating literal adjacency *)
  if (Ascii.eqb ca "." && isdigit cb) || (isdigit ca && Ascii.eqb cb ".") then true else
  false.

Definition minimal_separator : string := " ".

Fixpoint join_loop (prev : string) (toks : list string) : string :=
  match toks with
  | [] => EmptyString
  | cur :: rest =>
      (if negb (String.length prev =? 0)%nat && needs_separator prev cur
       then minimal_separator else EmptyString) ++ cur ++ join_loop cur rest
  end.

Definition join_tokens_min_sep (toks : list string) : string := join_loop EmptyString toks.

(** The character class [A-Za-z0-9_] of the specification's hazard class 1,
    written with explicit ranges. *)
Definition word_class (c : ascii) : bool :=
  in_range 65 90 c || in_range 97 122 c || in_range 48 57 c || (code_of c =? 95).

(** ** The density map and the art parser *)

Record AsciiDensity := { v : list Q }.

Definition default_ascii_density_01 : AsciiDensity :=
  {| v := List.app (repeat 1%Q 32) (0%Q :: repeat 1%Q 95) |}.

Record Art := { art_W : Z; art_H : Z; art_density : list (list Q) }.

(** The splitting loop: one piece per ['\n'] plus the remainder. *)
Fixpoint split_lines (s : string) : list string :=
  match s with
  | EmptyString => [EmptyString]
  | String c s' =>
      if Ascii.eqb c NL then EmptyString :: split_lines s'
      else match split_lines s' with
           | l :: ls => String c l :: ls
           | [] => [str1 c]
           end
  end.

Definition is_some {A} (o : option A) : bool :=
  match o with Some _ => true | None => false end.

Definition str_empty (s : string) : bool := (String.length s =? 0)%nat.

(** [lines] once the trailing empty piece has (or has not) been popped. *)
Definition art_lines (art_text : string) (width_override height_override : option Z)
  : list string :=
  let lines := split_lines art_text in
  if negb (length lines =? 0)%nat && str_empty (List.last lines EmptyString)
     && negb (is_some height_override) && negb (is_some width_override)
     && negb (str_empty art_text) && Ascii.eqb (back art_text) NL
  then removelast lines else lines.

Definition has_more (n : nat) (s : string) : bool := (n <=? String.length s)%nat.

Fixpoint utf8_to_u32 (s : string) : list Z :=
  match s with
  | EmptyString => []
  | String a0 r0 =>
      let c0 := code_of a0 in
      if Z.land c0 128 =? 0 then c0 :: utf8_to_u32 r0
      else if (Z.land c0 224 =? 192) && has_more 1 r0 then
        match r0 with
        | String a1 r1 =>
            Z.lor (Z.shiftl (Z.land c0 31) 6) (Z.land (code_of a1) 63) :: utf8_to_u32 r1
        | _ => []
        end
      else if (Z.land c0 240 =? 224) && has_more 2 r0 then
        match r0 with
        | String a1 (String a2 r2) =>
            Z.lor (Z.lor (Z.shiftl (Z.land c0 15) 12) (Z.shiftl (Z.land (code_of a1) 63) 6))
                  (Z.land (code_of a2) 63) :: utf8_to_u32 r2
        | _ => []
        end
      else if (Z.land c0 248 =? 240) && has_more 3 r0 then
        match r0 with
        | String a1 (String a2 (String a3 r3)) =>
            Z.lor (Z.lor (Z.lor (Z.shiftl (Z.land c0 7) 18)
                                (Z.shiftl (Z.land (code_of a1) 63) 12))
                         (Z.shiftl (Z.land (code_of a2) 63) 6))
                  (Z.land (code_of a3) 63) :: utf8_to_u32 r3
        | _ => []
        end
      else utf8_to_u32 r0
  end.

(** [u32lines.resize(H)]: truncate, or pad with empty rows. *)
Definition resize_rows (rows : list (list Z)) (H : nat) : list (list Z) :=
  List.app (firstn H rows) (repeat [] (H - length rows)).

Definition max_width (rows : list (list Z)) : Z :=
  fold_left (fun W s => if W <? Z.of_nat (length s) then Z.of_nat (length s) else W) rows 0.

Definition cell_density (local_map : AsciiDensity) (row : list Z) (j : nat) : Q :=
  let cp := nth j row 32 in
  if (cp <=? 127) && (cp <? Z.of_nat (length (v local_map)))
  then nth (Z.to_nat cp) (v local_map) 1%Q else 1%Q.

(** A negative height or width makes [resize] / the [vector] constructor
    throw ([None]); otherwise the [Art] record. *)
Definition parse_art_to_density (art_text : string)
    (width_override height_override : option Z) (map : option AsciiDensity)
  : option Art :=
  let local_map := match map with Some m => m | None => default_ascii_density_01 end in
  let lines := art_lines art_text width_override height_override in
  let u32lines := List.map utf8_to_u32 lines in
  let H := match height_override with Some h => h | None => Z.of_nat (length u32lines) end in
  if H <? 0 then None else
  let u32lines := match height_override with
                  | Some _ => resize_rows u32lines (Z.to_nat H)
                  | None => u32lines end in
  let W := max_width u32lines in
  let W := if negb (is_some width_override) && (length u32lines =? 0)%nat then 80 else W in
  let W := match width_override with Some w => w | None => W end in
  if W <? 0 then None else
  Some {| art_W := W; art_H := H;
          art_density :=
            List.map (fun i => List.map (fun j => cell_density local_map (nth i u32lines []) j)
                                        (seq 0 (Z.to_nat W)))
                     (seq 0 (Z.to_nat H)) |}.

(** ** The comment stripper *)

(** The scanner state.  [esc] is only read in [InStr] / [InChar] (it is
    reset on entry) and [raw_delim] only in [InRaw] (it is rebuilt on
    entry), so each lives with the state that reads it. *)
Inductive State :=
| Normal | InBlock | InLine
| InStr (esc : bool) | InChar (esc : bool)
| InRaw (raw_delim : string).

Definition delim_stop (d : ascii) : bool :=
  Ascii.eqb d ")" || Ascii.eqb d BSL || isspace d.

(** The delimiter loop of the stripper, started at [code[j..]] with the
    delimiter read so far; returns the delimiter and the suffix where the
    loop stopped. *)
Fixpoint scan_delim (s : string) (raw_delim : string) : string * string :=
  match s with
  | EmptyString => (raw_delim, s)
  | String d s' =>
      if Ascii.eqb d "(" then (raw_delim, s)
      else if delim_stop d || (16 <? String.length raw_delim)%nat then (raw_delim, s)
      else scan_delim s' (raw_delim ++ str1 d)
  end.

(** Raw-string opener at [code[i..]] whose ["R"] sits [off] bytes in:
    the emitted opener, the delimiter and the suffix after ["("]. *)
Definition raw_open (code : string) (off : nat) : option (string * string * string) :=
  match scan_delim (drop_str (off + 2) code) EmptyString with
  | (raw_delim, String p rest) =>
      if Ascii.eqb p "("
      then Some (take_str (off + 2) code ++ raw_delim ++ "(", raw_delim, rest)
      else None
  | (_, EmptyString) => None
  end.

Definition is_R_quote (code : string) (off : nat) : bool :=
  (off + 1 <? String.length code)%nat
  && Ascii.eqb (at_ code off) "R" && Ascii.eqb (at_ code (off + 1)) DQ.

(** The prefixed-opener test of the stripper: the offset of R. *)
Definition strip_prefix_off (code : string) : option nat :=
  let c := at_ code 0 in
  let n := at_ code 1 in
  if Ascii.eqb c "u" && Ascii.eqb n "8" && is_R_quote code 2 then Some 2%nat
  else if (Ascii.eqb c "u" || Ascii.eqb c "U" || Ascii.eqb c "L") && is_R_quote code 1
  then Some 1%nat else None.

(** One iteration of the scanning loop at a non-empty suffix
    [code = code[i..]]: what is appended to [out], the next state and the
    next suffix.  [strip_plain] is the part of the [Normal] case below the
    two raw-string tests. *)
Definition strip_plain (code : string) : string * State * string :=
  let c := at_ code 0 in
  let n := at_ code 1 in
  if Ascii.eqb c "/" && Ascii.eqb n "*" then (EmptyString, InBlock, drop_str 2 code)
  else if Ascii.eqb c "/" && Ascii.eqb n "/" then (EmptyString, InLine, drop_str 2 code)
  else if Ascii.eqb c DQ then (str1 c, InStr false, drop_str 1 code)
  else if Ascii.eqb c SQ then (str1 c, InChar false, drop_str 1 code)
  else (str1 c, Normal, drop_str 1 code).

Definition strip_normal (code : string) : string * State * string :=
  let prefixed :=
    match strip_prefix_off code with
    | Some off =>
        match raw_open code off with
        | Some (opener, raw_delim, rest) => (opener, InRaw raw_delim, rest)
        | None => strip_plain code
        end
    | None => strip_plain code
    end in
  if is_R_quote code 0 then
    match raw_open code 0 with
    | Some (opener, raw_delim, rest) => (opener, InRaw raw_delim, rest)
    | None => prefixed
    end
  else prefixed.

Definition strip_quoted (q : ascii) (mk : bool -> State) (esc : bool) (code : string)
  : string * State * string :=
  let c := at_ code 0 in
  (str1 c,
   if esc then mk false
   else if Ascii.eqb c BSL then mk true
   else if Ascii.eqb c q then Normal
   else mk false,
   drop_str 1 code).

Definition strip_raw (raw_delim : string) (code : string) : string * State * string :=
  let c := at_ code 0 in
  let need := String.length raw_delim in
  if Ascii.eqb c ")" && negb (str_empty raw_delim)
     && (1 + need <? String.length code)%nat
     && String.eqb (String.substring 1 need code) raw_delim
     && Ascii.eqb (at_ code (1 + need)) DQ
  then (")" ++ raw_delim ++ str1 DQ, Normal, drop_str (2 + need) code)
  else (str1 c, InRaw raw_delim, drop_str 1 code).

Definition strip_step (st : State) (code : string) : string * State * string :=
  let c := at_ code 0 in
  let n := at_ code 1 in
  match st with
  | Normal => strip_normal code
  | InBlock =>
      if Ascii.eqb c "*" && Ascii.eqb n "/" then (EmptyString, Normal, drop_str 2 code)
      else (EmptyString, InBlock, drop_str 1 code)
  | InLine =>
      if Ascii.eqb c NL then (str1 c, Normal, drop_str 1 code)
      else (EmptyString, InLine, drop_str 1 code)
  | InStr esc => strip_quoted DQ InStr esc code
  | InChar esc => strip_quoted SQ InChar esc code
  | InRaw raw_delim => strip_raw raw_delim code
  end.

(** The scanning loop; every iteration advances [i], so [fuel] equal to the
    length of the text is never exhausted. *)
Fixpoint strip_loop (fuel : nat) (st : State) (code : string) : string :=
  match fuel with
  | O => EmptyString
  | S fuel' =>
      match code with
      | EmptyString => EmptyString
      | _ => let '(out, st', code') := strip_step st code in
             out ++ strip_loop fuel' st' code'
      end
  end.

Definition strip_comments_preserve_literals (code : string) : string :=
  strip_loop (String.length code) Normal code.

(** ** The tokenizer *)

(** The delimiter loop of [parse_raw_string]: [None] when it returns
    [false] from inside the loop. *)
Fixpoint raw_delim_loop (s : string) (delim : string) : option (string * string) :=
  match s with
  | EmptyString => Some (delim, s)
  | String d s' =>
      if Ascii.eqb d "(" then Some (delim, s)
      else if delim_stop d || (16 <? String.length delim)%nat then None
      else raw_delim_loop s' (delim ++ str1 d)
  end.

(** The search for the closing sequence (right parenthesis, delimiter,
    double quote) from [s = code[pos..]]: how many bytes up to
    and including the closing quote, or up to the end of the text. *)
Fixpoint find_close (delim : string) (s : string) : nat :=
  match s with
  | EmptyString => 0%nat
  | String c s' =>
      if Ascii.eqb c ")" && (String.length delim <? String.length s')%nat
         && String.eqb (String.substring 0 (String.length delim) s') delim
         && Ascii.eqb (at_ s' (String.length delim)) DQ
      then (2 + String.length delim)%nat
      else S (find_close delim s')
  end.

(** [parse_raw_string(s, i, j)] at [s = code[i..]]: [Some (j - i)] when it
    returns [true]. *)
Definition parse_raw_string (s : string) : option nat :=
  if negb (is_R_quote s 0) then None else
  match raw_delim_loop (drop_str 2 s) EmptyString with
  | Some (delim, String p body) =>
      if Ascii.eqb p "(" then Some (2 + String.length delim + 1 + find_close delim body)%nat
      else None
  | _ => None
  end.

Definition parse_prefixed_raw (s : string) : option nat :=
  let test (pfx : string) (off : nat) : option nat :=
    if starts_with s pfx && is_R_quote s off
    then match parse_raw_string (drop_str off s) with
         | Some jj => Some (off + jj)%nat
         | None => None
         end
    else None in
  match test "u8" 2%nat with
  | Some j => Some j
  | None =>
    match test "u" 1%nat with
    | Some j => Some j
    | None =>
      match test "U" 1%nat with
      | Some j => Some j
      | None => test "L" 1%nat
      end
    end
  end.

Definition PUNCTS : list string :=
  [ ">>="; "<<="; "->*"; "::"; "->"; "++"; "--"; "<<"; ">>"; "&&"; "||";
    "=="; "!="; "<="; ">="; "+="; "-="; "*="; "/="; "%="; "&="; "|="; "^=";
    "##" ].

(** [match_from(pos, PUNCTS)] at [s = code[pos..]]: the length matched. *)
Definition match_from (s : string) (arr : list string) : option nat :=
  match List.find (fun p => String.prefix p s) arr with
  | Some p => Some (String.length p)
  | None => None
  end.

(** The body loop of a string or character literal from [s = code[i..]]:
    bytes consumed, through the closing quote or to the end. *)
Fixpoint scan_quoted (q : ascii) (esc2 : bool) (s : string) : nat :=
  match s with
  | EmptyString => 0%nat
  | String ch s' =>
      if esc2 then S (scan_quoted q false s')
      else if Ascii.eqb ch BSL then S (scan_quoted q true s')
      else if Ascii.eqb ch q then 1%nat
      else S (scan_quoted q false s')
  end.

Fixpoint scan_while (p : ascii -> bool) (s : string) : nat :=
  match s with
  | EmptyString => 0%nat
  | String c s' => if p c then S (scan_while p s') else 0%nat
  end.

Definition is_uUL (c : ascii) : bool :=
  Ascii.eqb c "u" || Ascii.eqb c "U" || Ascii.eqb c "L".

(** The string-literal branch at [s = code[b..]]: [Some (i - b)] when the
    literal is pushed, [None] on the fallback [i = b]. *)
Definition tok_string (s : string) : option nat :=
  let n := String.length s in
  let i := if Ascii.eqb (at_ s 0) "u" && (1 <? n)%nat && Ascii.eqb (at_ s 1) "8"
           then 2%nat else 0%nat in
  let i := if is_uUL (at_ s i) && (i + 1 <? n)%nat && Ascii.eqb (at_ s (i + 1)) DQ
           then S i else i in
  if Ascii.eqb (at_ s i) DQ
  then Some (S i + scan_quoted DQ false (drop_str (S i) s))%nat
  else None.

Definition tok_char (s : string) : option nat :=
  let n := String.length s in
  let i := if is_uUL (at_ s 0) && (1 <? n)%nat && Ascii.eqb (at_ s 1) SQ
           then 1%nat else 0%nat in
  if Ascii.eqb (at_ s i) SQ
  then Some (S i + scan_quoted SQ false (drop_str (S i) s))%nat
  else None.

Definition number_char (c : ascii) : bool :=
  isalnum c || Ascii.eqb c "." || Ascii.eqb c "_" || Ascii.eqb c SQ.

(** What one iteration of the tokenizer loop does at a non-blank position
    [s = code[i..]]: the length of the token pushed. *)
Definition token_len (s : string) : nat :=
  let n := String.length s in
  let c := at_ s 0 in
  let c1 := at_ s 1 in
  let after_string :=
    let after_char :=
      if is_ident_start c then S (scan_while is_ident_char (drop_str 1 s))
      else if isdigit c then S (scan_while number_char (drop_str 1 s))
      else match match_from s PUNCTS with
           | Some m => m
           | None => 1%nat
           end in
    if Ascii.eqb c SQ || (is_uUL c && (1 <? n)%nat && Ascii.eqb c1 SQ)
    then match tok_char s with Some l => l | None => after_char end
    else after_char in
  match parse_prefixed_raw s with
  | Some j => j
  | None =>
    match parse_raw_string s with
    | Some j => j
    | None =>
        if Ascii.eqb c DQ
           || (Ascii.eqb c "u" && (1 <? n)%nat && (Ascii.eqb c1 "8" || Ascii.eqb c1 DQ))
           || (Ascii.eqb c "U" && (1 <? n)%nat && Ascii.eqb c1 DQ)
           || (Ascii.eqb c "L" && (1 <? n)%nat && Ascii.eqb c1 DQ)
        then match tok_string s with Some l => l | None => after_string end
        else after_string
    end
  end.

Fixpoint tokenize_loop (fuel : nat) (code : string) : list string :=
  match fuel with
  | O => []
  | S fuel' =>
      match code with
      | EmptyString => []
      | String c rest =>
          if isspace c then tokenize_loop fuel' rest
          else let l := token_len code in
               take_str l code :: tokenize_loop fuel' (drop_str l code)
      end
  end.

Definition tokenize_minimal_cpp (code : string) : list string :=
  tokenize_loop (String.length code) code.

(** ** The layout engine *)

Definition min_width : Z := 80.
Definition shoot : Z := 10.
Definition MN_TOKENS : Z := 4.
Definition SCORE_RELAXATION_FACTOR : Z := 10.
Definition MX_COMMENT_LENGTH : Z := 20.
Definition NEG_INF : Z := -1000000000.

(** [zseq s len] is [s, s+1, ..., s+len-1]; [range lo hi] the values of
    [for (x = lo; x < hi; ++x)]. *)
Fixpoint zseq (s : Z) (len : nat) : list Z :=
  match len with
  | O => []
  | S len' => s :: zseq (s + 1) len'
  end.

Definition range (lo hi : Z) : list Z := zseq lo (Z.to_nat (hi - lo)).

(** A blob of an output line: its type (0 space, 1 comment, 2 and 3 token)
    and its text. *)
Record blob := Blob { kind : Z; text : string }.

Definition is_token (b : blob) : bool := (kind b =? 2) || (kind b =? 3).

Definition row_text (segs : list blob) : string :=
  fold_right (fun b s => text b ++ s) EmptyString segs.

Definition render (rows : list (list blob)) : string :=
  fold_right (fun r s => row_text r ++ String NL s) EmptyString rows.

(** The DP buffers of one row and the position in the random stream. *)
Record table := Table {
  dp : gmap Z Z;
  back_point : gmap Z (Z * Z * Z);
  pos : nat
}.

Definition dp_at (t : table) (idx : Z) : Z := default 0 (dp t !! idx).
Definition back_at (t : table) (idx : Z) : Z * Z * Z :=
  default (0, 0, 0) (back_point t !! idx).

Inductive outcome :=
| Finished (waifu : string)
| AssertionFailed
| Threw
| OutOfFuel.

Section Layout.

Variable tokens : list string.
Variable W H : Z.
Variable target_density : list (list Q).
Variable density_map : AsciiDensity.
(** The pseudo-random stream: the [p]-th draw made from [rng], before a
    distribution maps it into its range. *)
Variable rng : nat -> Z.

Definition coin (p : nat) : bool := negb (rng p mod 2 =? 0).
Definition rand_character (p : nat) : ascii :=
  ascii_of_N (Z.to_N (97 + rng p mod 26)).
Definition w_extra_dist (p : nat) : Z := rng p mod shoot.

Definition SCORE_RELAXATION : Z := Z.quot W SCORE_RELAXATION_FACTOR.
Definition W_BOUND : Z := W + shoot.
Definition n : Z := Z.of_nat (length tokens).
Definition token_at (idx : Z) : string := nth (Z.to_nat idx) tokens EmptyString.

Definition maxl : Z := fold_left (fun m t => Z.max m (size t)) tokens 0.

Definition is_one (d : Q) : Z := if Qle_bool (1 # 2) d then 1 else 0.

Definition char01 (c : Z) : Z :=
  is_one (if c <? Z.of_nat (length (v density_map))
          then nth (Z.to_nat c) (v density_map) 1%Q else 1%Q).

Definition dens01 (r c : Z) : Z :=
  is_one (nth (Z.to_nat c) (nth (Z.to_nat r) target_density []) 0%Q).

Definition IDX (i j k : Z) : Z := (i * W_BOUND + j) * 4 + k.

Section Row.

Variable row taken : Z.

Definition want (col : Z) : Z :=
  if (row <? H) && (col <? Z.min W W_BOUND) then dens01 row col else 0.

Definition desired_at (col : Z) : Z :=
  if (0 <=? col) && (col <? W_BOUND) then want col else 0.

Definition density_of (ch : ascii) : Z :=
  if code_of ch <? 128 then char01 (code_of ch) else 1.

Definition score_char (col : Z) (ch : ascii) : Z :=
  if desired_at col =? density_of ch then 1 else 0.

Fixpoint token_score (start_col : Z) (tok : string) : Z :=
  match tok with
  | EmptyString => 0
  | String ch tok' => score_char start_col ch + token_score (start_col + 1) tok'
  end.

Definition comment_score (start_col len : Z) : Z :=
  (if 4 <=? len then len - 4 else 0)
  + score_char (start_col + 0) "/"
  + score_char (start_col + 1) "*"
  + score_char (start_col + len - 2) "*"
  + score_char (start_col + len - 1) "/".

Definition init_table (p : nat) : table :=
  let t :=
    fold_left (fun t i =>
      fold_left (fun t j =>
        fold_left (fun t k =>
          Table (<[IDX i j k := NEG_INF]> (dp t))
                (<[IDX i j k := (-1, -1, -1)]> (back_point t)) (pos t))
          (range 0 4) t)
        (range 0 W_BOUND) t)
      (range 0 W_BOUND) (Table ∅ ∅ p) in
  Table (<[IDX 0 0 0 := 0]> (dp t)) (back_point t) (pos t).

Definition tokens_left_total : Z := Z.max 0 (n - taken).
Definition maxJThisRow : Z := Z.min (W_BOUND - 1) tokens_left_total.

Definition need_sep (j : Z) : bool :=
  if taken + j + 1 <? n
  then needs_separator (token_at (taken + j)) (token_at (taken + j + 1))
  else false.

(** The update shared by the three transitions. *)
Definition relax (t : table) (tgt : Z) (src : Z * Z * Z) (cand : Z) : table :=
  let ref := dp_at t tgt in
  if ref <? cand then
    Table (<[tgt := cand]> (dp t)) (<[tgt := src]> (back_point t)) (pos t)
  else if (cand =? ref) && negb (ref =? NEG_INF) then
    Table (dp t)
          (if coin (pos t) then <[tgt := src]> (back_point t) else back_point t)
          (S (pos t))
  else t.

Definition transitions (i j k : Z) (t : table) : table :=
  let cur := dp_at t (IDX i j k) in
  if cur =? NEG_INF then t else
  let t :=
    if i + 1 <? W_BOUND
    then relax t (IDX (i + 1) j 0) (i, j, k) (cur + score_char i " ")
    else t in
  let Lmax := Z.min MX_COMMENT_LENGTH (W_BOUND - i - 1) in
  let t :=
    fold_left (fun t L => relax t (IDX (i + L) j 1) (i, j, k) (cur + comment_score i L))
              (range 4 (Lmax + 1)) t in
  if (j <? tokens_left_total) && negb (k =? 2) then
    let tok := token_at (taken + j) in
    let L := size tok in
    if i + L <? W_BOUND then
      let req_sep := if j <=? maxJThisRow then need_sep j else false in
      let nk := if req_sep then 2 else 3 in
      relax t (IDX (i + L) (j + 1) nk) (i, j, k) (cur + token_score i tok)
    else t
  else t.

Definition solve (t : table) : table :=
  fold_left (fun t i =>
    fold_left (fun t j =>
      fold_left (fun t k => transitions i j k t) (range 0 4) t)
      (range 0 (Z.min i tokens_left_total + 1)) t)
    (range 0 W_BOUND) t.

(** *** Choice of the terminal state *)

Definition jHi : Z := Z.min tokens_left_total (W_BOUND - 1).
Definition iStart : Z := Z.max 0 (W - shoot).

Definition any_state (t : table) (minTok : Z) : bool :=
  existsb (fun i =>
    existsb (fun j =>
      existsb (fun k => negb (dp_at t (IDX i j k) =? NEG_INF)) (range 0 4))
      (range (Z.max 0 minTok) (jHi + 1)))
    (range iStart W_BOUND).

Definition better (t : table) (i j k : Z) (acc : Z * (Z * Z * Z)) : Z * (Z * Z * Z) :=
  let val := dp_at t (IDX i j k) in
  if fst acc <? val then (val, (i, j, k)) else acc.

Definition best_state (t : table) (minTok : Z) : Z * (Z * Z * Z) :=
  fold_left (fun acc i =>
    fold_left (fun acc j =>
      fold_left (fun acc k => better t i j k acc) (range 0 4) acc)
      (range (Z.max 0 minTok) (jHi + 1)) acc)
    (range iStart W_BOUND) (NEG_INF, (0, 0, 0)).

Definition best_at_J (t : table) (threshold j : Z) : Z * (Z * Z * Z) :=
  fold_left (fun acc i =>
    fold_left (fun acc k =>
      let val := dp_at t (IDX i j k) in
      if (threshold <=? val) && (fst acc <? val) then (val, (i, j, k)) else acc)
      (range 0 4) acc)
    (range iStart W_BOUND) (NEG_INF, (0, 0, 0)).

(** The loop [for (j = jHi; j >= max(0,minTok) && !found; --j)], over
    the values of [j] still to try. *)
Fixpoint choose_J (t : table) (threshold : Z) (js : list Z) (chosen : Z * Z * Z)
  : Z * Z * Z :=
  match js with
  | [] => chosen
  | j :: js' =>
      let '(bestAtJ, cand) := best_at_J t threshold j in
      if negb (bestAtJ =? NEG_INF) then cand
      else choose_J t threshold js' chosen
  end.

Fixpoint select_state (t : table) (minToks : list Z) : option (Z * Z * Z) :=
  match minToks with
  | [] => None
  | minTok :: rest =>
      if negb (any_state t minTok) then select_state t rest
      else
        let '(bestVal, bestState) := best_state t minTok in
        let threshold := bestVal - SCORE_RELAXATION in
        Some (choose_J t threshold
                       (rev (range (Z.max 0 minTok) (jHi + 1))) bestState)
  end.

Definition optimal_state (t : table) : Z * Z * Z :=
  match select_state t (rev (range 0 (Z.min MN_TOKENS tokens_left_total + 1))) with
  | Some s => s
  | None => snd (best_state t 0)
  end.

(** *** Reconstruction *)

(** The text of a comment blob that starts at column [pi_] and the
    random draws it uses. *)
Definition comment_seg (pi_ len : Z) (p : nat) : string * nat :=
  let len := if len <? 4 then 4 else len in
  fold_left (fun '(seg, p) t =>
    let col := pi_ + t in
    if t =? 0 then (seg ++ "/", p)
    else if t =? 1 then (seg ++ "*", p)
    else if t =? len - 2 then (seg ++ "*", p)
    else if t =? len - 1 then (seg ++ "/", p)
    else
      let wantbit := if (row <? H) && (col <? W) then dens01 row col else 0 in
      if wantbit =? 0 then (seg ++ " ", p)
      else (seg ++ str1 (rand_character p), S p))
    (range 0 len) (EmptyString, p).

(** The walk along the back pointers; [this_row] is the blobs collected
    so far, leftmost first.  [fuel] bounds the number of iterations. *)
Fixpoint reconstruct (fuel : nat) (t : table) (ci cj ck : Z)
    (this_row : list blob) (p : nat) : option (list blob * nat) :=
  if (0 <? ci) || (0 <? cj) then
    match fuel with
    | O => None
    | S fuel' =>
        let '(pi_, pj, pk) := back_at t (IDX ci cj ck) in
        if pi_ <? 0 then Some (this_row, p) else
        let len := ci - pi_ in
        let '(seg, p') :=
          if ck =? 0 then (" ", p)
          else if ck =? 1 then comment_seg pi_ len p
          else if (0 <=? pj) && (pj <? W_BOUND) && (taken + pj <? n)
               then (token_at (taken + pj), p)
               else (EmptyString, p) in
        reconstruct fuel' t pi_ pj pk (Blob ck seg :: this_row) p'
    end
  else Some (this_row, p).

(** One image row: its blobs, the number of tokens it used and the
    position reached in the random stream. *)
Definition layout_row (p : nat) : option (list blob * Z * nat) :=
  let t := solve (init_table p) in
  let '(oi, oj, ok) := optimal_state t in
  match reconstruct (Z.to_nat (oi + oj)) t oi oj ok [] (pos t) with
  | Some (this_row, p') => Some (this_row, oj, p')
  | None => None
  end.

End Row.

(** *** The overflow tail *)

(** The packing loop of one overflow line over the tokens not yet
    emitted: the blobs of the line and how many tokens it took. *)
Fixpoint overflow_line (W_eff : Z) (rest : list string) (col : Z) (prev : string)
  : list blob * Z :=
  match rest with
  | [] => ([], 0)
  | tok :: rest' =>
      let sep := negb (str_empty prev) && needs_separator prev tok in
      let L := (if sep then 1 else 0) + size tok in
      let placed := ((if sep then [Blob 0 " "] else []) ++ [Blob 3 tok])%list in
      if W_eff <? col + L then
        if col =? 0 then (placed, 1) else ([], 0)
      else
        let '(line, k) :=
          overflow_line W_eff rest' (col + (if sep then 1 else 0) + size tok) tok in
        ((placed ++ line)%list, 1 + k)
  end.

(** One iteration of the main loop from the cursor [(row, taken)]: the
    line it appends and the cursor and stream position it leaves. *)
Definition layout_step (taken row : Z) (p : nat) : option (list blob * Z * Z * nat) :=
  if H <=? row then
    let W_eff := W + w_extra_dist p in
    let '(line, k) :=
      overflow_line W_eff (drop (Z.to_nat taken) tokens) 0 EmptyString in
    Some (line, taken + k, row + 1, S p)
  else
    match layout_row row taken p with
    | Some (this_row, oj, p') => Some (this_row, taken + oj, row + 1, p')
    | None => None
    end.

(** The main loop [while (taken < n or row < H)]: the lines appended and
    the cursor at which the loop is left. *)
Fixpoint layout_loop (fuel : nat) (taken row : Z) (p : nat)
  : option (list (list blob) * Z * Z) :=
  if (taken <? n) || (row <? H) then
    match fuel with
    | O => None
    | S fuel' =>
        match layout_step taken row p with
        | Some (line, taken', row', p') =>
            match layout_loop fuel' taken' row' p' with
            | Some (rows, taken_end, row_end) => Some (line :: rows, taken_end, row_end)
            | None => None
            end
        | None => None
        end
    end
  else Some ([], taken, row).

Definition precondition : bool := Z.max min_width maxl <? W_BOUND.

(** The rows of blobs that make up the output.  The assertion on the
    widths comes first; a negative [H] makes [dens01.assign] throw. *)
Definition layout_rows : outcome + list (list blob) :=
  if negb precondition then inl AssertionFailed else
  if H <? 0 then inl Threw else
  match layout_loop (Z.to_nat H + length tokens) 0 0 0 with
  | Some (rows, _, _) => inr rows
  | None => inl OutOfFuel
  end.

Definition convert_layout : outcome :=
  match layout_rows with
  | inl o => o
  | inr rows => Finished (render rows)
  end.

End Layout.

(** ** The command-line driver *)

Record Args := {
  args_code : string;
  args_art : string;
  args_out : string;
  args_width : option Z;
  args_height : option Z;
  args_dump_meta : bool
}.

Fixpoint parse_digits (s : string) (acc : Z) : option Z :=
  match s with
  | EmptyString => Some acc
  | String c s' =>
      if (code_of c <? 48) || (57 <? code_of c) then None
      else let acc := acc * 10 + (code_of c - 48) in
           if 1000000000 <? acc then None else parse_digits s' acc
  end.

Definition parse_int (s : string) : option Z :=
  if str_empty s then None
  else if Ascii.eqb (at_ s 0) "-"
       then match parse_digits (drop_str 1 s) 0 with
            | Some acc => Some (- acc)
            | None => None
            end
       else parse_digits s 0.

Inductive parsed :=
| ArgsOk (a : Args)
| ArgsBad
| ArgsHelp.

Definition set_code (a : Args) (x : string) : Args :=
  Build_Args x (args_art a) (args_out a) (args_width a) (args_height a) (args_dump_meta a).
Definition set_art (a : Args) (x : string) : Args :=
  Build_Args (args_code a) x (args_out a) (args_width a) (args_height a) (args_dump_meta a).
Definition set_out (a : Args) (x : string) : Args :=
  Build_Args (args_code a) (args_art a) x (args_width a) (args_height a) (args_dump_meta a).
Definition set_width (a : Args) (x : Z) : Args :=
  Build_Args (args_code a) (args_art a) (args_out a) (Some x) (args_height a) (args_dump_meta a).
Definition set_height (a : Args) (x : Z) : Args :=
  Build_Args (args_code a) (args_art a) (args_out a) (args_width a) (Some x) (args_dump_meta a).
Definition set_dump_meta (a : Args) : Args :=
  Build_Args (args_code a) (args_art a) (args_out a) (args_width a) (args_height a) true.

(** The loop of [parse_args] over [argv[1..]]. *)
Fixpoint parse_args_loop (argv : list string) (a : Args) : parsed :=
  match argv with
  | [] =>
      if str_empty (args_code a) || str_empty (args_art a) || str_empty (args_out a)
      then ArgsBad else ArgsOk a
  | key :: rest =>
      if String.eqb key "--code" then
        match rest with x :: rest' => parse_args_loop rest' (set_code a x) | [] => ArgsBad end
      else if String.eqb key "--art" then
        match rest with x :: rest' => parse_args_loop rest' (set_art a x) | [] => ArgsBad end
      else if String.eqb key "--out" then
        match rest with x :: rest' => parse_args_loop rest' (set_out a x) | [] => ArgsBad end
      else if String.eqb key "--width" then
        match rest with
        | x :: rest' =>
            match parse_int x with
            | Some w => parse_args_loop rest' (set_width a w)
            | None => ArgsBad
            end
        | [] => ArgsBad
        end
      else if String.eqb key "--height" then
        match rest with
        | x :: rest' =>
            match parse_int x with
            | Some h => parse_args_loop rest' (set_height a h)
            | None => ArgsBad
            end
        | [] => ArgsBad
        end
      else if String.eqb key "--dump-meta" then parse_args_loop rest (set_dump_meta a)
      else if String.eqb key "-h" || String.eqb key "--help" then ArgsHelp
      else ArgsBad
  end.

Definition parse_args (argv : list string) : parsed :=
  parse_args_loop (tail argv)
    (Build_Args EmptyString EmptyString EmptyString None None false).

(** The file system as seen by [std::ifstream]: the bytes of a file that
    can be opened. *)
Definition read_file (fs : string -> option string) (path : string) : string :=
  match fs path with
  | Some data => data
  | None => EmptyString
  end.

(** How a run ends: [main] returns a status (and may have written the
    output file), or the process is terminated by a failed assertion or an
    uncaught exception, or it never returns. *)
Inductive run_result :=
| Exit (status : Z) (written : option string)
| Terminated
| Hangs.

Definition main (fs : string -> option string) (can_open_out : string -> bool)
    (rng : nat -> Z) (argv : list string) : run_result :=
  match parse_args argv with
  | ArgsHelp => Exit 0 None
  | ArgsBad => Exit 2 None
  | ArgsOk args =>
      let code_text := read_file fs (args_code args) in
      let art_text := read_file fs (args_art args) in
      let code_nc := strip_comments_preserve_literals code_text in
      let tokens := tokenize_minimal_cpp code_nc in
      let map := default_ascii_density_01 in
      match parse_art_to_density art_text (args_width args) (args_height args) (Some map) with
      | None => Terminated
      | Some art =>
          match convert_layout tokens (art_W art) (art_H art) (art_density art) map rng with
          | Finished output_code =>
              if can_open_out (args_out args) then Exit 0 (Some output_code)
              else Exit 3 None
          | OutOfFuel => Hangs
          | _ => Terminated
          end
      end
  end.

(** ** Vocabulary of the specification *)

(** Number of line feeds in a text. *)
Fixpoint count_nl (s : string) : nat :=
  match s with
  | EmptyString => 0%nat
  | String c s' => if Ascii.eqb c NL then S (count_nl s') else count_nl s'
  end.

(** A delimiter with seventeen characters, and a source text that uses it:
    an R, a double quote, the delimiter, a left parenthesis, a quoted
    block comment, a right parenthesis, the delimiter and a double quote. *)
Definition delim17 : string := "aaaaaaaaaaaaaaaaa".
Definition raw17 : string :=
  "R" ++ str1 DQ ++ delim17 ++ "(" ++ str1 DQ ++ "/*c*/" ++ str1 DQ ++ ")" ++ delim17 ++ str1 DQ.






(** ** Vocabulary for the layout engine *)

(** The triples visited by three nested loops, in the order of the visit. *)
Definition triples (is_ : list Z) (js : Z -> list Z) (ks : list Z) : list (Z * Z * Z) :=
  flat_map (fun i => flat_map (fun j => List.map (fun k => (i, j, k)) ks) (js i)) is_.

Definition fst3 (s : Z * Z * Z) : Z := fst (fst s).

(** The tokens carried by a row of blobs, left to right. *)
Definition tokens_of (row : list blob) : list string :=
  List.map text (List.filter is_token row).

(** No two token blobs stand side by side in a row unless
    [needs_separator] allows it. *)
Fixpoint safe_row (row : list blob) : Prop :=
  match row with
  | b1 :: rest =>
      match rest with
      | b2 :: _ =>
          (is_token b1 = true -> is_token b2 = true ->
           needs_separator (text b1) (text b2) = false) /\ safe_row rest
      | [] => True
      end
  | [] => True
  end.

(** The bytes of a generated comment: slash, star, space and lowercase
    letters. *)
Definition filler_char (c : ascii) : bool :=
  Ascii.eqb c "/" || Ascii.eqb c "*" || Ascii.eqb c " " || islower c.

Fixpoint all_chars (p : ascii -> bool) (s : string) : bool :=
  match s with
  | EmptyString => true
  | String c s' => p c && all_chars p s'
  end.

Definition no_newline (s : string) : bool := all_chars (fun c => negb (Ascii.eqb c NL)) s.

(** A blob that is not a token is a single space or a generated comment
    of at least four filler bytes. *)
Definition filler_ok (b : blob) : Prop :=
  is_token b = true \/
  (kind b = 0 /\ text b = " ") \/
  (kind b = 1 /\ 4 <= size (text b) /\ all_chars filler_char (text b) = true).


(** A state of the row table: column, tokens used, type of the last blob. *)
Definition in_table (WB : Z) (i j k : Z) : Prop :=
  0 <= i < WB /\ 0 <= j < WB /\ 0 <= k < 4.

(** [step_rel] relates a state [(pi_, pj, pk)] to the state [(i, j, k)]
    that one transition reaches from it. *)
Definition step_rel (tokens : list string) (taken : Z) (pi_ pj pk i j k : Z) : Prop :=
  (k = 0 /\ i = pi_ + 1 /\ j = pj) \/
  (k = 1 /\ 4 <= i - pi_ /\ j = pj) \/
  ((k = 2 \/ k = 3) /\ j = pj + 1 /\ pj < tokens_left_total tokens taken /\ pk <> 2 /\
   i = pi_ + size (token_at tokens (taken + pj)) /\
   (k = 2 <-> need_sep tokens taken pj = true)).

(** The invariant of the row table: the origin has score 0, and every
    reached state has a non-negative score, uses at most as many tokens as
    columns and as are left, and (unless it is the origin) points back to a
    reached state from which one transition leads to it. *)
Definition table_inv (tokens : list string) (W taken : Z) (t : table) : Prop :=
  dp_at t (IDX W 0 0 0) = 0 /\
  forall i j k,
    in_table (W_BOUND W) i j k -> dp_at t (IDX W i j k) <> NEG_INF ->
    0 <= dp_at t (IDX W i j k) /\ j <= i /\ j <= tokens_left_total tokens taken /\
    ((i = 0 /\ j = 0 /\ k = 0) \/
     exists pi_ pj pk,
       back_at t (IDX W i j k) = (pi_, pj, pk) /\ in_table (W_BOUND W) pi_ pj pk /\
       dp_at t (IDX W pi_ pj pk) <> NEG_INF /\
       step_rel tokens taken pi_ pj pk i j k).

(** A reached state has passed its score on: to the state one space
    further, with the score of that space, and to the state behind a
    comment of five bytes, whose one interior byte always matches. *)
Definition closed (W H : Z) (target_density : list (list Q)) (density_map : AsciiDensity)
    (row : Z) (t : table) (s : Z * Z * Z) : Prop :=
  dp_at t (IDX W (fst3 s) (snd (fst s)) (snd s)) <> NEG_INF ->
  (fst3 s + 1 < W_BOUND W ->
   dp_at t (IDX W (fst3 s) (snd (fst s)) (snd s))
   + score_char W H target_density density_map row (fst3 s) " "
   <= dp_at t (IDX W (fst3 s + 1) (snd (fst s)) 0)) /\
  (fst3 s + 5 < W_BOUND W ->
   dp_at t (IDX W (fst3 s) (snd (fst s)) (snd s)) + 1
   <= dp_at t (IDX W (fst3 s + 5) (snd (fst s)) 1)).

(** [t'] extends [t] while row [i] is being processed: the invariant holds,
    no score went down, and the rows up to [i] are as they were. *)
Definition extends_row (tokens : list string) (W taken i : Z) (t t' : table) : Prop :=
  table_inv tokens W taken t' /\
  (forall x, dp_at t x <= dp_at t' x) /\
  (forall a b c, in_table (W_BOUND W) a b c -> a <= i ->
                 dp_at t' (IDX W a b c) = dp_at t (IDX W a b c)).

(** [row_path tokens taken i j k blobs]: the blobs fill the columns
    [0 .. i-1] of a row, carry the [j] tokens that follow the first [taken]
    ones, and end with a blob of type [k]; each blob is placed by one
    transition of the row table. *)
Inductive row_path (tokens : list string) (taken : Z) : Z -> Z -> Z -> list blob -> Prop :=
| path_origin : row_path tokens taken 0 0 0 []
| path_space pi_ pj pk pre :
    row_path tokens taken pi_ pj pk pre ->
    row_path tokens taken (pi_ + 1) pj 0 (pre ++ [Blob 0 " "])
| path_comment pi_ pj pk pre seg :
    row_path tokens taken pi_ pj pk pre ->
    4 <= size seg -> all_chars filler_char seg = true ->
    row_path tokens taken (pi_ + size seg) pj 1 (pre ++ [Blob 1 seg])
| path_token pi_ pj pk pre k :
    row_path tokens taken pi_ pj pk pre ->
    pk <> 2 -> 0 <= pj -> taken + pj < n tokens ->
    k = (if need_sep tokens taken pj then 2 else 3) ->
    row_path tokens taken (pi_ + size (token_at tokens (taken + pj))) (pj + 1) k
             (pre ++ [Blob k (token_at tokens (taken + pj))]).

(** The width of the line emitted at row index [idx]: a line of the image
    band has at least [W] and fewer than [W_BOUND] bytes (and ends in the
    last column when a space has density 0); an overflow line is not empty
    and shorter than [W_BOUND]. *)
Definition row_width_ok (W H : Z) (density_map : AsciiDensity) (idx : Z) (r : list blob) : Prop :=
  (idx < H ->
   W <= size (row_text r) < W_BOUND W /\
   (density_of density_map " " = 0 -> size (row_text r) = W_BOUND W - 1)) /\
  (H <= idx -> 1 <= size (row_text r) < W_BOUND W).

(** ** Concrete inputs *)

(** A random stream whose draws are all 0. *)
Definition zero_stream : nat -> Z := fun _ => 0.




(** A file system with no file at all, and one whose only file, [art.txt],
    is an art of one row of 71 sharps. *)
Definition no_files : string -> option string := fun _ => None.


(** A delimiter none of whose characters stops the delimiter loop. *)
Definition delim_ok (d : string) : bool :=
  all_chars (fun c => negb (delim_stop c) && negb (Ascii.eqb c "(")) d.

(** The text of a raw-string opener with delimiter [d], followed by [rest]. *)
Definition opener_text (d rest : string) : string := "R" ++ str1 DQ ++ d ++ "(" ++ rest.


(** ** Vocabulary for the properties of the scanners *)

(** The characters of which the multi-character punctuators are made. *)
Definition punct_char (c : ascii) : bool :=
  existsb (Ascii.eqb c)
          [">"; "<"; "="; "-"; "*"; ":"; "+"; "&"; "|"; "!"; "/"; "%"; "^"; "#"; "."]%char.

(** An identifier: a letter or an underscore, then letters, digits and
    underscores. *)
Definition is_identifier (s : string) : bool :=
  match s with
  | String c r => is_ident_start c && all_chars is_ident_char r
  | EmptyString => false
  end.

Definition is_quote (c : ascii) : bool := Ascii.eqb c DQ || Ascii.eqb c SQ.

(** A number as the tokenizer reads it: a digit, then letters, digits, dots,
    underscores and single quotes. *)
Definition is_number (s : string) : bool :=
  match s with
  | String c r => isdigit c && all_chars number_char r
  | EmptyString => false
  end.

(** [pieces code toks]: the text is the tokens in order, with white space
    (possibly none) in front of each token and after the last one. *)
Inductive pieces : string -> list string -> Prop :=
| pieces_end gap : all_chars isspace gap = true -> pieces gap []
| pieces_token gap t rest toks :
    all_chars isspace gap = true -> pieces rest toks ->
    pieces (gap ++ t ++ rest) (t :: toks).

(** The body of a literal closed by the quote [q]: characters other than
    [q] and the backslash, and escapes of a backslash and one character. *)
Fixpoint escaped_body (q : ascii) (s : string) : bool :=
  match s with
  | EmptyString => true
  | String c r =>
      if Ascii.eqb c BSL
      then match r with
           | String _ r' => escaped_body q r'
           | EmptyString => false
           end
      else negb (Ascii.eqb c q) && escaped_body q r
  end.

(** The prefixes of a string literal and of a character literal. *)
Definition string_prefixes : list string := [EmptyString; "u8"; "u"; "U"; "L"].
Definition char_prefixes : list string := [EmptyString; "u"; "U"; "L"].

(** The sequence that closes a raw string with delimiter [d]: a right
    parenthesis, the delimiter and a double quote. *)
Definition raw_closer (d : string) : string := ")" ++ d ++ str1 DQ.

(** The text [p] does not occur in [s] at any of the positions below [k]. *)
Definition absent_before (p s : string) (k : nat) : Prop :=
  forall i, (i < k)%nat -> String.prefix p (drop_str i s) = false.

(** ** Vocabulary for the properties of the comment stripper *)

(** What the scanning loop of the stripper puts out when it is started in
    state [st] on the text [code]. *)
Definition strip_from (st : State) (code : string) : string :=
  strip_loop (String.length code) st code.

(** [subseq a b]: [a] is [b] with some of its characters deleted. *)
Inductive subseq : string -> string -> Prop :=
| subseq_nil : subseq EmptyString EmptyString
| subseq_keep c a b : subseq a b -> subseq (String c a) (String c b)
| subseq_drop c a b : subseq a b -> subseq a (String c b).

(** Text that holds no slash and no quote: it cannot begin a comment or a
    string or character literal. *)
Definition plain_text (s : string) : bool :=
  all_chars (fun c => negb (Ascii.eqb c "/") && negb (is_quote c)) s.

Definition in_comment (st : State) : bool :=
  match st with InBlock | InLine => true | _ => false end.

(** ** Vocabulary for the further properties of the layout engine *)





(** ** Vocabulary for the further properties of the driver *)

(** The decimal notation of an integer, as the Standard Library prints it:
    a minus sign for a negative number, no leading zero. *)
Definition decimal (z : Z) : string := NilZero.string_of_int (Z.to_int z).

(** An optional integer that, when it is there, lies between minus and
    plus one thousand million. *)
Definition int_option_bounded (o : option Z) : Prop :=
  forall x, o = Some x -> -1000000000 <= x <= 1000000000.

(** * Properties *)

(** ** Scenarios of the specification, by evaluation *)

Example ns_scenario3 :
  needs_separator "/" "/" = true /\ needs_separator "/" "*" = true /\
  needs_separator "*" "/" = true /\ needs_separator "/" "+" = false.
Proof. repeat split; reflexivity. Qed.

Example ns_scenario4 :
  needs_separator (str1 DQ ++ "hi" ++ str1 DQ) "s" = true /\ needs_separator "42" "ms" = true /\
  needs_separator "42" "+" = false.
Proof. repeat split; reflexivity. Qed.

Example join_scenario1 :
  join_tokens_min_sep ["int"; "x"; "="; "1"; "+"; "2"; ";"] = "int x=1+2;".
Proof. reflexivity. Qed.

Example tok_scenario1 :
  tokenize_minimal_cpp "int x=1+2;" = ["int"; "x"; "="; "1"; "+"; "2"; ";"].
Proof. reflexivity. Qed.

Example tok_scenario2 :
  tokenize_minimal_cpp (strip_comments_preserve_literals
     ("auto s = R" ++ str1 DQ ++ "x(hi)x" ++ str1 DQ ++ ";"))
  = ["auto"; "s"; "="; "R" ++ str1 DQ ++ "x(hi)x" ++ str1 DQ; ";"].
Proof. reflexivity. Qed.

(** ** Strings *)

Lemma str_app_assoc (a b c : string) : (a ++ b) ++ c = a ++ (b ++ c).
Proof. induction a as [|x a IH]; simpl; [reflexivity | now rewrite IH]. Qed.

Lemma str_app_nil_r (a : string) : a ++ EmptyString = a.
Proof. induction a as [|x a IH]; simpl; [reflexivity | now rewrite IH]. Qed.

Lemma str_app_length (a b : string) :
  String.length (a ++ b) = (String.length a + String.length b)%nat.
Proof. induction a as [|c a IH]; simpl; [reflexivity | now rewrite IH]. Qed.

Lemma take_str_0 (s : string) : take_str 0 s = EmptyString.
Proof. destruct s; reflexivity. Qed.

(** ** The separator oracle *)

Lemma str_length_zero (s : string) : (String.length s =? 0)%nat = true <-> s = EmptyString.
Proof.
  destruct s; simpl; split; intro E; try reflexivity; discriminate.
Qed.

Lemma str_length_nonzero (s : string) : s <> EmptyString -> (String.length s =? 0)%nat = false.
Proof.
  intro Hs. destruct s; [contradiction | reflexivity].
Qed.

Lemma underscore_code (c : ascii) : Ascii.eqb c "_" = (code_of c =? 95).
Proof.
  destruct c as [[] [] [] [] [] [] [] []]; reflexivity.
Qed.

(** [isalnum(c) || c == '_'] accepts exactly [A-Za-z0-9_]. *)
Lemma is_alnum_word_class (c : ascii) : is_alnum_ c = word_class c.
Proof.
  unfold is_alnum_, word_class, isalnum, isalpha, isupper, islower, isdigit.
  now rewrite underscore_code.
Qed.

Lemma hazard_class1 (a b : string) :
  a <> EmptyString -> b <> EmptyString ->
  word_class (back a) = true -> word_class (front b) = true ->
  needs_separator a b = true.
Proof.
  intros Ha Hb Hca Hcb. unfold needs_separator.
  rewrite (str_length_nonzero a Ha), (str_length_nonzero b Hb). simpl.
  now rewrite !is_alnum_word_class, Hca, Hcb.
Qed.

(** C10: an empty operand on either side makes [needs_separator] answer
    [false], before any hazard rule is looked at. *)
Theorem needs_separator_empty_operand (a b : string) :
  a = EmptyString \/ b = EmptyString -> needs_separator a b = false.
Proof.
  intros [-> | ->]; unfold needs_separator.
  - reflexivity.
  - destruct (String.length a =? 0)%nat; reflexivity.
Qed.

Lemma needs_separator_empty_operand_witness :
  (EmptyString = EmptyString \/ "x" = EmptyString) /\
  needs_separator EmptyString "x" = false.
Proof.
  split; [left; reflexivity|].
  apply (needs_separator_empty_operand EmptyString "x"); left; reflexivity.
Defined.

(** C9: when the two characters that meet at the boundary are both in
    [A-Za-z0-9_], the oracle answers [true]; the rule reads the same
    whichever of the two non-empty strings is given the role of [a] and
    which the role of [b]. *)
Theorem needs_separator_hazard_class1 (a b : string) :
  a <> EmptyString -> b <> EmptyString ->
  (word_class (back a) = true -> word_class (front b) = true ->
   needs_separator a b = true) /\
  (word_class (back b) = true -> word_class (front a) = true ->
   needs_separator b a = true).
Proof.
  intros Ha Hb; split; intros; now apply hazard_class1.
Qed.

Lemma needs_separator_hazard_class1_witness :
  "int" <> EmptyString /\ "x1" <> EmptyString /\
  needs_separator "int" "x1" = true /\ needs_separator "x1" "int" = true.
Proof.
  assert (Ha : "int" <> EmptyString) by discriminate.
  assert (Hb : "x1" <> EmptyString) by discriminate.
  destruct (needs_separator_hazard_class1 "int" "x1" Ha Hb) as [H1 H2].
  split; [exact Ha|]. split; [exact Hb|].
  split; [apply H1 | apply H2]; reflexivity.
Defined.

(** ** The art parser *)

Lemma split_lines_nonempty (s : string) : split_lines s <> [].
Proof.
  induction s as [|c s IH]; simpl; [discriminate|].
  destruct (Ascii.eqb c NL); [discriminate|].
  destruct (split_lines s); [contradiction | discriminate].
Qed.

Lemma split_lines_app_nl (t : string) :
  split_lines (t ++ str1 NL) = (split_lines t ++ [EmptyString])%list.
Proof.
  induction t as [|c t IH]; simpl; [reflexivity|].
  rewrite IH. destruct (Ascii.eqb c NL); [reflexivity|].
  destruct (split_lines t) eqn:E; [now apply split_lines_nonempty in E | reflexivity].
Qed.

Lemma split_lines_length (s : string) : length (split_lines s) = S (count_nl s).
Proof.
  induction s as [|c s IH]; simpl; [reflexivity|].
  destruct (Ascii.eqb c NL); simpl; [now rewrite IH|].
  destruct (split_lines s) eqn:E; [now apply split_lines_nonempty in E|].
  simpl in *. exact IH.
Qed.

Lemma back_app_nl (t : string) : back (t ++ str1 NL) = NL.
Proof.
  unfold back, at_.
  induction t as [|c t IH]; [reflexivity|].
  simpl String.length. simpl "++".
  replace (S (String.length (t ++ str1 NL)) - 1)%nat with (String.length (t ++ str1 NL)) by lia.
  destruct (String.length (t ++ str1 NL)) as [|m] eqn:E.
  - destruct t; discriminate.
  - simpl. replace (S m - 1)%nat with m in IH by lia. exact IH.
Qed.

Lemma str_empty_app_nl (t : string) : str_empty (t ++ str1 NL) = false.
Proof. destruct t; reflexivity. Qed.

Lemma art_lines_trailing_newline (t : string) :
  art_lines (t ++ str1 NL) None None = split_lines t.
Proof.
  unfold art_lines. rewrite split_lines_app_nl, back_app_nl, str_empty_app_nl.
  rewrite last_last, length_app. simpl.
  replace (length (split_lines t) + 1 =? 0)%nat with false
    by (symmetry; apply Nat.eqb_neq; lia).
  simpl. apply removelast_last.
Qed.

(** C8: with no override, a final line feed does not add a row: the rows
    of [t] followed by a line feed are the pieces of [t], so [H] is the
    number of visible rows; and the art of two rows, two sharps then one
    sharp, parses to [W = 2], [H = 2] with rows [1,1] and [1,0]. *)
Theorem parse_art_drops_trailing_empty_line :
  (forall t : string,
      art_lines (t ++ str1 NL) None None = split_lines t /\
      exists A, parse_art_to_density (t ++ str1 NL) None None None = Some A /\
                art_H A = Z.of_nat (S (count_nl t))) /\
  parse_art_to_density ("##" ++ str1 NL ++ "#" ++ str1 NL) None None None
  = Some {| art_W := 2; art_H := 2; art_density := [[1%Q; 1%Q]; [1%Q; 0%Q]] |}.
Proof.
  split; [|reflexivity].
  intro t. split; [apply art_lines_trailing_newline|].
  unfold parse_art_to_density. rewrite art_lines_trailing_newline.
  rewrite length_map, split_lines_length.
  destruct (Z.of_nat (S (count_nl t)) <? 0) eqn:E1; [apply Z.ltb_lt in E1; lia|].
  simpl is_some. cbv iota.
  match goal with |- context [if ?c then None else _] =>
    destruct c eqn:E2 end.
  - exfalso. apply Z.ltb_lt in E2.
    destruct (negb false && _) in E2; [lia|].
    revert E2. unfold max_width.
    generalize (List.map utf8_to_u32 (split_lines t)).
    assert (G : forall (l : list (list Z)) a, 0 <= a ->
              0 <= fold_left (fun W s => if W <? Z.of_nat (length s)
                                         then Z.of_nat (length s) else W) l a).
    { induction l as [|x l IH]; simpl; intros a Ha; [exact Ha|].
      apply IH. destruct (a <? Z.of_nat (length x)); lia. }
    intros l Hl. specialize (G l 0). lia.
  - eexists; split; [reflexivity|]. reflexivity.
Qed.

(** ** Raw-string openers *)

Lemma delim_ok_cons (c : ascii) (d : string) :
  delim_ok (String c d) = true ->
  Ascii.eqb c "(" = false /\ delim_stop c = false /\ delim_ok d = true.
Proof.
  unfold delim_ok. simpl. intro E.
  apply andb_true_iff in E as [E1 E2]. apply andb_true_iff in E1 as [E1 E3].
  apply negb_true_iff in E1, E3. auto.
Qed.

(** The delimiter loops take a delimiter as long as the part read so far
    has at most 16 characters, so up to 17 characters get through. *)
Lemma raw_delim_loop_accepts (d : string) :
  delim_ok d = true ->
  forall acc rest,
    (String.length acc + String.length d <= 17)%nat ->
    raw_delim_loop (d ++ String "(" rest) acc = Some (acc ++ d, String "(" rest).
Proof.
  induction d as [|c d IH]; intros Hok acc rest Hlen.
  - simpl. now rewrite str_app_nil_r.
  - apply delim_ok_cons in Hok as (E1 & E2 & Hok). simpl in Hlen |- *.
    rewrite E1, E2. simpl.
    replace (16 <? String.length acc)%nat with false by (symmetry; apply Nat.ltb_ge; lia).
    rewrite (IH Hok); [|rewrite str_app_length; simpl; lia].
    now rewrite str_app_assoc.
Qed.

Lemma raw_delim_loop_rejects (d : string) :
  delim_ok d = true ->
  forall acc rest,
    (String.length acc <= 17)%nat -> (18 <= String.length acc + String.length d)%nat ->
    raw_delim_loop (d ++ rest) acc = None.
Proof.
  induction d as [|c d IH]; intros Hok acc rest Hacc Hlen.
  - simpl in Hlen. lia.
  - apply delim_ok_cons in Hok as (E1 & E2 & Hok). simpl in Hlen |- *.
    rewrite E1, E2. simpl.
    destruct (16 <? String.length acc)%nat eqn:E; [reflexivity|].
    apply Nat.ltb_ge in E.
    apply (IH Hok); rewrite str_app_length; simpl; lia.
Qed.

Lemma scan_delim_accepts (d : string) :
  delim_ok d = true ->
  forall acc rest,
    (String.length acc + String.length d <= 17)%nat ->
    scan_delim (d ++ String "(" rest) acc = (acc ++ d, String "(" rest).
Proof.
  induction d as [|c d IH]; intros Hok acc rest Hlen.
  - simpl. now rewrite str_app_nil_r.
  - apply delim_ok_cons in Hok as (E1 & E2 & Hok). simpl in Hlen |- *.
    rewrite E1, E2. simpl.
    replace (16 <? String.length acc)%nat with false by (symmetry; apply Nat.ltb_ge; lia).
    rewrite (IH Hok); [|rewrite str_app_length; simpl; lia].
    now rewrite str_app_assoc.
Qed.

Lemma scan_delim_rejects (d : string) :
  delim_ok d = true ->
  forall acc rest,
    (String.length acc <= 17)%nat -> (18 <= String.length acc + String.length d)%nat ->
    exists acc' c rest', scan_delim (d ++ rest) acc = (acc', String c rest')
                         /\ Ascii.eqb c "(" = false.
Proof.
  induction d as [|c d IH]; intros Hok acc rest Hacc Hlen.
  - simpl in Hlen. lia.
  - apply delim_ok_cons in Hok as (E1 & E2 & Hok). simpl in Hlen |- *.
    rewrite E1, E2. simpl.
    destruct (16 <? String.length acc)%nat eqn:E; [eauto|].
    apply Nat.ltb_ge in E.
    apply (IH Hok); rewrite str_app_length; simpl; lia.
Qed.

(** C4 (the code departs from the claim): both scanners accept a
    raw-string opener whose delimiter has up to 17 characters, and reject
    one of 18 or more; the bound of the claim, 16, is exceeded by one.  On
    the text [raw17], whose delimiter has 17 characters, the stripper
    enters the raw state and keeps the comment inside it, and the tokenizer
    returns the whole text as one raw-string token. *)
Theorem raw_delimiter_of_17_accepted :
  (forall d rest, delim_ok d = true ->
     ((String.length d <= 17)%nat ->
      (exists j, parse_raw_string (opener_text d rest) = Some j) /\
      raw_open (opener_text d rest) 0 = Some ("R" ++ str1 DQ ++ d ++ "(", d, rest)) /\
     ((18 <= String.length d)%nat ->
      parse_raw_string (opener_text d rest) = None /\
      raw_open (opener_text d rest) 0 = None)) /\
  String.length delim17 = 17%nat /\
  strip_comments_preserve_literals raw17 = raw17 /\
  parse_raw_string raw17 = Some (String.length raw17) /\
  tokenize_minimal_cpp (strip_comments_preserve_literals raw17) = [raw17].
Proof.
  split; [|repeat split; reflexivity].
  intros d rest Hok. split; intro Hlen.
  - split.
    + unfold parse_raw_string, opener_text.
      change (is_R_quote ("R" ++ str1 DQ ++ d ++ "(" ++ rest) 0)
        with ((0 + 1 <? S (S (String.length (d ++ "(" ++ rest))))%nat && true && true).
      replace (0 + 1 <? S (S (String.length (d ++ "(" ++ rest))))%nat with true
        by (symmetry; apply Nat.ltb_lt; lia).
      cbn [andb negb].
      change (drop_str 2 ("R" ++ str1 DQ ++ d ++ "(" ++ rest)) with (d ++ String "(" rest).
      rewrite (raw_delim_loop_accepts d Hok EmptyString rest) by (simpl; lia).
      simpl. eauto.
    + unfold raw_open, opener_text.
      change (drop_str (0 + 2) ("R" ++ str1 DQ ++ d ++ "(" ++ rest)) with (d ++ String "(" rest).
      rewrite (scan_delim_accepts d Hok EmptyString rest) by (simpl; lia).
      change (take_str (0 + 2) ("R" ++ str1 DQ ++ d ++ "(" ++ rest))
        with (String "R" (String DQ (take_str 0 (d ++ String "(" rest)))).
      rewrite take_str_0. reflexivity.
  - split.
    + unfold parse_raw_string, opener_text.
      change (is_R_quote ("R" ++ str1 DQ ++ d ++ "(" ++ rest) 0)
        with ((0 + 1 <? S (S (String.length (d ++ "(" ++ rest))))%nat && true && true).
      replace (0 + 1 <? S (S (String.length (d ++ "(" ++ rest))))%nat with true
        by (symmetry; apply Nat.ltb_lt; lia).
      cbn [andb negb].
      change (drop_str 2 ("R" ++ str1 DQ ++ d ++ "(" ++ rest)) with (d ++ String "(" rest).
      rewrite (raw_delim_loop_rejects d Hok EmptyString (String "(" rest)) by (simpl; lia).
      reflexivity.
    + unfold raw_open, opener_text.
      change (drop_str (0 + 2) ("R" ++ str1 DQ ++ d ++ "(" ++ rest)) with (d ++ String "(" rest).
      destruct (scan_delim_rejects d Hok EmptyString (String "(" rest))
        as (acc' & c & rest' & E & Hc); [simpl; lia | simpl; lia|].
      rewrite E, Hc. reflexivity.
Qed.

(** ** The comment stripper run twice *)

Section StripTwice.

#[local] Arguments Ascii.eqb : simpl never.
#[local] Arguments String.eqb : simpl never.

Lemma at_0 (c : ascii) (r : string) : at_ (String c r) 0 = c.
Proof. reflexivity. Qed.

Lemma at_S (c : ascii) (r : string) (i : nat) : at_ (String c r) (S i) = at_ r i.
Proof. reflexivity. Qed.

Lemma is_R_quote_S (c : ascii) (r : string) (off : nat) :
  is_R_quote (String c r) (S off) = is_R_quote r off.
Proof. reflexivity. Qed.


Lemma take_str_S (c : ascii) (r : string) (k : nat) :
  take_str (S k) (String c r) = String c (take_str k r).
Proof. reflexivity. Qed.



(** A byte that cannot begin an opener is handled by the plain part. *)
Lemma strip_normal_not_opener (c : ascii) (y : string) :
  Ascii.eqb c "R" = false -> is_uUL c = false ->
  strip_normal (String c y) = strip_plain (String c y).
Proof.
  intros HR Hu. unfold strip_normal, strip_prefix_off, is_R_quote, is_uUL in *.
  rewrite !at_0, HR, Hu.
  apply orb_false_iff in Hu as [Hu _]. apply orb_false_iff in Hu as [Hu _].
  rewrite Hu. rewrite !andb_false_r. reflexivity.
Qed.


Lemma drop_str_length (k : nat) (s : string) :
  (String.length (drop_str k s) <= String.length s - k)%nat.
Proof.
  revert s; induction k as [|k IH]; intros s; simpl.
  - lia.
  - destruct s as [|c s]; simpl; [lia | apply IH].
Qed.

Lemma strip_plain_shrinks (c : ascii) (r : string) :
  forall out st' code', strip_plain (String c r) = (out, st', code') ->
                        (String.length code' <= String.length r)%nat.
Proof.
  intros out st' code'. unfold strip_plain.
  pose proof (drop_str_length 1 r) as D.
  destruct (Ascii.eqb (at_ (String c r) 0) "/" && Ascii.eqb (at_ (String c r) 1) "*");
    [intro E; inversion E; subst; simpl in *; lia|].
  destruct (Ascii.eqb (at_ (String c r) 0) "/" && Ascii.eqb (at_ (String c r) 1) "/");
    [intro E; inversion E; subst; simpl in *; lia|].
  destruct (Ascii.eqb (at_ (String c r) 0) DQ);
    [intro E; inversion E; subst; simpl in *; lia|].
  destruct (Ascii.eqb (at_ (String c r) 0) SQ);
    intro E; inversion E; subst; simpl in *; lia.
Qed.


Lemma front_app_take (c : ascii) (r z : string) (k : nat) :
  front (take_str (S k) (String c r) ++ z) = c.
Proof. reflexivity. Qed.


Lemma strip_loop_empty (fuel : nat) (st : State) : strip_loop fuel st EmptyString = EmptyString.
Proof. destruct fuel; reflexivity. Qed.




End StripTwice.




(** ** The fuel of the two scanning loops is never exhausted *)

Lemma scan_delim_suffix (s : string) :
  forall acc, (String.length (snd (scan_delim s acc)) <= String.length s)%nat.
Proof.
  induction s as [|d s IH]; intro acc; simpl; [lia|].
  destruct (Ascii.eqb d "("); [simpl; lia|].
  destruct (delim_stop d || (16 <? String.length acc)%nat); [simpl; lia|].
  specialize (IH (acc ++ str1 d)). lia.
Qed.

Lemma raw_open_shrinks (code : string) (off : nat) (opener d rest : string) :
  raw_open code off = Some (opener, d, rest) ->
  (String.length rest < String.length code)%nat.
Proof.
  unfold raw_open.
  pose proof (scan_delim_suffix (drop_str (off + 2) code) EmptyString) as Hs.
  pose proof (drop_str_length (off + 2) code) as Hd.
  destruct (scan_delim (drop_str (off + 2) code) EmptyString) as [d' [|p rest']];
    [discriminate|].
  destruct (Ascii.eqb p "("); [|discriminate].
  intro E. inversion E; subst. simpl in Hs. lia.
Qed.

Lemma strip_step_shrinks (st : State) (c : ascii) (r : string) (out : string) (st' : State)
    (code' : string) :
  strip_step st (String c r) = (out, st', code') ->
  (String.length code' <= String.length r)%nat.
Proof.
  pose proof (drop_str_length 1 r) as Hd1.
  assert (Hraw : forall off, match raw_open (String c r) off with
                             | Some (_, _, rest) => (String.length rest <= String.length r)%nat
                             | None => True
                             end).
  { intro off. destruct (raw_open (String c r) off) as [[[o d] rest]|] eqn:E; [|exact I].
    apply raw_open_shrinks in E. simpl in E. lia. }
  destruct st as [| | |esc|esc|d]; cbn [strip_step].
  - unfold strip_normal.
    assert (P : forall x, match strip_prefix_off (String c r) with
                | Some off =>
                    match raw_open (String c r) off with
                    | Some (opener, raw_delim, rest) => (opener, InRaw raw_delim, rest)
                    | None => strip_plain (String c r)
                    end
                | None => strip_plain (String c r)
                end = x -> (String.length (snd x) <= String.length r)%nat).
    { intros [[o s'] c'] E. cbn [snd].
      destruct (strip_prefix_off (String c r)) as [off|];
        [|now apply strip_plain_shrinks in E].
      specialize (Hraw off).
      destruct (raw_open (String c r) off) as [[[o' d'] rest]|];
        [inversion E; subst; exact Hraw | now apply strip_plain_shrinks in E]. }
    destruct (is_R_quote (String c r) 0); [|intro E; exact (P _ E)].
    specialize (Hraw 0%nat).
    destruct (raw_open (String c r) 0) as [[[o' d'] rest]|];
      [intro E; inversion E; subst; exact Hraw | intro E; exact (P _ E)].
  - destruct (_ && _); intro E; inversion E; subst; simpl in *; lia.
  - destruct (Ascii.eqb _ NL); intro E; inversion E; subst; simpl; lia.
  - unfold strip_quoted. intro E. inversion E; subst. simpl. lia.
  - unfold strip_quoted. intro E. inversion E; subst. simpl. lia.
  - unfold strip_raw.
    pose proof (drop_str_length (2 + String.length d) (String c r)) as Hd2.
    destruct (_ && _); intro E; inversion E; subst; simpl in *; lia.
Qed.

(** More fuel than the length of the text changes nothing. *)
Lemma strip_loop_fuel (f1 : nat) :
  forall f2 st code,
    (String.length code <= f1)%nat -> (String.length code <= f2)%nat ->
    strip_loop f1 st code = strip_loop f2 st code.
Proof.
  induction f1 as [|f1 IH]; intros f2 st code H1 H2.
  - destruct code; [|simpl in H1; lia]. now rewrite !strip_loop_empty.
  - destruct code as [|c r]; [now rewrite !strip_loop_empty|].
    destruct f2 as [|f2]; [simpl in H2; lia|].
    cbn [strip_loop].
    destruct (strip_step st (String c r)) as [[out st'] code'] eqn:E.
    apply strip_step_shrinks in E. simpl in H1, H2.
    f_equal. apply IH; lia.
Qed.

Lemma take_drop_length (l : nat) (s : string) :
  (1 <= l)%nat -> s <> EmptyString ->
  (String.length (drop_str l s) < String.length s)%nat.
Proof.
  intros Hl Hs. pose proof (drop_str_length l s). destruct s; [contradiction|].
  simpl in *. lia.
Qed.

(** ** Loops as folds *)

Lemma in_zseq (len : nat) : forall s x, In x (zseq s len) <-> s <= x < s + Z.of_nat len.
Proof.
  induction len as [|len IH]; intros s x; simpl.
  - lia.
  - rewrite IH. lia.
Qed.

Lemma range_In (lo hi x : Z) : In x (range lo hi) <-> lo <= x < hi.
Proof. unfold range. rewrite in_zseq. lia. Qed.

Lemma range_nil (lo hi : Z) : hi <= lo -> range lo hi = [].
Proof. intro Hle. unfold range. replace (Z.to_nat (hi - lo)) with 0%nat by lia. reflexivity. Qed.

Lemma range_cons (lo hi : Z) : lo < hi -> range lo hi = lo :: range (lo + 1) hi.
Proof.
  intro Hlt. unfold range.
  replace (Z.to_nat (hi - lo)) with (S (Z.to_nat (hi - (lo + 1)))) by lia.
  reflexivity.
Qed.

Lemma zseq_length (len : nat) (s : Z) : length (zseq s len) = len.
Proof. revert s; induction len as [|len IH]; intro s; simpl; [reflexivity | now rewrite IH]. Qed.

(** An invariant that knows which elements the loop has already visited. *)
Lemma fold_left_prefix_ind {A B : Type} (f : A -> B -> A) (P : list B -> A -> Prop)
    (l : list B) (a0 : A) :
  P [] a0 ->
  (forall pre x post a, l = (pre ++ x :: post)%list -> P pre a -> P (pre ++ [x])%list (f a x)) ->
  P l (fold_left f l a0).
Proof.
  intros H0 Hstep.
  assert (G : forall post pre a, l = (pre ++ post)%list -> P pre a ->
                                 P (pre ++ post)%list (fold_left f post a)).
  { induction post as [|x post IH]; intros pre a El Hp; simpl.
    - now rewrite app_nil_r.
    - replace (pre ++ x :: post)%list with ((pre ++ [x]) ++ post)%list
        by (rewrite <- app_assoc; reflexivity).
      apply IH.
      + rewrite <- app_assoc. exact El.
      + now apply (Hstep pre x post). }
  apply (G l [] a0); [reflexivity | exact H0].
Qed.

Lemma fold_left_ind {A B : Type} (f : A -> B -> A) (P : A -> Prop) (l : list B) (a0 : A) :
  P a0 -> (forall x a, In x l -> P a -> P (f a x)) -> P (fold_left f l a0).
Proof.
  intros H0 Hstep.
  apply (fold_left_prefix_ind f (fun _ => P)); [exact H0|].
  intros pre x post a El Hp. apply Hstep; [|exact Hp].
  rewrite El. apply in_or_app. right. left. reflexivity.
Qed.

Lemma fold_left_ext {A B : Type} (f g : A -> B -> A) (l : list B) :
  (forall a x, f a x = g a x) -> forall a, fold_left f l a = fold_left g l a.
Proof.
  intro E. induction l as [|x l IH]; intro a; simpl; [reflexivity|].
  rewrite E. apply IH.
Qed.

Lemma fold3_triples {T : Type} (f : Z -> Z -> Z -> T -> T) (is_ : list Z) (js : Z -> list Z)
    (ks : list Z) (t0 : T) :
  fold_left (fun t i => fold_left (fun t j => fold_left (fun t k => f i j k t) ks t) (js i) t)
            is_ t0
  = fold_left (fun t s => f (fst3 s) (snd (fst s)) (snd s) t) (triples is_ js ks) t0.
Proof.
  assert (Hk : forall i j (l : list Z) t,
             fold_left (fun t k => f i j k t) l t
             = fold_left (fun t s => f (fst3 s) (snd (fst s)) (snd s) t)
                         (List.map (fun k => (i, j, k)) l) t).
  { intros i j l. induction l as [|k l IH]; intro t; simpl; [reflexivity | apply IH]. }
  assert (Hj : forall i (l : list Z) t,
             fold_left (fun t j => fold_left (fun t k => f i j k t) ks t) l t
             = fold_left (fun t s => f (fst3 s) (snd (fst s)) (snd s) t)
                         (flat_map (fun j => List.map (fun k => (i, j, k)) ks) l) t).
  { intros i l. induction l as [|j l IH]; intro t; simpl; [reflexivity|].
    rewrite fold_left_app, <- Hk. apply IH. }
  unfold triples. revert t0.
  induction is_ as [|i is_ IHi]; intro t0; simpl; [reflexivity|].
  rewrite fold_left_app, <- Hj. apply IHi.
Qed.

Lemma in_triples (is_ : list Z) (js : Z -> list Z) (ks : list Z) (i j k : Z) :
  In (i, j, k) (triples is_ js ks) <-> In i is_ /\ In j (js i) /\ In k ks.
Proof.
  unfold triples. rewrite in_flat_map. split.
  - intros (i' & Hi & Hin). apply in_flat_map in Hin as (j' & Hj & Hin).
    apply in_map_iff in Hin as (k' & E & Hk). inversion E; subst. auto.
  - intros (Hi & Hj & Hk). exists i. split; [exact Hi|].
    apply in_flat_map. exists j. split; [exact Hj|].
    apply in_map_iff. exists k. auto.
Qed.

(** The outer loop runs upwards, so a triple visited earlier has a first
    component that is not larger. *)
Lemma triples_range_sorted (len : nat) (js : Z -> list Z) (ks : list Z) :
  forall lo pre x post,
    triples (zseq lo len) js ks = (pre ++ x :: post)%list ->
    forall s, In s pre -> fst3 s <= fst3 x.
Proof.
  induction len as [|len IH]; intros lo pre x post E s Hs.
  - destruct pre; discriminate E.
  - change (triples (zseq lo (S len)) js ks)
      with ((flat_map (fun j => List.map (fun k => (lo, j, k)) ks) (js lo)
             ++ triples (zseq (lo + 1) len) js ks)%list) in E.
    set (row := flat_map (fun j => List.map (fun k => (lo, j, k)) ks) (js lo)) in E.
    assert (Hrow : forall y, In y row -> fst3 y = lo).
    { intros y Hy. unfold row in Hy. apply in_flat_map in Hy as (j & _ & Hy).
      apply in_map_iff in Hy as (k & <- & _). reflexivity. }
    assert (Hrest : forall y, In y (triples (zseq (lo + 1) len) js ks) -> lo + 1 <= fst3 y).
    { intros [[i j] k] Hy. apply in_triples in Hy as (Hi & _). apply in_zseq in Hi.
      unfold fst3; simpl. lia. }
    apply app_eq_app in E as [l [[E1 E2] | [E1 E2]]].
    + (* pre shorter than the first row *)
      subst row. rewrite E1 in Hrow.
      assert (Hx : In x (l ++ triples (zseq (lo + 1) len) js ks)%list)
        by (rewrite <- E2; left; reflexivity).
      rewrite (Hrow s) by (apply in_or_app; left; exact Hs).
      apply in_app_or in Hx as [Hx | Hx].
      * rewrite (Hrow x) by (apply in_or_app; right; exact Hx). lia.
      * apply Hrest in Hx. lia.
    + subst pre. apply in_app_or in Hs as [Hs | Hs].
      * rewrite (Hrow s Hs).
        assert (Hx : In x (triples (zseq (lo + 1) len) js ks))
          by (rewrite E2; apply in_or_app; right; left; reflexivity).
        apply Hrest in Hx. lia.
      * apply (IH (lo + 1) l x post E2 s Hs).
Qed.

(** ** The row table *)

Lemma dp_at_insert (m : gmap Z Z) (b : gmap Z (Z * Z * Z)) (p : nat) (a x a' : Z) :
  dp_at (Table (<[a := x]> m) b p) a' = if decide (a = a') then x else dp_at (Table m b p) a'.
Proof.
  unfold dp_at. simpl. rewrite lookup_insert. destruct (decide (a = a')); reflexivity.
Qed.

Lemma back_at_insert (m : gmap Z Z) (b : gmap Z (Z * Z * Z)) (p : nat) (a a' : Z) (x : Z * Z * Z) :
  back_at (Table m (<[a := x]> b) p) a' = if decide (a = a') then x else back_at (Table m b p) a'.
Proof.
  unfold back_at. simpl. rewrite lookup_insert. destruct (decide (a = a')); reflexivity.
Qed.

Section Relax.

Variable rng : nat -> Z.

Lemma relax_dp (t : table) (tgt : Z) (src : Z * Z * Z) (cand idx : Z) :
  dp_at (relax rng t tgt src cand) idx
  = if decide (tgt = idx) then Z.max (dp_at t tgt) cand else dp_at t idx.
Proof.
  unfold relax. destruct t as [m b p]. cbn [dp back_point pos].
  destruct (dp_at (Table m b p) tgt <? cand) eqn:E1.
  - apply Z.ltb_lt in E1. rewrite dp_at_insert.
    destruct (decide (tgt = idx)); [lia | reflexivity].
  - apply Z.ltb_ge in E1.
    assert (G : forall b' p', dp_at (Table m b' p') idx
              = if decide (tgt = idx) then Z.max (dp_at (Table m b p) tgt) cand
                else dp_at (Table m b p) idx).
    { intros b' p'. destruct (decide (tgt = idx)) as [->|]; unfold dp_at in *; simpl in *;
        [lia | reflexivity]. }
    destruct ((cand =? dp_at (Table m b p) tgt) && negb (dp_at (Table m b p) tgt =? NEG_INF)); apply G.
Qed.

Lemma relax_back_other (t : table) (tgt : Z) (src : Z * Z * Z) (cand idx : Z) :
  tgt <> idx -> back_at (relax rng t tgt src cand) idx = back_at t idx.
Proof.
  intro Hne. unfold relax. destruct t as [m b p]. cbn [dp back_point pos].
  destruct (dp_at (Table m b p) tgt <? cand).
  - rewrite back_at_insert. destruct (decide (tgt = idx)); [contradiction | reflexivity].
  - destruct ((cand =? dp_at (Table m b p) tgt) && negb (dp_at (Table m b p) tgt =? NEG_INF));
      [|reflexivity].
    destruct (coin rng p); [|reflexivity].
    rewrite back_at_insert. destruct (decide (tgt = idx)); [contradiction | reflexivity].
Qed.

Lemma relax_back_target (t : table) (tgt : Z) (src : Z * Z * Z) (cand : Z) :
  (back_at (relax rng t tgt src cand) tgt = src /\ dp_at t tgt <= cand) \/
  (back_at (relax rng t tgt src cand) tgt = back_at t tgt /\ cand <= dp_at t tgt).
Proof.
  unfold relax. destruct t as [m b p]. cbn [dp back_point pos].
  destruct (dp_at (Table m b p) tgt <? cand) eqn:E1.
  - apply Z.ltb_lt in E1. left. rewrite back_at_insert.
    destruct (decide (tgt = tgt)); [split; [reflexivity | lia] | contradiction].
  - apply Z.ltb_ge in E1.
    destruct ((cand =? dp_at (Table m b p) tgt) && negb (dp_at (Table m b p) tgt =? NEG_INF)) eqn:E2.
    + apply andb_true_iff in E2 as [E2 _]. apply Z.eqb_eq in E2.
      destruct (coin rng p).
      * left. rewrite back_at_insert.
        destruct (decide (tgt = tgt)); [split; [reflexivity | lia] | contradiction].
      * right. split; [reflexivity | lia].
    + right. split; [reflexivity | exact E1].
Qed.

End Relax.

Lemma IDX_inj (W i j k i' j' k' : Z) :
  0 <= j < W_BOUND W -> 0 <= k < 4 -> 0 <= j' < W_BOUND W -> 0 <= k' < 4 ->
  IDX W i j k = IDX W i' j' k' -> i = i' /\ j = j' /\ k = k'.
Proof.
  unfold IDX. intros Hj Hk Hj' Hk' E.
  assert (E1 : i * W_BOUND W + j = i' * W_BOUND W + j' /\ k = k') by lia.
  destruct E1 as [E1 ->].
  assert (i = i') by nia. subst i'. split; [reflexivity|]. split; [lia | reflexivity].
Qed.

Section RowDP.

Variable tokens : list string.
Variable W H : Z.
Variable target_density : list (list Q).
Variable density_map : AsciiDensity.
Variable rng : nat -> Z.
Variable row taken : Z.

Hypothesis Htaken : 0 <= taken.
Hypothesis Htokens : Forall (fun t => t <> EmptyString) tokens.

Local Abbreviation WB := (W_BOUND W).
Local Abbreviation idx := (IDX W).
Local Abbreviation tl := (tokens_left_total tokens taken).
Local Abbreviation sc := (score_char W H target_density density_map row).
Local Abbreviation inv := (table_inv tokens W taken).
Local Abbreviation ext := (extends_row tokens W taken).
Local Abbreviation trans := (transitions tokens W H target_density density_map rng row taken).

Lemma score_char_bounds (col : Z) (ch : ascii) : 0 <= sc col ch <= 1.
Proof. unfold score_char. destruct (_ =? _); lia. Qed.

Lemma token_score_nonneg (tok : string) :
  forall col, 0 <= token_score W H target_density density_map row col tok.
Proof.
  induction tok as [|ch tok IH]; intro col; simpl; [lia|].
  pose proof (score_char_bounds col ch). specialize (IH (col + 1)). lia.
Qed.

Lemma comment_score_nonneg (col len : Z) :
  0 <= comment_score W H target_density density_map row col len.
Proof.
  unfold comment_score.
  pose proof (score_char_bounds (col + 0) "/").
  pose proof (score_char_bounds (col + 1) "*").
  pose proof (score_char_bounds (col + len - 2) "*").
  pose proof (score_char_bounds (col + len - 1) "/").
  destruct (4 <=? len) eqn:E; [apply Z.leb_le in E|]; lia.
Qed.

Lemma size_nonneg (s : string) : 0 <= size s.
Proof. unfold size. lia. Qed.

Lemma token_at_nonempty (x : Z) :
  0 <= x < n tokens -> 1 <= size (token_at tokens x).
Proof.
  intros Hx. unfold token_at, size, n in *.
  assert (Hin : In (nth (Z.to_nat x) tokens EmptyString) tokens) by (apply nth_In; lia).
  rewrite Forall_forall in Htokens.
  destruct (nth (Z.to_nat x) tokens EmptyString) eqn:E.
  - exfalso. rewrite <- list_elem_of_In in Hin. exact (Htokens _ Hin eq_refl).
  - simpl. lia.
Qed.

Lemma ext_refl (i : Z) (t : table) : inv t -> ext i t t.
Proof. intro Hi. split; [exact Hi|]. split; intros; [lia | reflexivity]. Qed.

(** One relaxation from a reached source in row [i] towards a state in a
    later row keeps the table an extension. *)
Lemma ext_relax (t0 t : table) (i j k i' j' k' cand : Z) :
  ext i t0 t ->
  in_table WB i j k -> dp_at t (idx i j k) <> NEG_INF ->
  in_table WB i' j' k' -> i < i' -> j' <= i' -> j' <= tl ->
  step_rel tokens taken i j k i' j' k' -> 0 <= cand ->
  ext i t0 (relax rng t (idx i' j' k') (i, j, k) cand).
Proof.
  intros (Hinv & Hmono & Hframe) Hsrc Hreach Htgt Hlt Hji Hjt Hstep Hcand.
  destruct Hinv as [Horigin Hinv].
  assert (Hdiff : forall a b c, in_table WB a b c -> a <= i -> idx i' j' k' <> idx a b c).
  { intros a b c (Ha & Hb & Hc) Hai E. destruct Htgt as (Hi' & Hj' & Hk').
    apply IDX_inj in E; try assumption. lia. }
  assert (Hkeep : forall a b c, in_table WB a b c -> dp_at t (idx a b c) <> NEG_INF ->
                                dp_at (relax rng t (idx i' j' k') (i, j, k) cand) (idx a b c)
                                <> NEG_INF).
  { intros a b c Hin Hr. rewrite relax_dp.
    destruct (decide (idx i' j' k' = idx a b c)); [|exact Hr].
    unfold NEG_INF. lia. }
  split; [split|split].
  - rewrite relax_dp. destruct (decide (idx i' j' k' = idx 0 0 0)) as [E|]; [|exact Horigin].
    exfalso. revert E. apply Hdiff; [|destruct Hsrc; lia].
    destruct Htgt as (? & ? & ?). unfold in_table. lia.
  - intros a b c Hin Hr.
    destruct (decide (idx i' j' k' = idx a b c)) as [E|Hne].
    + assert (a = i' /\ b = j' /\ c = k') as (-> & -> & ->).
      { destruct Hin as (_ & ? & ?), Htgt as (_ & ? & ?).
        symmetry in E. apply IDX_inj in E; assumption. }
      clear E. rewrite relax_dp. destruct (decide (idx i' j' k' = idx i' j' k')); [|contradiction].
      split; [lia|]. split; [exact Hji|]. split; [exact Hjt|].
      destruct (relax_back_target rng t (idx i' j' k') (i, j, k) cand) as [[Eb _] | [Eb Hle]].
      * right. exists i, j, k. rewrite Eb. split; [reflexivity|]. split; [exact Hsrc|].
        split; [now apply Hkeep | exact Hstep].
      * assert (Hr' : dp_at t (idx i' j' k') <> NEG_INF) by (unfold NEG_INF; lia).
        destruct (Hinv _ _ _ Hin Hr') as (_ & _ & _ & [Ho | (pi_ & pj & pk & E1 & E2 & E3 & E4)]).
        -- left. exact Ho.
        -- right. exists pi_, pj, pk. rewrite Eb. split; [exact E1|]. split; [exact E2|].
           split; [now apply Hkeep | exact E4].
    + rewrite relax_dp in Hr |- *.
      destruct (decide (idx i' j' k' = idx a b c)); [contradiction|].
      destruct (Hinv _ _ _ Hin Hr) as (H1 & H2 & H3 & [Ho | (pi_ & pj & pk & E1 & E2 & E3 & E4)]).
      * repeat (split; [assumption|]). left. exact Ho.
      * repeat (split; [assumption|]). right. exists pi_, pj, pk.
        rewrite relax_back_other by assumption.
        split; [exact E1|]. split; [exact E2|]. split; [now apply Hkeep | exact E4].
  - intro x. rewrite relax_dp. specialize (Hmono x).
    destruct (decide (idx i' j' k' = x)) as [->|]; lia.
  - intros a b c Hin Hai. rewrite relax_dp.
    destruct (decide (idx i' j' k' = idx a b c)) as [E|]; [|now apply Hframe].
    exfalso. revert E. now apply Hdiff.
Qed.

Lemma relax_keeps_nonneg (t : table) (tgt : Z) (src : Z * Z * Z) (cand x : Z) :
  0 <= dp_at t x -> 0 <= dp_at (relax rng t tgt src cand) x.
Proof. intro Hx. rewrite relax_dp. destruct (decide (tgt = x)) as [->|]; lia. Qed.

Lemma ext_source_nonneg (t0 t : table) (i j k : Z) :
  ext i t0 t -> in_table WB i j k -> dp_at t (idx i j k) <> NEG_INF ->
  0 <= dp_at t (idx i j k).
Proof. intros ((_ & Hinv) & _) Hin Hr. now destruct (Hinv _ _ _ Hin Hr). Qed.

Section Transitions.

Variables i j k : Z.
Hypothesis Hi : 0 <= i < WB.
Hypothesis Hj : 0 <= j.
Hypothesis Hji : j <= i.
Hypothesis Hjt : j <= tl.
Hypothesis Hk : 0 <= k < 4.

Lemma source_in_table : in_table WB i j k.
Proof. unfold in_table. lia. Qed.

Lemma nonneg_reached (t : table) : 0 <= dp_at t (idx i j k) -> dp_at t (idx i j k) <> NEG_INF.
Proof. unfold NEG_INF. lia. Qed.

Lemma space_ext (t0 t : table) (cur : Z) :
  ext i t0 t -> 0 <= dp_at t (idx i j k) -> 0 <= cur -> i + 1 < WB ->
  ext i t0 (relax rng t (idx (i + 1) j 0) (i, j, k) (cur + sc i " ")).
Proof.
  intros He Hr Hcur Hlt. pose proof (score_char_bounds i " ").
  apply ext_relax; try assumption; try lia.
  - apply source_in_table.
  - now apply nonneg_reached.
  - unfold in_table. lia.
  - left. lia.
Qed.

Lemma comments_ext (t0 t : table) (cur : Z) (Ls : list Z) :
  ext i t0 t -> 0 <= dp_at t (idx i j k) -> 0 <= cur ->
  (forall L, In L Ls -> 4 <= L /\ i + L < WB) ->
  let t' := fold_left (fun t L =>
              relax rng t (idx (i + L) j 1) (i, j, k)
                    (cur + comment_score W H target_density density_map row i L)) Ls t in
  ext i t0 t' /\ 0 <= dp_at t' (idx i j k).
Proof.
  intros He Hr Hcur HLs. cbv zeta.
  apply (fold_left_ind _ (fun t' => ext i t0 t' /\ 0 <= dp_at t' (idx i j k))).
  - split; assumption.
  - intros L t' HL [He' Hr']. specialize (HLs L HL).
    pose proof (comment_score_nonneg i L).
    split; [|now apply relax_keeps_nonneg].
    apply ext_relax; try assumption; try lia.
    + apply source_in_table.
    + now apply nonneg_reached.
    + unfold in_table. lia.
    + right. left. lia.
Qed.

Lemma token_ext (t0 t : table) (cur : Z) :
  ext i t0 t -> 0 <= dp_at t (idx i j k) -> 0 <= cur ->
  j < tl -> k <> 2 -> i + size (token_at tokens (taken + j)) < WB ->
  ext i t0 (relax rng t
              (idx (i + size (token_at tokens (taken + j))) (j + 1)
                   (if (if j <=? maxJThisRow tokens W taken then need_sep tokens taken j
                        else false) then 2 else 3))
              (i, j, k)
              (cur + token_score W H target_density density_map row i
                                 (token_at tokens (taken + j)))).
Proof.
  intros He Hr Hcur Hjl Hk2 Hfit.
  assert (HL : 1 <= size (token_at tokens (taken + j))).
  { apply token_at_nonempty. unfold tokens_left_total in Hjl. lia. }
  pose proof (token_score_nonneg (token_at tokens (taken + j)) i).
  assert (Hmax : (j <=? maxJThisRow tokens W taken) = true).
  { apply Z.leb_le. unfold maxJThisRow. lia. }
  rewrite Hmax.
  apply ext_relax; try assumption; try lia.
  - apply source_in_table.
  - now apply nonneg_reached.
  - unfold in_table. destruct (need_sep tokens taken j); lia.
  - right. right. split; [destruct (need_sep tokens taken j); lia|].
    split; [reflexivity|]. split; [exact Hjl|]. split; [exact Hk2|].
    split; [reflexivity|].
    destruct (need_sep tokens taken j); split; intro; congruence || lia || reflexivity.
Qed.

(** Everything a state does when its turn comes. *)
Lemma trans_ext (t0 t : table) : ext i t0 t -> ext i t0 (trans i j k t).
Proof.
  intro He. unfold transitions.
  destruct (dp_at t (idx i j k) =? NEG_INF) eqn:Ecur; [exact He|].
  apply Z.eqb_neq in Ecur.
  pose proof (ext_source_nonneg t0 t i j k He source_in_table Ecur) as Hcur.
  set (cur := dp_at t (idx i j k)) in *.
  set (t1 := if i + 1 <? WB then relax rng t (idx (i + 1) j 0) (i, j, k) (cur + sc i " ") else t).
  assert (H1 : ext i t0 t1 /\ 0 <= dp_at t1 (idx i j k)).
  { unfold t1. destruct (i + 1 <? WB) eqn:E; [|split; assumption].
    apply Z.ltb_lt in E. split; [now apply space_ext | now apply relax_keeps_nonneg]. }
  destruct H1 as [He1 Hr1].
  pose proof (comments_ext t0 t1 cur
                (range 4 (Z.min MX_COMMENT_LENGTH (WB - i - 1) + 1)) He1 Hr1 Hcur) as H2.
  cbv zeta in H2.
  destruct H2 as [He2 Hr2].
  { intros L HL. apply range_In in HL. unfold MX_COMMENT_LENGTH in HL. lia. }
  destruct ((j <? tl) && negb (k =? 2)) eqn:Etok; [|exact He2].
  apply andb_true_iff in Etok as [Ej Ek]. apply Z.ltb_lt in Ej.
  apply negb_true_iff in Ek. apply Z.eqb_neq in Ek.
  destruct (i + size (token_at tokens (taken + j)) <? WB) eqn:Efit; [|exact He2].
  apply Z.ltb_lt in Efit. now apply token_ext.
Qed.

(** The comments tried from a state leave their scores behind. *)
Lemma comments_reach (t : table) (cur : Z) (Ls : list Z) :
  let t' := fold_left (fun t L =>
              relax rng t (idx (i + L) j 1) (i, j, k)
                    (cur + comment_score W H target_density density_map row i L)) Ls t in
  (forall x, dp_at t x <= dp_at t' x) /\
  forall L, In L Ls ->
            cur + comment_score W H target_density density_map row i L
            <= dp_at t' (idx (i + L) j 1).
Proof.
  cbv zeta.
  apply (fold_left_prefix_ind _
           (fun pre t' =>
              (forall x, dp_at t x <= dp_at t' x) /\
              forall L, In L pre ->
                        cur + comment_score W H target_density density_map row i L
                        <= dp_at t' (idx (i + L) j 1))).
  - split; [intro x; lia | intros L []].
  - intros pre L0 post t' _ [Hmono Hpre]. split.
    + intro x. specialize (Hmono x). rewrite relax_dp. destruct (decide _) as [->|]; lia.
    + intros L HL. rewrite relax_dp.
      apply in_app_or in HL as [HL | [<- | []]].
      * specialize (Hpre L HL). destruct (decide _) as [E|]; [rewrite E in *|]; lia.
      * destruct (decide _); [lia | contradiction].
Qed.

(** After its turn a reached state is closed. *)
Lemma trans_closed (t : table) :
  inv t -> closed W H target_density density_map row (trans i j k t) (i, j, k).
Proof.
  intro Hinv. pose proof (trans_ext t t (ext_refl i t Hinv)) as (_ & _ & Hframe).
  unfold closed, fst3. cbn [fst snd].
  rewrite (Hframe i j k source_in_table (Z.le_refl i)).
  intros Hr. unfold transitions.
  apply Z.eqb_neq in Hr as Ecur. rewrite Ecur.
  pose proof (ext_source_nonneg t t i j k (ext_refl i t Hinv) source_in_table Hr) as Hcur.
  set (cur := dp_at t (idx i j k)) in *.
  set (t1 := if i + 1 <? WB then relax rng t (idx (i + 1) j 0) (i, j, k) (cur + sc i " ") else t).
  assert (H1 : ext i t t1 /\ 0 <= dp_at t1 (idx i j k)).
  { unfold t1. destruct (i + 1 <? WB) eqn:E; [|split; [now apply ext_refl | assumption]].
    apply Z.ltb_lt in E.
    split; [apply space_ext; [apply ext_refl| | |]; assumption | now apply relax_keeps_nonneg]. }
  destruct H1 as [He1 Hr1].
  assert (Hinv1 : inv t1) by apply He1.
  assert (Hspace : i + 1 < WB -> cur + sc i " " <= dp_at t1 (idx (i + 1) j 0)).
  { intro Hlt. unfold t1. apply Z.ltb_lt in Hlt. rewrite Hlt.
    rewrite relax_dp. destruct (decide _); [lia | contradiction]. }
  set (Ls := range 4 (Z.min MX_COMMENT_LENGTH (WB - i - 1) + 1)).
  pose proof (comments_ext t1 t1 cur Ls (ext_refl i t1 Hinv1) Hr1 Hcur) as H2.
  pose proof (comments_reach t1 cur Ls) as H3.
  cbv zeta in H2, H3.
  destruct H2 as [He2 Hr2].
  { intros L HL. unfold Ls in HL. apply range_In in HL. unfold MX_COMMENT_LENGTH in HL. lia. }
  destruct H3 as [Hmono2 Hreach].
  set (t2 := fold_left _ Ls t1) in *.
  assert (Hcomment : i + 5 < WB -> cur + 1 <= dp_at t2 (idx (i + 5) j 1)).
  { intro Hlt.
    assert (H5 : In 5 Ls) by (unfold Ls; apply range_In; unfold MX_COMMENT_LENGTH; lia).
    specialize (Hreach 5 H5).
    assert (Hcs : 1 <= comment_score W H target_density density_map row i 5).
    { unfold comment_score.
      pose proof (score_char_bounds (i + 0) "/").
      pose proof (score_char_bounds (i + 1) "*").
      pose proof (score_char_bounds (i + 5 - 2) "*").
      pose proof (score_char_bounds (i + 5 - 1) "/").
      change (4 <=? 5) with true. cbv iota. lia. }
    lia. }
  assert (Hfinal : forall t3, (forall x, dp_at t2 x <= dp_at t3 x) ->
             (i + 1 < WB -> cur + sc i " " <= dp_at t3 (idx (i + 1) j 0)) /\
             (i + 5 < WB -> cur + 1 <= dp_at t3 (idx (i + 5) j 1))).
  { intros t3 Hmono3. split; intro Hlt.
    - specialize (Hspace Hlt). specialize (Hmono2 (idx (i + 1) j 0)).
      specialize (Hmono3 (idx (i + 1) j 0)). lia.
    - specialize (Hcomment Hlt). specialize (Hmono3 (idx (i + 5) j 1)). lia. }
  destruct ((j <? tl) && negb (k =? 2)) eqn:Etok; [|apply Hfinal; intro x; lia].
  destruct (i + size (token_at tokens (taken + j)) <? WB) eqn:Efit;
    [|apply Hfinal; intro x; lia].
  apply Hfinal. intro x. rewrite relax_dp. destruct (decide _) as [->|]; lia.
Qed.

End Transitions.

(** *** The table after initialisation *)

Lemma init_table_dp (p : nat) (i j k : Z) :
  in_table WB i j k ->
  dp_at (init_table W p) (idx i j k) = if decide (i = 0 /\ j = 0 /\ k = 0) then 0 else NEG_INF.
Proof.
  intros Hin. unfold init_table.
  rewrite (fold3_triples
             (fun i j k t => Table (<[idx i j k := NEG_INF]> (dp t))
                                   (<[idx i j k := (-1, -1, -1)]> (back_point t)) (pos t))).
  set (l := triples (range 0 WB) (fun _ => range 0 WB) (range 0 4)).
  set (f := fun (t : table) (s : Z * Z * Z) =>
              Table (<[idx (fst3 s) (snd (fst s)) (snd s) := NEG_INF]> (dp t))
                    (<[idx (fst3 s) (snd (fst s)) (snd s) := (-1, -1, -1)]> (back_point t))
                    (pos t)).
  assert (G : forall s, In s l ->
              dp_at (fold_left f l (Table ∅ ∅ p)) (idx (fst3 s) (snd (fst s)) (snd s)) = NEG_INF).
  { apply (fold_left_prefix_ind f
             (fun pre t => forall s, In s pre ->
                           dp_at t (idx (fst3 s) (snd (fst s)) (snd s)) = NEG_INF)).
    - intros s [].
    - intros pre x post t _ IH s Hs. unfold f. destruct t as [m b q]. cbn [dp back_point pos].
      rewrite dp_at_insert. destruct (decide _); [reflexivity|].
      apply in_app_or in Hs as [Hs | [<- | []]]; [now apply IH | contradiction]. }
  destruct (fold_left f l (Table ∅ ∅ p)) as [m b q] eqn:E. cbn [dp back_point pos].
  rewrite dp_at_insert.
  destruct (decide (idx 0 0 0 = idx i j k)) as [E0 | Hne].
  - destruct Hin as (Hi & Hj & Hk).
    apply IDX_inj in E0; try lia. destruct (decide _); [reflexivity | lia].
  - destruct (decide (i = 0 /\ j = 0 /\ k = 0)) as [(-> & -> & ->) | _]; [contradiction|].
    apply (G (i, j, k)). unfold l. apply in_triples.
    destruct Hin as (Hi & Hj & Hk). rewrite !range_In. lia.
Qed.

Lemma init_table_inv (p : nat) : 0 < WB -> inv (init_table W p).
Proof.
  intro HWB. split.
  - rewrite init_table_dp by (unfold in_table; lia).
    destruct (decide _); [reflexivity | lia].
  - intros i j k Hin Hr. rewrite init_table_dp in Hr |- * by exact Hin.
    destruct (decide (i = 0 /\ j = 0 /\ k = 0)) as [(-> & -> & ->) | _]; [|contradiction].
    unfold tokens_left_total. repeat (split; [lia|]). left. auto.
Qed.

(** *** The table after all transitions *)

Lemma solve_triples (t : table) :
  solve tokens W H target_density density_map rng row taken t
  = fold_left (fun t s => trans (fst3 s) (snd (fst s)) (snd s) t)
              (triples (range 0 WB) (fun i => range 0 (Z.min i tl + 1)) (range 0 4)) t.
Proof. unfold solve. apply fold3_triples. Qed.

Lemma solve_inv_closed (t : table) :
  inv t ->
  inv (solve tokens W H target_density density_map rng row taken t) /\
  forall i j k,
    in_table WB i j k ->
    closed W H target_density density_map row
           (solve tokens W H target_density density_map rng row taken t) (i, j, k).
Proof.
  intro Hinv. rewrite solve_triples.
  set (l := triples (range 0 WB) (fun i => range 0 (Z.min i tl + 1)) (range 0 4)).
  set (f := fun t s => trans (fst3 s) (snd (fst s)) (snd s) t).
  assert (G : inv (fold_left f l t) /\
              forall s, In s l ->
                        closed W H target_density density_map row (fold_left f l t) s).
  { apply (fold_left_prefix_ind f
             (fun pre t => inv t /\
                           forall s, In s pre ->
                                     closed W H target_density density_map row t s)).
    - split; [exact Hinv | intros s []].
    - intros pre [[i j] k] post t1 El [Hinv1 Hcl].
      assert (Hx : In (i, j, k) l) by (rewrite El; apply in_or_app; right; left; reflexivity).
      apply in_triples in Hx as (Hi & Hj & Hk). rewrite range_In in Hi, Hj, Hk.
      change (f t1 (i, j, k)) with (trans i j k t1).
      assert (Hext : ext i t1 (trans i j k t1))
        by (apply trans_ext; try lia; now apply ext_refl).
      split; [apply Hext|].
      intros s Hs. apply in_app_or in Hs as [Hs | [<- | []]].
      + destruct Hext as (_ & Hmono & Hframe).
        assert (Hsi : fst3 s <= i).
        { unfold l, range in El. apply (triples_range_sorted _ _ _ _ _ _ _ El s Hs). }
        assert (Hsl : In s l) by (rewrite El; apply in_or_app; left; exact Hs).
        destruct s as [[a b] c]. apply in_triples in Hsl as (Ha & Hb & Hc).
        rewrite range_In in Ha, Hb, Hc. unfold fst3 in Hsi. cbn [fst snd] in Hsi.
        specialize (Hcl _ Hs). unfold closed, fst3 in *. cbn [fst snd] in *.
        rewrite (Hframe a b c) by (unfold in_table; lia).
        intros Hr. specialize (Hcl Hr). destruct Hcl as [Hc1 Hc5].
        pose proof (Hmono (idx (a + 1) b 0)). pose proof (Hmono (idx (a + 5) b 1)).
        split; intro Hlt; [specialize (Hc1 Hlt) | specialize (Hc5 Hlt)]; lia.
      + apply trans_closed; try lia. exact Hinv1. }
  destruct G as [G1 G2]. split; [exact G1|].
  intros i j k Hin Hr. apply G2; [|exact Hr].
  unfold fst3 in Hr. cbn [fst snd] in Hr.
  destruct G1 as [_ G1]. destruct (G1 i j k Hin Hr) as (_ & Hji & Hjt & _).
  unfold l. apply in_triples. rewrite !range_In. unfold in_table in Hin. lia.
Qed.

(** *** Choice of the terminal state *)

Section Choice.

Variable t : table.

Local Abbreviation val := (fun s : Z * Z * Z => dp_at t (idx (fst3 s) (snd (fst s)) (snd s))).

(** The running maximum kept by the selection loops. *)
Lemma running_max (keep : Z * Z * Z -> bool) (l : list (Z * Z * Z)) :
  let f := fun (acc : Z * (Z * Z * Z)) (s : Z * Z * Z) =>
             if keep s && (fst acc <? val s) then (val s, s) else acc in
  let r := fold_left f l (NEG_INF, (0, 0, 0)) in
  (forall s, In s l -> keep s = true -> val s <= fst r) /\
  ((fst r = NEG_INF /\ snd r = (0, 0, 0)) \/
   (NEG_INF < fst r /\ In (snd r) l /\ keep (snd r) = true /\ fst r = val (snd r))).
Proof.
  cbv zeta.
  apply (fold_left_prefix_ind _
           (fun pre r =>
              (forall s, In s pre -> keep s = true -> val s <= fst r) /\
              ((fst r = NEG_INF /\ snd r = (0, 0, 0)) \/
               (NEG_INF < fst r /\ In (snd r) pre /\ keep (snd r) = true
                /\ fst r = val (snd r))))).
  - split; [intros s [] | left; split; reflexivity].
  - intros pre x post [bv bs] _ [Hmax Hcases]. cbn [fst snd] in *.
    destruct (keep x && (bv <? val x)) eqn:E; cbn [fst snd].
    + apply andb_true_iff in E as [Ek Elt]. apply Z.ltb_lt in Elt. split.
      * intros s Hs Hks. apply in_app_or in Hs as [Hs | [<- | []]]; [|lia].
        specialize (Hmax s Hs Hks). lia.
      * right. repeat split; try assumption.
        -- destruct Hcases as [[-> _] | [? _]]; lia.
        -- apply in_or_app. right. left. reflexivity.
    + split.
      * intros s Hs Hks. apply in_app_or in Hs as [Hs | [<- | []]]; [now apply Hmax|].
        rewrite Hks in E. simpl in E. apply Z.ltb_ge in E. exact E.
      * destruct Hcases as [Hc | (H1 & H2 & H3 & H4)]; [left; exact Hc|].
        right. repeat split; try assumption. apply in_or_app. left. exact H2.
Qed.

Lemma best_state_fold (minTok : Z) :
  best_state tokens W taken t minTok
  = fold_left (fun (acc : Z * (Z * Z * Z)) (s : Z * Z * Z) =>
                 if true && (fst acc <? val s) then (val s, s) else acc)
              (triples (range (iStart W) WB)
                       (fun _ => range (Z.max 0 minTok) (jHi tokens W taken + 1))
                       (range 0 4))
              (NEG_INF, (0, 0, 0)).
Proof.
  unfold best_state.
  rewrite (fold3_triples (fun i j k acc => better W t i j k acc)).
  apply fold_left_ext. intros acc [[i j] k]. reflexivity.
Qed.

Lemma best_at_J_fold (threshold j : Z) :
  best_at_J W t threshold j
  = fold_left (fun (acc : Z * (Z * Z * Z)) (s : Z * Z * Z) =>
                 if (threshold <=? val s) && (fst acc <? val s) then (val s, s) else acc)
              (triples (range (iStart W) WB) (fun _ => [j]) (range 0 4))
              (NEG_INF, (0, 0, 0)).
Proof.
  unfold best_at_J.
  pose (F := fun i j k (acc : Z * (Z * Z * Z)) =>
               if (threshold <=? dp_at t (idx i j k)) && (fst acc <? dp_at t (idx i j k))
               then (dp_at t (idx i j k), (i, j, k)) else acc).
  transitivity
    (fold_left (fun acc i =>
       fold_left (fun acc j' => fold_left (fun acc k => F i j' k acc) (range 0 4) acc) [j] acc)
       (range (iStart W) WB) (NEG_INF, (0, 0, 0))); [reflexivity|].
  rewrite (fold3_triples F).
  apply fold_left_ext. intros acc [[i' j'] k']. reflexivity.
Qed.

Hypothesis Hinv : inv t.
Hypothesis Hclosed :
  forall i j k, in_table WB i j k ->
                closed W H target_density density_map row t (i, j, k).
Hypothesis HWB : 0 < WB.

Local Abbreviation region := (fun minTok : Z =>
  triples (range (iStart W) WB)
          (fun _ => range (Z.max 0 minTok) (jHi tokens W taken + 1)) (range 0 4)).

Lemma in_region (minTok i j k : Z) :
  In (i, j, k) (region minTok) <->
  iStart W <= i < WB /\ Z.max 0 minTok <= j <= jHi tokens W taken /\ 0 <= k < 4.
Proof. rewrite in_triples, !range_In. lia. Qed.

Lemma region_in_table (minTok i j k : Z) :
  In (i, j, k) (region minTok) -> in_table WB i j k.
Proof.
  rewrite in_region. unfold in_table, iStart, jHi. lia.
Qed.

Lemma any_state_true (minTok : Z) :
  any_state tokens W taken t minTok = true <->
  exists s, In s (region minTok) /\ val s <> NEG_INF.
Proof.
  unfold any_state. rewrite existsb_exists. split.
  - intros (i & Hi & E). apply existsb_exists in E as (j & Hj & E).
    apply existsb_exists in E as (k & Hk & E).
    apply negb_true_iff, Z.eqb_neq in E.
    exists (i, j, k). split; [|exact E]. apply in_triples. auto.
  - intros ([[i j] k] & Hs & E). apply in_triples in Hs as (Hi & Hj & Hk).
    exists i. split; [exact Hi|]. apply existsb_exists.
    exists j. split; [exact Hj|]. apply existsb_exists.
    exists k. split; [exact Hk|]. now apply negb_true_iff, Z.eqb_neq.
Qed.

(** A state of the last column range that is reached and is the best
    of its token count. *)
Local Abbreviation terminal := (fun s : Z * Z * Z =>
  in_table WB (fst3 s) (snd (fst s)) (snd s) /\ val s <> NEG_INF /\
  iStart W <= fst3 s /\
  forall i k, iStart W <= i < WB -> 0 <= k < 4 ->
              dp_at t (idx i (snd (fst s)) k) <= val s).

Lemma val_nonneg (i j k : Z) :
  in_table WB i j k -> dp_at t (idx i j k) <> NEG_INF -> 0 <= dp_at t (idx i j k).
Proof. intros Hin Hr. destruct Hinv as [_ Hi]. now destruct (Hi i j k Hin Hr). Qed.

Lemma choose_J_cases (threshold : Z) (js : list Z) (chosen : Z * Z * Z) :
  choose_J W t threshold js chosen = chosen \/
  exists j, In j js /\ fst (best_at_J W t threshold j) <> NEG_INF /\
            choose_J W t threshold js chosen = snd (best_at_J W t threshold j).
Proof.
  induction js as [|j js IH]; simpl; [left; reflexivity|].
  destruct (best_at_J W t threshold j) as [bv cand] eqn:E.
  destruct (bv =? NEG_INF) eqn:Eb; simpl.
  - destruct IH as [IH | (j' & Hj' & H1 & H2)]; [left; exact IH|].
    right. exists j'. auto.
  - right. exists j. rewrite E. apply Z.eqb_neq in Eb. auto.
Qed.

Lemma select_state_some (minToks : list Z) (s : Z * Z * Z) :
  select_state tokens W taken t minToks = Some s -> terminal s.
Proof.
  induction minToks as [|minTok rest IH]; simpl; [discriminate|].
  destruct (any_state tokens W taken t minTok) eqn:Eany; simpl; [|exact IH].
  apply any_state_true in Eany as ([[i0 j0] k0] & Hs0 & Hr0).
  pose proof (running_max (fun _ => true) (region minTok)) as Hbest.
  cbv beta zeta in Hbest. rewrite <- best_state_fold in Hbest.
  destruct (best_state tokens W taken t minTok) as [bestVal bestState].
  cbn [fst snd] in Hbest. destruct Hbest as [Hmax Hcases].
  pose proof (val_nonneg i0 j0 k0 (region_in_table _ _ _ _ Hs0) Hr0) as Hn0.
  specialize (Hmax _ Hs0 eq_refl) as Hge. unfold fst3 in Hge. cbn [fst snd] in Hge.
  destruct Hcases as [[-> _] | (Hlt & Hin & _ & Eval)]; [unfold NEG_INF in Hge; lia|].
  intro E. inversion E as [E']. clear E.
  destruct (choose_J_cases (bestVal - SCORE_RELAXATION W)
              (rev (range (Z.max 0 minTok) (jHi tokens W taken + 1))) bestState)
    as [Ec | (j & Hj & Hne & Ec)]; rewrite Ec.
  - (* the best state itself *)
    destruct bestState as [[bi bj] bk]. unfold fst3 in *. cbn [fst snd] in *.
    split; [now apply (region_in_table minTok)|].
    split; [lia|]. apply in_region in Hin as Hin'.
    split; [lia|]. intros i k Hi Hk. rewrite <- Eval.
    apply (Hmax (i, bj, k)); [|reflexivity]. apply in_region. lia.
  - (* the best state of the first token count within the margin *)
    pose proof (running_max (fun s => bestVal - SCORE_RELAXATION W <=? val s)
                  (triples (range (iStart W) WB) (fun _ => [j]) (range 0 4))) as Hj'.
    cbv beta zeta in Hj'. rewrite <- best_at_J_fold in Hj'.
    destruct (best_at_J W t (bestVal - SCORE_RELAXATION W) j) as [bv cand].
    cbn [fst snd] in *. destruct Hj' as [Hmaxj Hcj].
    destruct Hcj as [[-> _] | (Hltj & Hinj & Hkeep & Evalj)]; [contradiction|].
    destruct cand as [[ci cj] ck]. unfold fst3 in *. cbn [fst snd] in *.
    apply in_triples in Hinj as (Hci & Hcj & Hck).
    rewrite range_In in Hci, Hck. destruct Hcj as [<- | []].
    apply in_rev in Hj. rewrite range_In in Hj.
    assert (Hcin : in_table WB ci j ck).
    { apply (region_in_table minTok). apply in_region. lia. }
    split; [exact Hcin|]. split; [lia|]. split; [lia|].
    intros i k Hi Hk. apply Z.leb_le in Hkeep.
    destruct (bestVal - SCORE_RELAXATION W <=? dp_at t (idx i j k)) eqn:Ek.
    + rewrite <- Evalj. apply (Hmaxj (i, j, k)); [|exact Ek].
      apply in_triples. rewrite !range_In. split; [lia|]. split; [left; reflexivity | lia].
    + apply Z.leb_gt in Ek. lia.
Qed.

Lemma select_state_none (minToks : list Z) :
  select_state tokens W taken t minToks = None ->
  forall m, In m minToks -> any_state tokens W taken t m = false.
Proof.
  induction minToks as [|minTok rest IH]; simpl; [intros _ m []|].
  destruct (any_state tokens W taken t minTok) eqn:Eany; simpl.
  - destruct (best_state tokens W taken t minTok). discriminate.
  - intros E m [<- | Hm]; [exact Eany | now apply IH].
Qed.

(** Spaces carry a reached state to every later column. *)
Lemma spaces_reach (i j k : Z) (m : nat) :
  in_table WB i j k -> dp_at t (idx i j k) <> NEG_INF ->
  i + Z.of_nat (S m) < WB ->
  dp_at t (idx i j k) <= dp_at t (idx (i + Z.of_nat (S m)) j 0).
Proof.
  intros Hin Hr. induction m as [|m IH]; intro Hlt.
  - pose proof (Hclosed i j k Hin) as Hc. unfold closed, fst3 in Hc. cbn [fst snd] in Hc.
    pose proof (score_char_bounds i " ").
    replace (i + Z.of_nat 1) with (i + 1) by lia. destruct (Hc Hr) as [Hc1 _]. lia.
  - assert (Hlt' : i + Z.of_nat (S m) < WB) by lia. specialize (IH Hlt').
    pose proof (val_nonneg i j k Hin Hr) as Hn.
    assert (Hin' : in_table WB (i + Z.of_nat (S m)) j 0) by (unfold in_table in *; lia).
    assert (Hr' : dp_at t (idx (i + Z.of_nat (S m)) j 0) <> NEG_INF)
      by (unfold NEG_INF; lia).
    pose proof (Hclosed _ _ _ Hin') as Hc. unfold closed, fst3 in Hc. cbn [fst snd] in Hc.
    pose proof (score_char_bounds (i + Z.of_nat (S m)) " ").
    replace (i + Z.of_nat (S (S m))) with (i + Z.of_nat (S m) + 1) by lia.
    destruct (Hc Hr') as [Hc1 _]. lia.
Qed.

Lemma origin_reached : dp_at t (idx 0 0 0) <> NEG_INF.
Proof. destruct Hinv as [-> _]. discriminate. Qed.

Lemma optimal_state_terminal : terminal (optimal_state tokens W taken t).
Proof.
  unfold optimal_state.
  destruct (select_state tokens W taken t
              (rev (range 0 (Z.min MN_TOKENS tl + 1)))) as [s|] eqn:E.
  - now apply select_state_some in E.
  - exfalso. pose proof (select_state_none _ E 0) as Hno.
    assert (Hany : any_state tokens W taken t 0 = true).
    { apply any_state_true.
      assert (Horig : in_table WB 0 0 0) by (unfold in_table; lia).
      destruct (Z.eq_dec WB 1) as [E1 | Hne].
      - exists (0, 0, 0). split; [|exact origin_reached].
        apply in_region. unfold iStart, jHi, tokens_left_total, W_BOUND, shoot in *. lia.
      - exists (WB - 1, 0, 0). split.
        + apply in_region. unfold iStart, jHi, tokens_left_total, W_BOUND, shoot in *. lia.
        + unfold fst3. cbn [fst snd].
          pose proof (spaces_reach 0 0 0 (Z.to_nat (WB - 2)) Horig origin_reached) as Hs.
          replace (0 + Z.of_nat (S (Z.to_nat (WB - 2)))) with (WB - 1) in Hs by lia.
          destruct Hinv as [Ho _]. rewrite Ho in Hs. unfold NEG_INF. lia. }
    rewrite Hno in Hany; [discriminate|].
    apply in_rev. rewrite rev_involutive. apply range_In.
    unfold MN_TOKENS, tokens_left_total. lia.
Qed.

(** When a space has density 0, a terminal state sits in the last
    column: beyond [W] every further space adds to the score. *)
Lemma terminal_last_column (s : Z * Z * Z) :
  density_of density_map " " = 0 -> 0 <= W ->
  terminal s -> fst3 s = WB - 1.
Proof.
  intros Hsp HW (Hin & Hr & Hstart & Hmax).
  destruct s as [[i j] k]. unfold fst3 in *. cbn [fst snd] in *.
  destruct (Z.eq_dec i (WB - 1)) as [|Hne]; [assumption|]. exfalso.
  assert (Hi : 0 <= i < WB - 1) by (unfold in_table in Hin; lia).
  assert (Hscore : forall c, W <= c < WB -> sc c " " = 1).
  { intros c Hc. unfold score_char, desired_at, want. rewrite Hsp.
    replace ((0 <=? c) && (c <? WB)) with true by (symmetry; apply andb_true_iff; lia).
    replace (c <? Z.min W WB) with false by (symmetry; apply Z.ltb_ge; lia).
    rewrite andb_false_r. reflexivity. }
  (* reach column WB - 2 without losing score, then gain one *)
  assert (Hpen : exists k', in_table WB (WB - 2) j k' /\
                            dp_at t (idx (WB - 2) j k') <> NEG_INF /\
                            dp_at t (idx i j k) <= dp_at t (idx (WB - 2) j k')).
  { destruct (Z.eq_dec i (WB - 2)) as [->|Hne2].
    - exists k. split; [exact Hin|]. split; [exact Hr | lia].
    - pose proof (spaces_reach i j k (Z.to_nat (WB - 2 - i - 1)) Hin Hr) as Hs.
      replace (i + Z.of_nat (S (Z.to_nat (WB - 2 - i - 1)))) with (WB - 2) in Hs by lia.
      pose proof (val_nonneg i j k Hin Hr).
      exists 0. split; [unfold in_table in *; lia|].
      split; [unfold NEG_INF; lia | lia]. }
  destruct Hpen as (k' & Hin' & Hr' & Hle).
  pose proof (Hclosed _ _ _ Hin') as Hc. unfold closed, fst3 in Hc. cbn [fst snd] in Hc.
  destruct (Hc Hr') as [Hc1 _]. rewrite Hscore in Hc1 by (unfold W_BOUND, shoot; lia).
  replace (WB - 2 + 1) with (WB - 1) in Hc1 by lia.
  specialize (Hmax (WB - 1) 0). unfold iStart, W_BOUND, shoot in *. lia.
Qed.

(** Whatever the density map, a terminal state lies beyond column [W]:
    from any earlier column a comment of five bytes would score more. *)
Lemma terminal_beyond_W (s : Z * Z * Z) : terminal s -> W + 5 <= fst3 s.
Proof.
  intros (Hin & Hr & Hstart & Hmax).
  destruct s as [[i j] k]. unfold fst3 in *. cbn [fst snd] in *.
  destruct (Z_lt_le_dec i (W + 5)) as [Hlt | Hge]; [|exact Hge]. exfalso.
  pose proof (Hclosed _ _ _ Hin) as Hc. unfold closed, fst3 in Hc. cbn [fst snd] in Hc.
  destruct (Hc Hr) as [_ Hc5].
  specialize (Hmax (i + 5) 1). unfold iStart, W_BOUND, shoot in *. lia.
Qed.

End Choice.

(** *** Reconstruction *)

Lemma all_chars_app (p : ascii -> bool) (a b : string) :
  all_chars p (a ++ b) = all_chars p a && all_chars p b.
Proof.
  induction a as [|c a IH]; simpl; [reflexivity|]. rewrite IH. apply andb_assoc.
Qed.

Lemma rand_character_lower (p : nat) : islower (rand_character rng p) = true.
Proof.
  unfold rand_character, islower, in_range, code_of.
  assert (Hm : 0 <= rng p mod 26 < 26) by (apply Z.mod_pos_bound; lia).
  rewrite N_ascii_embedding by lia. rewrite Z2N.id by lia.
  apply andb_true_iff. rewrite !Z.leb_le. lia.
Qed.

Lemma comment_seg_spec (pi_ len : Z) (p : nat) :
  4 <= len ->
  size (fst (comment_seg W H target_density rng row pi_ len p)) = len /\
  all_chars filler_char (fst (comment_seg W H target_density rng row pi_ len p)) = true.
Proof.
  intro Hlen. unfold comment_seg.
  replace (len <? 4) with false by (symmetry; apply Z.ltb_ge; lia).
  set (f := fun '(seg, p) t => _).
  assert (G : String.length (fst (fold_left f (range 0 len) (EmptyString, p)))
              = length (range 0 len) /\
              all_chars filler_char (fst (fold_left f (range 0 len) (EmptyString, p))) = true).
  { apply (fold_left_prefix_ind f
             (fun pre r => String.length (fst r) = length pre /\
                           all_chars filler_char (fst r) = true)).
    - split; reflexivity.
    - intros pre x post [seg q] _ [Hl Hc]. cbn [fst] in *.
      rewrite length_app. cbn [length].
      assert (Hone : forall (c : ascii) (q' : nat), filler_char c = true ->
                String.length (fst (seg ++ str1 c, q')) = (length pre + 1)%nat /\
                all_chars filler_char (fst (seg ++ str1 c, q')) = true).
      { intros c q' Hfc. cbn [fst]. rewrite str_app_length, all_chars_app, Hl, Hc.
        simpl. rewrite Hfc. split; reflexivity. }
      unfold f.
      destruct (x =? 0); [apply (Hone "/"%char); reflexivity|].
      destruct (x =? 1); [apply (Hone "*"%char); reflexivity|].
      destruct (x =? len - 2); [apply (Hone "*"%char); reflexivity|].
      destruct (x =? len - 1); [apply (Hone "/"%char); reflexivity|].
      destruct (_ =? 0); [apply (Hone " "%char); reflexivity|].
      apply Hone. unfold filler_char. rewrite rand_character_lower. apply orb_true_r. }
  destruct G as [G1 G2]. split; [|exact G2].
  unfold size. rewrite G1. unfold range. rewrite zseq_length. lia.
Qed.

Lemma origin_only (t : table) (k : Z) :
  inv t -> in_table WB 0 0 k -> dp_at t (idx 0 0 k) <> NEG_INF -> k = 0.
Proof.
  intros [_ Hinv] Hin Hr.
  destruct (Hinv 0 0 k Hin Hr) as (_ & _ & _ & [(_ & _ & Hk) | (pi_ & pj & pk & _ & Hp & _ & Hs)]);
    [exact Hk|].
  exfalso. unfold in_table, step_rel in *. pose proof (size_nonneg (token_at tokens (taken + pj))).
  lia.
Qed.

Lemma reconstruct_path (t : table) :
  inv t ->
  forall (fuel : nat) (ci cj ck : Z) (acc : list blob) (p : nat),
    in_table WB ci cj ck -> dp_at t (idx ci cj ck) <> NEG_INF ->
    ci + cj <= Z.of_nat fuel ->
    exists pre p',
      reconstruct tokens W H target_density rng row taken fuel t ci cj ck acc p
      = Some ((pre ++ acc)%list, p') /\
      row_path tokens taken ci cj ck pre.
Proof.
  intro Hinv. induction fuel as [|fuel IH]; intros ci cj ck acc p Hin Hr Hfuel.
  - assert (ci = 0 /\ cj = 0) as [-> ->] by (unfold in_table in Hin; lia).
    rewrite (origin_only t ck Hinv Hin Hr). exists [], p. split; [reflexivity | constructor].
  - cbn [reconstruct].
    destruct ((0 <? ci) || (0 <? cj)) eqn:Econd.
    2:{ apply orb_false_iff in Econd as [E1 E2]. apply Z.ltb_ge in E1, E2.
        assert (ci = 0 /\ cj = 0) as [-> ->] by (unfold in_table in Hin; lia).
        rewrite (origin_only t ck Hinv Hin Hr). exists [], p.
        split; [reflexivity | constructor]. }
    destruct Hinv as [Ho Hall].
    destruct (Hall ci cj ck Hin Hr)
      as (_ & _ & _ & [(-> & -> & _) | (pi_ & pj & pk & Eb & Hp & Hrp & Hs)]);
      [discriminate Econd|].
    rewrite Eb.
    replace (pi_ <? 0) with false by (symmetry; apply Z.ltb_ge; unfold in_table in Hp; lia).
    assert (Hsz : 0 <= size (token_at tokens (taken + pj))) by apply size_nonneg.
    assert (Hmeasure : pi_ + pj <= Z.of_nat fuel) by (unfold step_rel, in_table in *; lia).
    destruct Hs as [(-> & -> & ->) | [(-> & Hlen & ->) | (Hk & -> & Hpj & Hpk & -> & Hsep)]].
    + (* space *)
      change (0 =? 0) with true. cbv iota.
      destruct (IH pi_ pj pk (Blob 0 " " :: acc) p Hp Hrp Hmeasure) as (pre & p' & E & Hpath).
      exists (pre ++ [Blob 0 " "])%list, p'. split.
      * rewrite E, <- app_assoc. reflexivity.
      * now apply path_space with (pk := pk).
    + (* comment *)
      change (1 =? 0) with false. change (1 =? 1) with true. cbv iota.
      destruct (comment_seg_spec pi_ (ci - pi_) p Hlen) as [Hsize Hchars].
      destruct (comment_seg W H target_density rng row pi_ (ci - pi_) p) as [seg p1] eqn:Ec.
      cbn [fst] in *.
      destruct (IH pi_ pj pk (Blob 1 seg :: acc) p1 Hp Hrp Hmeasure) as (pre & p' & E & Hpath).
      exists (pre ++ [Blob 1 seg])%list, p'. split.
      * rewrite E, <- app_assoc. reflexivity.
      * replace ci with (pi_ + size seg) by lia.
        apply path_comment with (pk := pk); try assumption. lia.
    + (* token *)
      assert (Htk : taken + pj < n tokens)
        by (unfold tokens_left_total in Hpj; unfold in_table in Hp; lia).
      replace (ck =? 0) with false by (symmetry; apply Z.eqb_neq; lia).
      replace (ck =? 1) with false by (symmetry; apply Z.eqb_neq; lia).
      replace ((0 <=? pj) && (pj <? WB) && (taken + pj <? n tokens)) with true
        by (symmetry; rewrite !andb_true_iff, !Z.leb_le, !Z.ltb_lt;
            unfold in_table in Hp; lia).
      destruct (IH pi_ pj pk (Blob ck (token_at tokens (taken + pj)) :: acc) p Hp Hrp Hmeasure)
        as (pre & p' & E & Hpath).
      exists (pre ++ [Blob ck (token_at tokens (taken + pj))])%list, p'. split.
      * rewrite E, <- app_assoc. reflexivity.
      * apply path_token with (pk := pk); try assumption; try (unfold in_table in Hp; lia).
        destruct (need_sep tokens taken pj); destruct Hk as [-> | ->]; try reflexivity.
        -- exfalso. assert (3 = 2) by (apply Hsep; reflexivity). lia.
        -- exfalso. assert (false = true) by (apply Hsep; reflexivity). discriminate.
Qed.

End RowDP.

(** ** Rows of blobs *)

Lemma size_app (a b : string) : size (a ++ b) = size a + size b.
Proof. unfold size. rewrite str_app_length. lia. Qed.

Lemma row_text_app (a b : list blob) : row_text (a ++ b) = row_text a ++ row_text b.
Proof.
  induction a as [|x a IH]; simpl; [reflexivity|]. now rewrite IH, str_app_assoc.
Qed.

Lemma row_text_snoc (a : list blob) (b : blob) : row_text (a ++ [b]) = row_text a ++ text b.
Proof. rewrite row_text_app. simpl. now rewrite str_app_nil_r. Qed.

Lemma tokens_of_app (a b : list blob) : tokens_of (a ++ b)%list = (tokens_of a ++ tokens_of b)%list.
Proof. unfold tokens_of. now rewrite List.filter_app, List.map_app. Qed.

Lemma ns_empty_l (b : string) : needs_separator EmptyString b = false.
Proof. reflexivity. Qed.

Lemma safe_row_snoc (pre : list blob) (b : blob) :
  safe_row pre ->
  (forall b', last pre = Some b' -> is_token b' = true -> is_token b = true ->
              needs_separator (text b') (text b) = false) ->
  safe_row (pre ++ [b]).
Proof.
  induction pre as [|x pre IH]; intros Hs Hl; [exact I|].
  destruct pre as [|y pre].
  - simpl. split; [|exact I]. apply Hl. reflexivity.
  - change ((x :: y :: pre) ++ [b])%list with (x :: (y :: pre) ++ [b])%list.
    destruct Hs as [Hxy Hs]. cbn [safe_row app]. split; [exact Hxy|].
    apply IH; [exact Hs|]. intros b' Hb'. apply Hl. exact Hb'.
Qed.

Lemma safe_row_app (a b : list blob) :
  safe_row a -> safe_row b ->
  (forall x y, last a = Some x -> head b = Some y -> is_token x = true -> is_token y = true ->
               needs_separator (text x) (text y) = false) ->
  safe_row (a ++ b).
Proof.
  induction a as [|x a IH]; intros Ha Hb Hl; [exact Hb|].
  destruct a as [|y a].
  - destruct b as [|z b]; [exact I|]. cbn [app safe_row]. split; [|exact Hb].
    apply Hl; reflexivity.
  - change ((x :: y :: a) ++ b)%list with (x :: (y :: a) ++ b)%list.
    destruct Ha as [Hxy Ha]. cbn [safe_row app]. split; [exact Hxy|].
    apply IH; [exact Ha | exact Hb|]. intros x' y' Hx'. apply Hl. exact Hx'.
Qed.

Lemma take_succ_token (tokens : list string) (taken j : Z) :
  0 <= taken -> 0 <= j -> taken + j < n tokens ->
  firstn (Z.to_nat (j + 1)) (drop (Z.to_nat taken) tokens)
  = (firstn (Z.to_nat j) (drop (Z.to_nat taken) tokens) ++ [token_at tokens (taken + j)])%list.
Proof.
  intros Ht Hj Hn. unfold n in Hn.
  replace (Z.to_nat (j + 1)) with (S (Z.to_nat j)) by lia.
  assert (Hl : (Z.to_nat (taken + j) < length tokens)%nat) by lia.
  apply lookup_lt_is_Some in Hl as [x Hx].
  unfold token_at. rewrite nth_lookup, Hx. simpl.
  apply take_S_r. rewrite lookup_drop.
  replace (Z.to_nat taken + Z.to_nat j)%nat with (Z.to_nat (taken + j)) by lia. exact Hx.
Qed.

Section PathFacts.

Variable tokens : list string.
Variable taken : Z.
Hypothesis Htaken : 0 <= taken.
Hypothesis Htaken_le : taken <= n tokens.

(** What a path says about its last blob. *)
Lemma row_path_last (i j k : Z) (pre : list blob) :
  row_path tokens taken i j k pre ->
  0 <= k < 4 /\
  match last pre with
  | None => i = 0 /\ j = 0 /\ k = 0
  | Some b =>
      kind b = k /\
      ((k = 2 \/ k = 3) ->
       text b = token_at tokens (taken + (j - 1)) /\
       (k = 3 -> need_sep tokens taken (j - 1) = false))
  end.
Proof.
  intro Hp. destruct Hp as [ | pi_ pj pk pre _ | pi_ pj pk pre seg _ _ _ | pi_ pj pk pre k _ _ _ _ Hk].
  - split; [lia|]. simpl. repeat split; reflexivity.
  - rewrite last_snoc. cbn [kind text]. split; [lia|]. split; [reflexivity | lia].
  - rewrite last_snoc. cbn [kind text]. split; [lia|]. split; [reflexivity | lia].
  - rewrite last_snoc. cbn [kind text].
    replace (pj + 1 - 1) with pj by lia.
    destruct (need_sep tokens taken pj); subst k; (split; [lia|]);
      (split; [reflexivity|]); intros _; (split; [reflexivity|]); intro; [lia | reflexivity].
Qed.

Lemma row_path_facts (i j k : Z) (pre : list blob) :
  row_path tokens taken i j k pre ->
  size (row_text pre) = i /\
  (0 <= j /\ taken + j <= n tokens) /\
  tokens_of pre = firstn (Z.to_nat j) (drop (Z.to_nat taken) tokens) /\
  Forall filler_ok pre /\
  safe_row pre.
Proof.
  induction 1 as [ | pi_ pj pk pre Hp IH | pi_ pj pk pre seg Hp IH Hlen Hch
                   | pi_ pj pk pre k Hp IH Hpk Hpj Hn Hk ].
  - split; [reflexivity|]. split; [lia|]. split; [reflexivity|].
    split; [constructor | exact I].
  - destruct IH as (I1 & I2 & I3 & I4 & I5).
    rewrite row_text_snoc, size_app, tokens_of_app, I1, I3. cbn [text]. unfold tokens_of at 1. simpl.
    rewrite app_nil_r. repeat split; try lia.
    + apply Forall_app. split; [exact I4|]. constructor; [|constructor].
      right. left. split; reflexivity.
    + apply safe_row_snoc; [exact I5|]. intros b' _ _ Hb. discriminate Hb.
  - destruct IH as (I1 & I2 & I3 & I4 & I5).
    rewrite row_text_snoc, size_app, tokens_of_app, I1, I3. cbn [text]. unfold tokens_of at 1. simpl.
    rewrite app_nil_r. repeat split; try lia.
    + apply Forall_app. split; [exact I4|]. constructor; [|constructor].
      right. right. auto.
    + apply safe_row_snoc; [exact I5|]. intros b' _ _ Hb. discriminate Hb.
  - destruct IH as (I1 & I2 & I3 & I4 & I5).
    assert (Htok : is_token (Blob k (token_at tokens (taken + pj))) = true).
    { subst k. destruct (need_sep tokens taken pj); reflexivity. }
    rewrite row_text_snoc, size_app, tokens_of_app, I1, I3. cbn [text].
    unfold tokens_of at 1. cbn [List.filter]. rewrite Htok. cbn [List.map text].
    rewrite take_succ_token by lia.
    repeat split; try lia.
    + apply Forall_app. split; [exact I4|]. constructor; [|constructor]. left. exact Htok.
    + apply safe_row_snoc; [exact I5|]. intros b' Hb' Hb't _. cbn [text].
      pose proof (row_path_last _ _ _ _ Hp) as [_ Hl]. rewrite Hb' in Hl.
      destruct Hl as [Hkind Hl].
      assert (Hpk3 : pk = 3).
      { unfold is_token in Hb't. rewrite Hkind in Hb't.
        apply orb_true_iff in Hb't as [E | E]; apply Z.eqb_eq in E; [contradiction | exact E]. }
      destruct (Hl (or_intror Hpk3)) as [-> Hsep]. specialize (Hsep Hpk3).
      unfold need_sep in Hsep. replace (taken + (pj - 1) + 1) with (taken + pj) in Hsep by lia.
      replace (taken + pj <? n tokens) with true in Hsep by (symmetry; apply Z.ltb_lt; lia).
      exact Hsep.
Qed.

End PathFacts.

(** ** The overflow tail *)

Lemma in_row_text_size (b : blob) (line : list blob) :
  In b line -> size (text b) <= size (row_text line).
Proof.
  induction line as [|x line IH]; intros []; simpl; rewrite size_app.
  - subst x. pose proof (Zle_0_nat (String.length (row_text line))). unfold size. lia.
  - specialize (IH H). pose proof (Zle_0_nat (String.length (text x))). unfold size in *. lia.
Qed.

Lemma in_tokens_of (s : string) (line : list blob) :
  In s (tokens_of line) -> exists b, In b line /\ text b = s.
Proof.
  unfold tokens_of. intro Hin. apply in_map_iff in Hin as (b & <- & Hb).
  apply filter_In in Hb as [Hb _]. exists b. auto.
Qed.

Lemma overflow_line_spec (W_eff : Z) :
  forall (rest : list string) (col : Z) (prev : string),
    Forall (fun t => t <> EmptyString) rest -> 0 <= col ->
    let r := overflow_line W_eff rest col prev in
    (0 <= snd r <= Z.of_nat (length rest)) /\
    tokens_of (fst r) = firstn (Z.to_nat (snd r)) rest /\
    Forall filler_ok (fst r) /\
    safe_row (fst r) /\
    (forall b, head (fst r) = Some b -> is_token b = true ->
               needs_separator prev (text b) = false) /\
    (rest <> [] -> col = 0 -> 1 <= snd r) /\
    (col + size (row_text (fst r)) <= W_eff \/ fst r = [] \/
     (col = 0 /\ exists tok rest', rest = tok :: rest' /\
        size (row_text (fst r))
        = (if negb (str_empty prev) && needs_separator prev tok then 1 else 0) + size tok)).
Proof.
  induction rest as [|tok rest IH]; intros col prev Hne Hcol; cbv zeta.
  - cbn [overflow_line fst snd length].
    split; [lia|]. split; [reflexivity|]. split; [constructor|]. split; [exact I|].
    split; [intros b Hb; discriminate Hb|]. split; [intro Hc; contradiction|].
    right. left. reflexivity.
  - apply Forall_cons in Hne as [Htok Hne].
    assert (Hsz : 1 <= size tok).
    { unfold size. destruct tok; [contradiction | simpl; lia]. }
    cbn [overflow_line].
    set (sep := negb (str_empty prev) && needs_separator prev tok).
    set (placed := ((if sep then [Blob 0 " "] else []) ++ [Blob 3 tok])%list).
    assert (Hplaced_tok : tokens_of placed = [tok]) by (unfold placed; destruct sep; reflexivity).
    assert (Hplaced_ok : Forall filler_ok placed).
    { assert (Ht : filler_ok (Blob 3 tok)) by (left; reflexivity).
      assert (Hs : filler_ok (Blob 0 " ")) by (right; left; split; reflexivity).
      unfold placed. destruct sep; cbn [app].
      - constructor; [exact Hs|]. constructor; [exact Ht | constructor].
      - constructor; [exact Ht | constructor]. }
    assert (Hplaced_safe : safe_row placed).
    { unfold placed. destruct sep; simpl; [|exact I].
      split; [intro Hb; discriminate Hb | exact I]. }
    assert (Hplaced_head : forall b, head placed = Some b -> is_token b = true ->
                                     needs_separator prev (text b) = false).
    { unfold placed. intros b Hb Ht. destruct sep eqn:Es; simpl in Hb; inversion Hb; subst b.
      - discriminate Ht.
      - cbn [text]. unfold sep in Es. apply andb_false_iff in Es as [Es | Es]; [|exact Es].
        apply negb_false_iff in Es. apply str_length_zero in Es. subst prev. apply ns_empty_l. }
    assert (Hplaced_size : size (row_text placed) = (if sep then 1 else 0) + size tok).
    { unfold placed. destruct sep; simpl; rewrite ?str_app_nil_r; unfold size; simpl; lia. }
    assert (Hplaced_last : last placed = Some (Blob 3 tok)).
    { unfold placed. apply last_snoc. }
    destruct (W_eff <? col + ((if sep then 1 else 0) + size tok)) eqn:Efit.
    + destruct (col =? 0) eqn:Ecol; cbn [fst snd].
      * apply Z.eqb_eq in Ecol. cbn [length].
        split; [lia|]. split; [exact Hplaced_tok|]. split; [exact Hplaced_ok|].
        split; [exact Hplaced_safe|]. split; [exact Hplaced_head|]. split; [lia|].
        right. right. split; [exact Ecol|]. exists tok, rest. split; [reflexivity | exact Hplaced_size].
      * cbn [length]. split; [lia|]. split; [reflexivity|]. split; [constructor|].
        split; [exact I|]. split; [intros b Hb; discriminate Hb|]. apply Z.eqb_neq in Ecol.
        split; [intros _ Hc; contradiction|]. right. left. reflexivity.
    + apply Z.ltb_ge in Efit.
      specialize (IH (col + (if sep then 1 else 0) + size tok) tok Hne).
      cbv zeta in IH.
      destruct (overflow_line W_eff rest (col + (if sep then 1 else 0) + size tok) tok)
        as [line k] eqn:Er.
      cbn [fst snd] in *.
      destruct IH as (I1 & I2 & I3 & I4 & I5 & I6 & I7); [destruct sep; lia|].
      cbn [length]. split; [lia|]. split.
      { rewrite tokens_of_app, Hplaced_tok, I2.
        replace (Z.to_nat (1 + k)) with (S (Z.to_nat k)) by lia. reflexivity. }
      split; [apply Forall_app; split; assumption|]. split.
      { apply safe_row_app; try assumption.
        intros x y Hx Hy _ Hyt. rewrite Hplaced_last in Hx. inversion Hx; subst x.
        cbn [text]. now apply I5. }
      split.
      { intros b Hb. apply Hplaced_head. unfold placed in *.
        destruct sep; simpl in Hb |- *; exact Hb. }
      split; [lia|]. left.
      rewrite row_text_app, size_app, Hplaced_size.
      destruct I7 as [I7 | [-> | (I7 & _)]];
        [lia | change (size (row_text [])) with 0; lia |].
      destruct sep; lia.
Qed.

(** ** The main loop *)

Lemma maxl_bound (tokens : list string) (t : string) : In t tokens -> size t <= maxl tokens.
Proof.
  unfold maxl.
  assert (G : forall l a, a <= fold_left (fun m t => Z.max m (size t)) l a /\
                          forall t, In t l -> size t <= fold_left (fun m t => Z.max m (size t)) l a).
  { induction l as [|x l IH]; intro a; simpl; [split; [lia | intros ? []]|].
    destruct (IH (Z.max a (size x))) as [I1 I2]. split; [lia|].
    intros t' [<- | Ht]; [lia | now apply I2]. }
  apply G.
Qed.

Section Engine.

Variable tokens : list string.
Variable W H : Z.
Variable target_density : list (list Q).
Variable density_map : AsciiDensity.
Variable rng : nat -> Z.

Hypothesis Hpre : precondition tokens W = true.
Hypothesis Htokens : Forall (fun t => t <> EmptyString) tokens.

Local Abbreviation WB := (W_BOUND W).

Lemma width_facts : 71 <= W /\ maxl tokens < WB.
Proof.
  unfold precondition in Hpre. apply Z.ltb_lt in Hpre.
  unfold min_width, W_BOUND, shoot in *. lia.
Qed.

Lemma layout_row_spec (row taken : Z) (p : nat) :
  0 <= taken <= n tokens ->
  exists blobs oi oj ok p',
    layout_row tokens W H target_density density_map rng row taken p = Some (blobs, oj, p') /\
    row_path tokens taken oi oj ok blobs /\
    W <= oi < WB /\
    (density_of density_map " " = 0 -> oi = WB - 1).
Proof.
  intros Ht. destruct width_facts as [HW _].
  assert (HWB : 0 < WB) by (unfold W_BOUND, shoot; lia).
  unfold layout_row.
  set (t := solve tokens W H target_density density_map rng row taken (init_table W p)).
  destruct (solve_inv_closed tokens W H target_density density_map rng row taken
              (proj1 Ht) Htokens (init_table W p) (init_table_inv tokens W taken p HWB))
    as [Hinv Hclosed].
  fold t in Hinv, Hclosed.
  pose proof (optimal_state_terminal tokens W H target_density density_map row taken t
                Hinv Hclosed HWB) as Hterm.
  pose proof (terminal_last_column tokens W H target_density density_map row taken t
                Hinv Hclosed (optimal_state tokens W taken t)) as Hlast.
  pose proof (terminal_beyond_W W H target_density density_map row t
                Hclosed (optimal_state tokens W taken t) Hterm) as Hbeyond.
  destruct (optimal_state tokens W taken t) as [[oi oj] ok].
  unfold fst3 in *. cbn [fst snd] in *.
  destruct Hterm as (Hin & Hr & Hstart & Hmax).
  destruct (reconstruct_path tokens W H target_density rng row taken t Hinv
              (Z.to_nat (oi + oj)) oi oj ok [] (pos t) Hin Hr) as (pre & p' & E & Hpath).
  { unfold in_table in Hin. lia. }
  rewrite E, app_nil_r. exists pre, oi, oj, ok, p'.
  split; [reflexivity|]. split; [exact Hpath|]. split; [unfold in_table in Hin; lia|].
  intro Hsp. apply Hlast; [exact Hsp | lia | auto].
Qed.

Lemma w_extra_bounds (p : nat) : 0 <= w_extra_dist rng p <= 9.
Proof.
  unfold w_extra_dist, shoot. pose proof (Z.mod_pos_bound (rng p) 10). lia.
Qed.

Lemma drop_tokens_cons (taken : Z) :
  0 <= taken < n tokens ->
  drop (Z.to_nat taken) tokens
  = token_at tokens taken :: drop (Z.to_nat (taken + 1)) tokens.
Proof.
  intros Ht. unfold n in Ht.
  assert (Hl : (Z.to_nat taken < length tokens)%nat) by lia.
  apply lookup_lt_is_Some in Hl as [x Hx].
  unfold token_at. rewrite nth_lookup, Hx. simpl.
  replace (Z.to_nat (taken + 1)) with (S (Z.to_nat taken)) by lia.
  now apply drop_S.
Qed.

(** One iteration of the main loop. *)
Lemma layout_step_spec (taken row : Z) (p : nat) :
  0 <= taken <= n tokens ->
  taken < n tokens \/ row < H ->
  exists line taken' p',
    layout_step tokens W H target_density density_map rng taken row p
    = Some (line, taken', row + 1, p') /\
    taken <= taken' <= n tokens /\
    (H <= row -> taken < taken') /\
    tokens_of line = firstn (Z.to_nat (taken' - taken)) (drop (Z.to_nat taken) tokens) /\
    safe_row line /\ Forall filler_ok line /\
    row_width_ok W H density_map row line.
Proof.
  intros Ht Hguard. destruct width_facts as [HW Hmaxl]. unfold layout_step.
  destruct (H <=? row) eqn:Erow.
  - (* overflow line *)
    apply Z.leb_le in Erow. assert (Hlt : taken < n tokens) by lia.
    assert (Hrest : Forall (fun t => t <> EmptyString) (drop (Z.to_nat taken) tokens)).
    { rewrite Forall_forall in Htokens |- *. intros x Hx. apply Htokens.
      apply list_elem_of_In in Hx. apply list_elem_of_In.
      rewrite <- (firstn_skipn (Z.to_nat taken) tokens). apply in_or_app. right. exact Hx. }
    pose proof (overflow_line_spec (W + w_extra_dist rng p) (drop (Z.to_nat taken) tokens)
                  0 EmptyString Hrest (Z.le_refl 0)) as Hs.
    cbv zeta in Hs.
    destruct (overflow_line (W + w_extra_dist rng p) (drop (Z.to_nat taken) tokens) 0 EmptyString)
      as [line k].
    cbn [fst snd] in Hs. destruct Hs as (S1 & S2 & S3 & S4 & _ & S6 & S7).
    rewrite drop_tokens_cons in S6, S7, S2 by lia.
    specialize (S6 ltac:(discriminate) eq_refl).
    assert (Hlen : Z.of_nat (length (drop (Z.to_nat taken) tokens)) = n tokens - taken).
    { rewrite length_drop. unfold n in *. lia. }
    exists line, (taken + k), (S p). split; [reflexivity|].
    split; [lia|]. split; [lia|]. split.
    { replace (taken + k - taken) with k by lia. rewrite drop_tokens_cons by lia. exact S2. }
    split; [exact S4|]. split; [exact S3|].
    split; [lia|]. intros _.
    pose proof (w_extra_bounds p) as Hw.
    assert (Htk : 1 <= size (token_at tokens taken) <= maxl tokens).
    { split; [apply token_at_nonempty; [exact Htokens | lia]|].
      apply maxl_bound. unfold token_at. apply nth_In. unfold n in Hlt. lia. }
    split.
    + (* the first token is on the line *)
      replace (Z.to_nat k) with (S (Z.to_nat (k - 1))) in S2 by lia. cbn [firstn] in S2.
      assert (Hin : In (token_at tokens taken) (tokens_of line)) by (rewrite S2; left; reflexivity).
      apply in_tokens_of in Hin as (b & Hb & Eb).
      pose proof (in_row_text_size b line Hb) as Hsz. rewrite Eb in Hsz. lia.
    + destruct S7 as [S7 | [-> | (_ & tok & rest' & E & S7)]].
      * unfold W_BOUND, shoot. lia.
      * change (size (row_text [])) with 0. unfold W_BOUND, shoot. lia.
      * inversion E; subst tok. rewrite S7. cbn [str_empty String.length Nat.eqb negb andb]. lia.
  - (* a row of the image band *)
    apply Z.leb_gt in Erow.
    destruct (layout_row_spec row taken p Ht) as (blobs & oi & oj & ok & p' & E & Hpath & Hoi & Hlast).
    rewrite E.
    destruct (row_path_facts tokens taken (proj1 Ht) (proj2 Ht) oi oj ok blobs Hpath)
      as (F1 & F2 & F3 & F4 & F5).
    exists blobs, (taken + oj), p'. split; [reflexivity|].
    split; [lia|]. split; [lia|]. split.
    { replace (taken + oj - taken) with oj by lia. exact F3. }
    split; [exact F5|]. split; [exact F4|].
    split; [|lia]. intros _. rewrite F1. split; [exact Hoi | exact Hlast].
Qed.

End Engine.

(** ** The layout engine as a whole *)








Section Convert.

Variable tokens : list string.
Variable W H : Z.
Variable target_density : list (list Q).
Variable density_map : AsciiDensity.
Variable rng : nat -> Z.

Hypothesis Hpre : precondition tokens W = true.
Hypothesis Htokens : Forall (fun t => t <> EmptyString) tokens.

Local Abbreviation WB := (W_BOUND W).
Local Abbreviation loop := (layout_loop tokens W H target_density density_map rng).
Local Abbreviation step := (layout_step tokens W H target_density density_map rng).

Lemma drop_all (l : list string) (k : nat) : (length l <= k)%nat -> drop k l = [].
Proof. intro Hk. now apply drop_ge. Qed.

(** The loop runs to its end within [fuel] iterations and leaves the
    cursor at [(n, row_end)]. *)
Lemma layout_loop_spec (fuel : nat) :
  forall (taken row : Z) (p : nat),
    0 <= taken <= n tokens ->
    Z.max 0 (H - row) + (n tokens - taken) <= Z.of_nat fuel ->
    exists rows row_end,
      loop fuel taken row p = Some (rows, n tokens, row_end) /\
      H <= row_end /\ row_end = row + Z.of_nat (length rows) /\
      concat (List.map tokens_of rows) = drop (Z.to_nat taken) tokens /\
      Forall safe_row rows /\
      Forall (Forall filler_ok) rows /\
      (forall (m : nat) r, rows !! m = Some r ->
                           row_width_ok W H density_map (row + Z.of_nat m) r).
Proof.
  induction fuel as [|fuel IH]; intros taken row p Ht Hfuel.
  - assert (taken = n tokens /\ H <= row) as [-> Hrow] by lia.
    exists [], row. cbn [layout_loop].
    replace ((n tokens <? n tokens) || (row <? H)) with false
      by (symmetry; apply orb_false_iff; rewrite !Z.ltb_ge; lia).
    split; [reflexivity|]. split; [exact Hrow|]. split; [simpl; lia|].
    split; [symmetry; apply drop_all; unfold n; lia|].
    split; [constructor|]. split; [constructor|]. intros m r Hm. discriminate Hm.
  - cbn [layout_loop].
    destruct ((taken <? n tokens) || (row <? H)) eqn:Eg.
    2:{ apply orb_false_iff in Eg as [E1 E2]. apply Z.ltb_ge in E1, E2.
        assert (taken = n tokens) as -> by lia.
        exists [], row. split; [reflexivity|]. split; [exact E2|]. split; [simpl; lia|].
        split; [symmetry; apply drop_all; unfold n; lia|].
        split; [constructor|]. split; [constructor|]. intros m r Hm. discriminate Hm. }
    assert (Hguard : taken < n tokens \/ row < H)
      by (apply orb_true_iff in Eg as [E | E]; apply Z.ltb_lt in E; auto).
    destruct (layout_step_spec tokens W H target_density density_map rng Hpre Htokens
                taken row p Ht Hguard)
      as (line & taken' & p' & Es & Hmono & Hover & Htoks & Hsafe & Hok & Hwidth).
    fold step in Es. rewrite Es.
    destruct (IH taken' (row + 1) p') as (rows & row_end & El & Hend & Hcount & Hcat & Hs & Hf & Hw).
    { lia. }
    { destruct (Z_lt_le_dec row H); [lia|]. specialize (Hover ltac:(lia)). lia. }
    rewrite El. exists (line :: rows), row_end.
    split; [reflexivity|]. split; [exact Hend|]. split; [cbn [length]; lia|].
    split.
    { cbn [List.map concat]. rewrite Hcat, Htoks.
      replace (Z.to_nat taken') with (Z.to_nat taken + Z.to_nat (taken' - taken))%nat by lia.
      rewrite <- drop_drop. apply take_drop. }
    split; [constructor; assumption|]. split; [constructor; assumption|].
    intros [|m] r Hm.
    + inversion Hm; subst r. replace (row + Z.of_nat 0) with row by lia. exact Hwidth.
    + replace (row + Z.of_nat (S m)) with (row + 1 + Z.of_nat m) by lia. now apply Hw.
Qed.

Hypothesis HH : 0 <= H.

Lemma layout_rows_spec :
  exists rows,
    layout_rows tokens W H target_density density_map rng = inr rows /\
    convert_layout tokens W H target_density density_map rng = Finished (render rows) /\
    H <= Z.of_nat (length rows) /\
    concat (List.map tokens_of rows) = tokens /\
    Forall safe_row rows /\
    Forall (Forall filler_ok) rows /\
    (forall (m : nat) r, rows !! m = Some r -> row_width_ok W H density_map (Z.of_nat m) r).
Proof.
  destruct (layout_loop_spec (Z.to_nat H + length tokens) 0 0 0)
    as (rows & row_end & El & Hend & Hcount & Hcat & Hs & Hf & Hw).
  { unfold n. lia. }
  { unfold n. lia. }
  exists rows. unfold convert_layout, layout_rows. rewrite Hpre. cbn [negb].
  replace (H <? 0) with false by (symmetry; apply Z.ltb_ge; exact HH).
  fold loop. rewrite El.
  split; [reflexivity|]. split; [reflexivity|]. split; [lia|]. split; [exact Hcat|].
  split; [exact Hs|]. split; [exact Hf|].
  intros m r Hm. specialize (Hw m r Hm). exact Hw.
Qed.

End Convert.














(** ** Tokens are never empty *)

Lemma match_from_pos (s : string) (m : nat) : match_from s PUNCTS = Some m -> (1 <= m)%nat.
Proof.
  unfold match_from. destruct (List.find _ PUNCTS) as [p|] eqn:E; [|discriminate].
  intro Em. inversion Em; subst m. apply find_some in E as [Hin _].
  simpl in Hin.
  repeat (destruct Hin as [<- | Hin]; [simpl; lia|]). contradiction.
Qed.

Lemma parse_raw_string_pos (s : string) (j : nat) : parse_raw_string s = Some j -> (1 <= j)%nat.
Proof.
  unfold parse_raw_string. destruct (negb (is_R_quote s 0)); [discriminate|].
  destruct (raw_delim_loop (drop_str 2 s) EmptyString) as [[delim [|p body]]|]; try discriminate.
  destruct (Ascii.eqb p "("); [|discriminate]. intro E. inversion E. lia.
Qed.

Lemma parse_prefixed_raw_pos (s : string) (j : nat) :
  parse_prefixed_raw s = Some j -> (1 <= j)%nat.
Proof.
  unfold parse_prefixed_raw.
  assert (T : forall pfx off r,
             (1 <= off)%nat ->
             (if starts_with s pfx && is_R_quote s off
              then match parse_raw_string (drop_str off s) with
                   | Some jj => Some (off + jj)%nat
                   | None => None
                   end
              else None) = Some r -> (1 <= r)%nat).
  { intros pfx off r Hoff. destruct (starts_with s pfx && is_R_quote s off); [|discriminate].
    destruct (parse_raw_string (drop_str off s)); [|discriminate].
    intro E. inversion E. lia. }
  repeat match goal with
         | |- match ?x with Some _ => _ | None => _ end = Some _ -> _ =>
             let E := fresh "E" in
             destruct x eqn:E;
             [intro E'; inversion E'; subst; eapply T; [|exact E]; lia|]
         end.
  apply T. lia.
Qed.

Lemma token_len_pos (s : string) : (1 <= token_len s)%nat.
Proof.
  unfold token_len, tok_string, tok_char.
  repeat match goal with
         | |- context [match ?x with Some _ => _ | None => _ end] => destruct x eqn:?
         | |- context [if ?b then _ else _] => destruct b
         end;
    repeat match goal with
           | E : parse_prefixed_raw _ = Some _ |- _ => apply parse_prefixed_raw_pos in E
           | E : parse_raw_string _ = Some _ |- _ => apply parse_raw_string_pos in E
           | E : match_from _ _ = Some _ |- _ => apply match_from_pos in E
           | E : Some _ = Some _ |- _ => inversion E; subst; clear E
           | E : None = Some _ |- _ => discriminate E
           | E : (if ?b then _ else _) = Some _ |- _ => destruct b
           end;
    lia.
Qed.

Lemma tokenize_loop_nonempty (fuel : nat) :
  forall code, Forall (fun t => t <> EmptyString) (tokenize_loop fuel code).
Proof.
  induction fuel as [|fuel IH]; intro code; simpl; [constructor|].
  destruct code as [|c rest]; [constructor|].
  destruct (isspace c); [apply IH|].
  constructor; [|apply IH].
  pose proof (token_len_pos (String c rest)) as Hl.
  destruct (token_len (String c rest)) as [|l]; [lia|].
  rewrite take_str_S. discriminate.
Qed.

Lemma tokenize_nonempty (code : string) :
  Forall (fun t => t <> EmptyString) (tokenize_minimal_cpp code).
Proof. apply tokenize_loop_nonempty. Qed.

(** Every iteration consumes at least one character, so the length of the
    text is enough fuel: more of it changes nothing. *)
Lemma tokenize_loop_fuel (f1 : nat) :
  forall f2 code,
    (String.length code <= f1)%nat -> (String.length code <= f2)%nat ->
    tokenize_loop f1 code = tokenize_loop f2 code.
Proof.
  induction f1 as [|f1 IH]; intros f2 code H1 H2.
  - destruct code; [|simpl in H1; lia]. now destruct f2.
  - destruct code as [|c r]; [now destruct f2|].
    destruct f2 as [|f2]; [simpl in H2; lia|].
    cbn [tokenize_loop]. simpl in H1, H2.
    destruct (isspace c); [apply IH; lia|].
    cbv zeta. f_equal.
    pose proof (token_len_pos (String c r)) as Hp.
    pose proof (drop_str_length (token_len (String c r)) (String c r)) as Hd.
    simpl String.length in Hd.
    apply IH; lia.
Qed.

(** ** The command-line driver *)

Lemma max_width_nonneg (rows : list (list Z)) : 0 <= max_width rows.
Proof.
  unfold max_width.
  assert (G : forall (l : list (list Z)) a, 0 <= a ->
            0 <= fold_left (fun W s => if W <? Z.of_nat (length s)
                                       then Z.of_nat (length s) else W) l a).
  { induction l as [|x l IH]; simpl; intros a Ha; [exact Ha|].
    apply IH. destruct (a <? Z.of_nat (length x)); lia. }
  apply G. lia.
Qed.

Lemma parse_art_H_nonneg (art_text : string) (wo ho : option Z) (m : option AsciiDensity)
    (art : Art) :
  parse_art_to_density art_text wo ho m = Some art -> 0 <= art_H art.
Proof.
  unfold parse_art_to_density.
  match goal with |- context [if ?c then None else _] => destruct c eqn:EH end; [discriminate|].
  match goal with |- context [if ?c then None else _] => destruct c eqn:EW end; [discriminate|].
  intro E. inversion E; subst art. cbn [art_H]. apply Z.ltb_ge in EH. exact EH.
Qed.


Lemma convert_layout_finishes (tokens : list string) (W H : Z) (target_density : list (list Q))
    (density_map : AsciiDensity) (rng : nat -> Z) :
  precondition tokens W = true -> Forall (fun t => t <> EmptyString) tokens -> 0 <= H ->
  exists waifu, convert_layout tokens W H target_density density_map rng = Finished waifu.
Proof.
  intros Hpre Htokens HH.
  destruct (layout_rows_spec tokens W H target_density density_map rng Hpre Htokens HH)
    as (rows & _ & E & _). eauto.
Qed.




(** * Further properties of the separator oracle *)

Lemma count_in_In (set : list string) (x : string) : In x set -> count_in set x = true.
Proof.
  intro H. unfold count_in. apply existsb_exists. exists x. split; [exact H|].
  apply String.eqb_refl.
Qed.

Lemma count_in_multi_punct (x : string) :
  count_in multi x = true -> all_chars punct_char x = true.
Proof.
  unfold count_in. intro H. apply existsb_exists in H as (m & Hin & E).
  apply String.eqb_eq in E. subst m. simpl in Hin.
  repeat (destruct Hin as [<- | Hin]; [reflexivity|]). contradiction.
Qed.

Lemma multi_lengths (m : string) :
  In m multi -> String.length m = 2%nat \/ String.length m = 3%nat.
Proof.
  intro Hin. simpl in Hin.
  repeat (destruct Hin as [<- | Hin]; [simpl; auto|]). contradiction.
Qed.

Lemma take_str_1 (b : string) : b <> EmptyString -> take_str 1 b = str1 (front b).
Proof. destruct b as [|c b]; [contradiction|]. intros _. unfold take_str. simpl. now destruct b. Qed.

Lemma take_str_2 (b : string) :
  (2 <= String.length b)%nat -> take_str 2 b = String (front b) (str1 (at_ b 1)).
Proof.
  destruct b as [|c [|d b]]; simpl; try lia. intros _. unfold take_str. simpl. now destruct b.
Qed.

Lemma substring_skip (k m : nat) (c : ascii) (s : string) :
  String.substring (S k) m (String c s) = String.substring k m s.
Proof. reflexivity. Qed.

Lemma substring_last_1 (a : string) :
  a <> EmptyString -> String.substring (String.length a - 1) 1 a = str1 (back a).
Proof.
  induction a as [|c a IH]; [contradiction|]. intros _.
  destruct a as [|d a].
  - reflexivity.
  - replace (String.length (String c (String d a)) - 1)%nat
      with (S (String.length (String d a) - 1)) by (simpl; lia).
    rewrite substring_skip, IH by discriminate.
    unfold back, at_.
    replace (String.length (String c (String d a)) - 1)%nat
      with (S (String.length (String d a) - 1)) by (simpl; lia).
    reflexivity.
Qed.

(** What the answer [false] rules out, test by test. *)
Lemma needs_separator_false (a b : string) :
  a <> EmptyString -> b <> EmptyString -> needs_separator a b = false ->
  is_alnum_ (back a) && is_alnum_ (front b) = false /\
  (Ascii.eqb (back a) "/" && Ascii.eqb (front b) "/")
    || (Ascii.eqb (back a) "/" && Ascii.eqb (front b) "*")
    || (Ascii.eqb (back a) "*" && Ascii.eqb (front b) "/") = false /\
  (2 <=? String.length a)%nat
    && count_in multi (String.substring (String.length a - 2) 2 a ++ str1 (front b)) = false /\
  count_in multi (String (back a) (str1 (front b))) = false /\
  (2 <=? String.length b)%nat
    && count_in multi (String (back a) (String (front b) (str1 (at_ b 1)))) = false /\
  (ends_with_quote a || isdigit (back a)) && (isalpha (front b) || Ascii.eqb (front b) "_")
  = false /\
  (Ascii.eqb (back a) "." && isdigit (front b)) || (isdigit (back a) && Ascii.eqb (front b) ".")
  = false.
Proof.
  intros Ha Hb. unfold needs_separator.
  rewrite (str_length_nonzero a Ha), (str_length_nonzero b Hb). cbn [orb]. cbv zeta.
  repeat match goal with
         | |- (if ?c then true else _) = false -> _ =>
             let E := fresh "E" in destruct c eqn:E; [discriminate|]
         end.
  intros _. repeat split; reflexivity || assumption.
Qed.

(** X1: the hazards of comments and of literals at a boundary.  Two
    non-empty tokens are kept apart when their meeting characters would read
    as the start of a line comment, the start of a block comment or the end
    of a block comment; when a literal that ends in a quote or a digit is
    followed by a letter or an underscore, which would read as a suffix of
    the literal; and when a digit meets a dot on either side, which would
    read as one floating literal. *)
Theorem needs_separator_boundary_hazards (a b : string) :
  a <> EmptyString -> b <> EmptyString ->
  (back a = "/"%char /\ (front b = "/"%char \/ front b = "*"%char)) \/
  (back a = "*"%char /\ front b = "/"%char) \/
  ((ends_with_quote a = true \/ isdigit (back a) = true) /\
   (isalpha (front b) = true \/ front b = "_"%char)) \/
  (back a = "."%char /\ isdigit (front b) = true) \/
  (isdigit (back a) = true /\ front b = "."%char) ->
  needs_separator a b = true.
Proof.
  intros Ha Hb Hc.
  destruct (needs_separator a b) eqn:E; [reflexivity|]. exfalso.
  destruct (needs_separator_false a b Ha Hb E) as (_ & H2 & _ & _ & _ & H4 & H5).
  destruct Hc as [[Hl Hr] | [[Hl Hr] | [[Hl Hr] | [[Hl Hr] | [Hl Hr]]]]].
  - rewrite Hl in H2. destruct Hr as [Hr | Hr]; rewrite Hr in H2; discriminate.
  - rewrite Hl, Hr in H2. discriminate.
  - assert (L : ends_with_quote a || isdigit (back a) = true)
      by (apply orb_true_iff; exact Hl).
    assert (R : isalpha (front b) || Ascii.eqb (front b) "_" = true).
    { apply orb_true_iff. destruct Hr as [Hr | Hr]; [left; exact Hr|].
      right. rewrite Hr. reflexivity. }
    rewrite L, R in H4. discriminate.
  - rewrite Hl, Hr in H5. discriminate.
  - rewrite Hl, Hr in H5. cbn in H5. rewrite orb_true_r in H5. discriminate.
Qed.

Lemma needs_separator_boundary_hazards_witness :
  "a/" <> EmptyString /\ "*p" <> EmptyString /\ needs_separator "a/" "*p" = true /\
  "1" <> EmptyString /\ ".5" <> EmptyString /\ needs_separator "1" ".5" = true.
Proof.
  assert (Ha : "a/" <> EmptyString) by discriminate.
  assert (Hb : "*p" <> EmptyString) by discriminate.
  assert (Hc : "1" <> EmptyString) by discriminate.
  assert (Hd : ".5" <> EmptyString) by discriminate.
  split; [exact Ha|]. split; [exact Hb|]. split.
  { apply (needs_separator_boundary_hazards "a/" "*p" Ha Hb).
    left. split; [reflexivity | right; reflexivity]. }
  split; [exact Hc|]. split; [exact Hd|].
  apply (needs_separator_boundary_hazards "1" ".5" Hc Hd).
  right. right. right. right. split; reflexivity.
Defined.

(** X2: where the oracle answers [false], no multi-character punctuator
    of its table lies across the boundary: no entry [m] is made of the last
    [k] characters of [a] followed by the first [|m| - k] characters of
    [b]. *)
Theorem needs_separator_blocks_punctuators (a b m : string) (k : nat) :
  needs_separator a b = false ->
  In m multi ->
  (0 < k < String.length m)%nat ->
  (k <= String.length a)%nat ->
  (String.length m - k <= String.length b)%nat ->
  String.substring (String.length a - k) k a ++ take_str (String.length m - k) b <> m.
Proof.
  intros Hns Hin Hk Hka Hkb Heq.
  assert (Ha : a <> EmptyString) by (intros ->; simpl in Hka; lia).
  assert (Hb : b <> EmptyString) by (intros ->; simpl in Hkb; lia).
  destruct (needs_separator_false a b Ha Hb Hns) as (_ & _ & H21 & H11 & H12 & _).
  apply count_in_In in Hin.
  destruct (multi_lengths m) as [Hm | Hm].
  { unfold count_in in Hin. apply existsb_exists in Hin as (m' & Hin & E).
    apply String.eqb_eq in E. now subst m'. }
  - assert (k = 1%nat) by lia. subst k. rewrite Hm in Heq.
    rewrite substring_last_1, take_str_1 in Heq by assumption.
    change (str1 (back a) ++ str1 (front b)) with (String (back a) (str1 (front b))) in Heq.
    rewrite Heq in H11. congruence.
  - assert (k = 1%nat \/ k = 2%nat) as [-> | ->] by lia; rewrite Hm in Heq.
    + change (3 - 1)%nat with 2%nat in *.
      rewrite substring_last_1, take_str_2 in Heq by assumption || lia.
      change (str1 (back a) ++ String (front b) (str1 (at_ b 1)))
        with (String (back a) (String (front b) (str1 (at_ b 1)))) in Heq.
      rewrite Heq, Hin, andb_true_r in H12. apply Nat.leb_gt in H12. lia.
    + change (3 - 2)%nat with 1%nat in *.
      rewrite take_str_1 in Heq by assumption.
      rewrite Heq, Hin, andb_true_r in H21. apply Nat.leb_gt in H21. lia.
Qed.

Lemma needs_separator_blocks_punctuators_witness :
  needs_separator "a-" "b" = false /\ In "->" multi /\
  (0 < 1 < String.length "->")%nat /\ (1 <= String.length "a-")%nat /\
  (String.length "->" - 1 <= String.length "b")%nat /\
  String.substring (String.length "a-" - 1) 1 "a-" ++ take_str (String.length "->" - 1) "b"
  <> "->".
Proof.
  assert (H1 : needs_separator "a-" "b" = false) by reflexivity.
  assert (H2 : In "->" multi) by (simpl; tauto).
  assert (H3 : (0 < 1 < String.length "->")%nat) by (simpl; lia).
  assert (H4 : (1 <= String.length "a-")%nat) by (simpl; lia).
  assert (H5 : (String.length "->" - 1 <= String.length "b")%nat) by (simpl; lia).
  repeat (split; [assumption|]).
  exact (needs_separator_blocks_punctuators "a-" "b" "->" 1 H1 H2 H3 H4 H5).
Defined.

(** X3: in front of a token that begins with a double or a single quote
    the oracle never asks for a separator, whatever stands before it. *)
Theorem needs_separator_false_before_quote (a b : string) :
  is_quote (front b) = true -> needs_separator a b = false.
Proof.
  intro Hq. unfold needs_separator.
  destruct ((String.length a =? 0)%nat || (String.length b =? 0)%nat); [reflexivity|].
  cbv zeta.
  assert (Hp : punct_char (front b) = false).
  { unfold is_quote in Hq. apply orb_true_iff in Hq as [E | E];
      apply Ascii.eqb_eq in E; rewrite E; reflexivity. }
  assert (Hcls : is_alnum_ (front b) = false /\ isalpha (front b) = false /\
                 isdigit (front b) = false /\ Ascii.eqb (front b) "_" = false /\
                 Ascii.eqb (front b) "/" = false /\ Ascii.eqb (front b) "*" = false /\
                 Ascii.eqb (front b) "." = false).
  { unfold is_quote in Hq. apply orb_true_iff in Hq as [E | E];
      apply Ascii.eqb_eq in E; rewrite E; repeat split; reflexivity. }
  destruct Hcls as (H1 & H2 & H3 & H4 & H5 & H6 & H7).
  change (at_ b 0) with (front b).
  rewrite H1, H2, H3, H4, H5, H6, H7.
  rewrite !andb_false_r. cbn [orb andb].
  assert (C1 : count_in multi (String.substring (String.length a - 2) 2 a ++ str1 (front b))
               = false).
  { match goal with |- ?x = false => destruct x eqn:E end; [|reflexivity].
    apply count_in_multi_punct in E. rewrite all_chars_app in E.
    apply andb_true_iff in E as [_ E]. simpl in E. rewrite Hp in E. discriminate. }
  assert (C2 : count_in multi (String (back a) (str1 (front b))) = false).
  { match goal with |- ?x = false => destruct x eqn:E end; [|reflexivity].
    apply count_in_multi_punct in E. simpl in E. rewrite Hp, andb_false_r in E. discriminate. }
  assert (C3 : count_in multi (String (back a) (String (front b) (str1 (at_ b 1)))) = false).
  { match goal with |- ?x = false => destruct x eqn:E end; [|reflexivity].
    apply count_in_multi_punct in E. simpl in E. rewrite Hp, andb_false_r in E. discriminate. }
  rewrite C1, C2, C3, !andb_false_r. reflexivity.
Qed.

Lemma needs_separator_false_before_quote_witness :
  is_quote (front (str1 DQ ++ "s" ++ str1 DQ)) = true /\
  needs_separator "u8" (str1 DQ ++ "s" ++ str1 DQ) = false.
Proof.
  split; [reflexivity|].
  apply (needs_separator_false_before_quote "u8" (str1 DQ ++ "s" ++ str1 DQ)). reflexivity.
Defined.

(** * Further properties of the tokenizer *)

(** ** One iteration of the loop *)

Lemma tokenize_blank (c : ascii) (r : string) :
  isspace c = true -> tokenize_minimal_cpp (String c r) = tokenize_minimal_cpp r.
Proof. unfold tokenize_minimal_cpp. cbn [String.length tokenize_loop]. now intros ->. Qed.

Lemma tokenize_token (c : ascii) (r : string) :
  isspace c = false ->
  tokenize_minimal_cpp (String c r)
  = take_str (token_len (String c r)) (String c r)
    :: tokenize_minimal_cpp (drop_str (token_len (String c r)) (String c r)).
Proof.
  intro Hc. unfold tokenize_minimal_cpp. cbn [String.length tokenize_loop]. rewrite Hc.
  cbv zeta. f_equal.
  pose proof (token_len_pos (String c r)) as Hp.
  pose proof (drop_str_length (token_len (String c r)) (String c r)) as Hd.
  simpl String.length in Hd.
  apply tokenize_loop_fuel; lia.
Qed.

Lemma take_str_app (a b : string) : take_str (String.length a) (a ++ b) = a.
Proof.
  unfold take_str. induction a as [|c a IH]; simpl.
  - now destruct b.
  - now rewrite IH.
Qed.

Lemma drop_str_app (a b : string) : drop_str (String.length a) (a ++ b) = b.
Proof. induction a as [|c a IH]; simpl; [reflexivity | exact IH]. Qed.

Lemma scan_while_app (p : ascii -> bool) (a b : string) :
  all_chars p a = true -> p (front b) = false ->
  scan_while p (a ++ b) = String.length a.
Proof.
  intros Ha Hb. induction a as [|c a IH]; simpl.
  - destruct b as [|d b]; [reflexivity|]. unfold front, at_ in Hb. simpl in Hb |- *.
    now rewrite Hb.
  - simpl in Ha. apply andb_true_iff in Ha as [Hc Ha]. now rewrite Hc, (IH Ha).
Qed.

(** ** Identifiers *)

Lemma ident_char_not_quote (c : ascii) : is_ident_char c = true -> is_quote c = false.
Proof.
  destruct c as [[] [] [] [] [] [] [] []]; vm_compute; intro; congruence.
Qed.

Lemma ident_start_char (c : ascii) : is_ident_start c = true -> is_ident_char c = true.
Proof.
  unfold is_ident_start, is_ident_char, isalnum. intro H.
  apply orb_true_iff in H as [H | H]; rewrite H; [reflexivity | apply orb_true_r].
Qed.

(** In an identifier followed by a character that is neither an
    identifier character nor a quote, no quote is reached through
    identifier characters. *)
Lemma ident_prefix_no_quote (t rest : string) :
  all_chars is_ident_char t = true ->
  is_ident_char (front rest) = false -> is_quote (front rest) = false ->
  forall i, (forall j, (j < i)%nat -> is_ident_char (at_ (t ++ rest) j) = true) ->
            is_quote (at_ (t ++ rest) i) = false.
Proof.
  induction t as [|c t IH]; intros Ht Hr Hq i Hi.
  - simpl. destruct i as [|i]; [exact Hq|].
    specialize (Hi 0%nat ltac:(lia)). simpl in Hi. unfold front in Hr. congruence.
  - simpl in Ht. apply andb_true_iff in Ht as [Hc Ht].
    destruct i as [|i].
    + change (at_ (String c t ++ rest) 0) with c. now apply ident_char_not_quote.
    + change (at_ (String c t ++ rest) (S i)) with (at_ (t ++ rest) i).
      apply IH; try assumption. intros j Hj. apply (Hi (S j)). lia.
Qed.

Lemma is_R_quote_true (s : string) (off : nat) :
  is_R_quote s off = true -> at_ s off = "R"%char /\ at_ s (off + 1) = DQ.
Proof.
  unfold is_R_quote. intro H. apply andb_true_iff in H as [H H2].
  apply andb_true_iff in H as [_ H1]. apply Ascii.eqb_eq in H1, H2. auto.
Qed.

Lemma is_quote_DQ (c : ascii) : is_quote c = false -> Ascii.eqb c DQ = false.
Proof. unfold is_quote. intro H. now apply orb_false_iff in H as [H _]. Qed.

Lemma is_quote_SQ (c : ascii) : is_quote c = false -> Ascii.eqb c SQ = false.
Proof. unfold is_quote. intro H. now apply orb_false_iff in H as [_ H]. Qed.

Lemma starts_with_u8 (s : string) : starts_with s "u8" = true -> at_ s 1 = "8"%char.
Proof.
  unfold starts_with. destruct s as [|a [|b r]]; cbn [String.prefix]; try discriminate.
  - destruct (Ascii.ascii_dec "u" a); discriminate.
  - destruct (Ascii.ascii_dec "u" a); [|discriminate].
    destruct (Ascii.ascii_dec "8" b); [|discriminate]. now subst b.
Qed.

Section NoQuoteAhead.

Variable s : string.
Hypothesis Hq1 : is_quote (at_ s 1) = false.
Hypothesis Hq2 : is_ident_char (at_ s 1) = true -> is_quote (at_ s 2) = false.
Hypothesis Hq3 : is_ident_char (at_ s 1) = true -> is_ident_char (at_ s 2) = true ->
                 is_quote (at_ s 3) = false.

Lemma no_quote_is_R_quote_0 : is_R_quote s 0 = false.
Proof.
  destruct (is_R_quote s 0) eqn:E; [|reflexivity].
  apply is_R_quote_true in E as [_ E]. change (0 + 1)%nat with 1%nat in E.
  rewrite E in Hq1. discriminate.
Qed.

Lemma no_quote_is_R_quote_1 : is_R_quote s 1 = false.
Proof.
  destruct (is_R_quote s 1) eqn:E; [|reflexivity].
  apply is_R_quote_true in E as [E1 E2]. change (1 + 1)%nat with 2%nat in E2.
  rewrite E1, E2 in Hq2. specialize (Hq2 eq_refl). discriminate.
Qed.

Lemma no_quote_u8R : starts_with s "u8" && is_R_quote s 2 = false.
Proof.
  destruct (starts_with s "u8" && is_R_quote s 2) eqn:E; [|reflexivity].
  apply andb_true_iff in E as [Ep E]. apply is_R_quote_true in E as [E1 E2].
  change (2 + 1)%nat with 3%nat in E2.
  pose proof (starts_with_u8 s Ep) as E8.
  rewrite E8, E1, E2 in Hq3. specialize (Hq3 eq_refl eq_refl). discriminate.
Qed.

Lemma no_quote_parse_prefixed_raw : parse_prefixed_raw s = None.
Proof.
  unfold parse_prefixed_raw. rewrite no_quote_u8R, no_quote_is_R_quote_1.
  rewrite !andb_false_r. reflexivity.
Qed.

Lemma no_quote_parse_raw_string : parse_raw_string s = None.
Proof. unfold parse_raw_string. now rewrite no_quote_is_R_quote_0. Qed.

Lemma no_quote_tok_string : Ascii.eqb (at_ s 0) DQ = false -> tok_string s = None.
Proof.
  intro H0. unfold tok_string. cbv zeta.
  pose proof (is_quote_DQ _ Hq1) as D1.
  destruct (Ascii.eqb (at_ s 0) "u" && (1 <? String.length s)%nat && Ascii.eqb (at_ s 1) "8")
    eqn:E8.
  - apply andb_true_iff in E8 as [_ E8]. apply Ascii.eqb_eq in E8.
    assert (I1 : is_ident_char (at_ s 1) = true) by (rewrite E8; reflexivity).
    pose proof (is_quote_DQ _ (Hq2 I1)) as D2.
    destruct (is_uUL (at_ s 2) && (2 + 1 <? String.length s)%nat
              && Ascii.eqb (at_ s (2 + 1)) DQ) eqn:EU.
    + exfalso. apply andb_true_iff in EU as [EU E3]. apply andb_true_iff in EU as [EU _].
      assert (I2 : is_ident_char (at_ s 2) = true).
      { unfold is_uUL in EU. apply orb_true_iff in EU as [EU | EU];
          [apply orb_true_iff in EU as [EU | EU]|];
          apply Ascii.eqb_eq in EU; rewrite EU; reflexivity. }
      pose proof (is_quote_DQ _ (Hq3 I1 I2)) as D3.
      change (2 + 1)%nat with 3%nat in E3. congruence.
    + now rewrite D2.
  - destruct (is_uUL (at_ s 0) && (0 + 1 <? String.length s)%nat
              && Ascii.eqb (at_ s (0 + 1)) DQ) eqn:EU.
    + exfalso. apply andb_true_iff in EU as [_ E1]. change (0 + 1)%nat with 1%nat in E1.
      congruence.
    + now rewrite H0.
Qed.

Lemma no_quote_tok_char : Ascii.eqb (at_ s 0) SQ = false -> tok_char s = None.
Proof.
  intro H0. unfold tok_char. cbv zeta.
  rewrite (is_quote_SQ _ Hq1), andb_false_r. now rewrite H0.
Qed.

(** With no quote ahead, the iteration falls through to the identifier,
    number and punctuator cases. *)
Lemma no_quote_token_len :
  is_quote (at_ s 0) = false ->
  token_len s
  = if is_ident_start (at_ s 0) then S (scan_while is_ident_char (drop_str 1 s))
    else if isdigit (at_ s 0) then S (scan_while number_char (drop_str 1 s))
         else match match_from s PUNCTS with Some m => m | None => 1%nat end.
Proof.
  intro H0. unfold token_len. cbv zeta.
  rewrite no_quote_parse_prefixed_raw, no_quote_parse_raw_string.
  rewrite (no_quote_tok_string (is_quote_DQ _ H0)), (no_quote_tok_char (is_quote_SQ _ H0)).
  repeat match goal with |- context [if ?b then _ else _] =>
    lazymatch b with
    | is_ident_start _ => fail
    | isdigit _ => fail
    | _ => destruct b
    end end; reflexivity.
Qed.

End NoQuoteAhead.

Lemma all_ident_chars_at (t rest : string) (j : nat) :
  all_chars is_ident_char t = true -> (j < String.length t)%nat ->
  is_ident_char (at_ (t ++ rest) j) = true.
Proof.
  revert j. induction t as [|c t IH]; intros j Ht Hj; [simpl in Hj; lia|].
  simpl in Ht. apply andb_true_iff in Ht as [Hc Ht].
  destruct j as [|j]; [exact Hc|].
  change (at_ (String c t ++ rest) (S j)) with (at_ (t ++ rest) j).
  apply IH; [exact Ht | simpl in Hj; lia].
Qed.

(** An identifier is read in one piece up to the first character that
    is not an identifier character. *)
Lemma token_len_identifier (t rest : string) :
  is_identifier t = true ->
  is_ident_char (front rest) = false -> is_quote (front rest) = false ->
  token_len (t ++ rest) = String.length t.
Proof.
  intros Ht Hr Hq. destruct t as [|c r]; [discriminate Ht|].
  simpl in Ht. apply andb_true_iff in Ht as [Hc Hall].
  assert (Hall' : all_chars is_ident_char (String c r) = true)
    by (simpl; now rewrite (ident_start_char c Hc), Hall).
  pose proof (ident_prefix_no_quote (String c r) rest Hall' Hr Hq) as Hnq.
  rewrite no_quote_token_len.
  - change (at_ (String c r ++ rest) 0) with c. rewrite Hc.
    change (drop_str 1 (String c r ++ rest)) with (r ++ rest).
    now rewrite scan_while_app.
  - apply Hnq. intros j Hj. assert (j = 0%nat) as -> by lia.
    change (at_ (String c r ++ rest) 0) with c. now apply ident_start_char.
  - intro I1. apply Hnq. intros j Hj.
    assert (j = 0%nat \/ j = 1%nat) as [-> | ->] by lia; [|exact I1].
    change (at_ (String c r ++ rest) 0) with c. now apply ident_start_char.
  - intros I1 I2. apply Hnq. intros j Hj.
    assert (j = 0%nat \/ j = 1%nat \/ j = 2%nat) as [-> | [-> | ->]] by lia;
      [|exact I1 | exact I2].
    change (at_ (String c r ++ rest) 0) with c. now apply ident_start_char.
  - apply Hnq. intros j Hj. lia.
Qed.

Lemma ident_start_not_space (c : ascii) : is_ident_start c = true -> isspace c = false.
Proof.
  destruct c as [[] [] [] [] [] [] [] []]; vm_compute; intro; congruence.
Qed.

Lemma tokenize_identifier (t rest : string) :
  is_identifier t = true ->
  is_ident_char (front rest) = false -> is_quote (front rest) = false ->
  tokenize_minimal_cpp (t ++ rest) = t :: tokenize_minimal_cpp rest.
Proof.
  intros Ht Hr Hq.
  pose proof (token_len_identifier t rest Ht Hr Hq) as Hl.
  destruct t as [|c r]; [discriminate Ht|].
  assert (Hc : isspace c = false).
  { apply ident_start_not_space. simpl in Ht. now apply andb_true_iff in Ht as [Hc _]. }
  change (String c r ++ rest) with (String c (r ++ rest)) in *.
  rewrite (tokenize_token c (r ++ rest) Hc), Hl.
  change (String c (r ++ rest)) with (String c r ++ rest).
  now rewrite take_str_app, drop_str_app.
Qed.

(** X4: an identifier is read as one token: the tokens of a text that
    begins with an identifier, followed by a character that is neither an
    identifier character nor a quote (or by nothing), are the identifier and
    then the tokens of what follows. *)
Theorem tokenize_identifier_first (t rest : string) :
  is_identifier t = true ->
  is_ident_char (front rest) = false -> is_quote (front rest) = false ->
  tokenize_minimal_cpp (t ++ rest) = t :: tokenize_minimal_cpp rest.
Proof. apply tokenize_identifier. Qed.

Lemma tokenize_identifier_first_witness :
  is_identifier "u8" = true /\ is_ident_char (front "+x") = false /\
  is_quote (front "+x") = false /\
  tokenize_minimal_cpp ("u8" ++ "+x") = "u8" :: tokenize_minimal_cpp "+x".
Proof.
  repeat (split; [reflexivity|]).
  apply (tokenize_identifier_first "u8" "+x"); reflexivity.
Defined.

Lemma all_chars_back (p : ascii -> bool) (s : string) :
  all_chars p s = true -> s <> EmptyString -> p (back s) = true.
Proof.
  induction s as [|c s IH]; [contradiction|]. intros Hs _.
  simpl in Hs. apply andb_true_iff in Hs as [Hc Hs].
  destruct s as [|d s]; [exact Hc|].
  unfold back in *.
  replace (String.length (String c (String d s)) - 1)%nat
    with (S (String.length (String d s) - 1)) by (simpl; lia).
  rewrite at_S. apply IH; [exact Hs | discriminate].
Qed.

Lemma identifier_nonempty (t : string) : is_identifier t = true -> t <> EmptyString.
Proof. destruct t; [discriminate | discriminate]. Qed.

Lemma identifier_back (t : string) : is_identifier t = true -> word_class (back t) = true.
Proof.
  intro Ht. rewrite <- is_alnum_word_class.
  change (is_alnum_ (back t)) with (is_ident_char (back t)).
  apply all_chars_back; [|now apply identifier_nonempty].
  destruct t as [|c r]; [discriminate|]. simpl in Ht |- *.
  apply andb_true_iff in Ht as [Hc Hr]. now rewrite (ident_start_char c Hc), Hr.
Qed.

Lemma identifier_front (t : string) : is_identifier t = true -> word_class (front t) = true.
Proof.
  intro Ht. rewrite <- is_alnum_word_class.
  change (is_alnum_ (front t)) with (is_ident_char (front t)).
  destruct t as [|c r]; [discriminate|]. simpl in Ht.
  apply andb_true_iff in Ht as [Hc _]. now apply ident_start_char.
Qed.

(** After an identifier, the joined identifiers start with the
    separator, and the tokenizer gives them back. *)
Lemma join_loop_identifiers (ids : list string) :
  Forall (fun t => is_identifier t = true) ids ->
  forall prev, is_identifier prev = true ->
    tokenize_minimal_cpp (join_loop prev ids) = ids /\
    is_ident_char (front (join_loop prev ids)) = false /\
    is_quote (front (join_loop prev ids)) = false.
Proof.
  induction 1 as [|t rest Ht _ IH]; intros prev Hprev.
  - repeat split; reflexivity.
  - cbn [join_loop].
    rewrite (str_length_nonzero prev (identifier_nonempty prev Hprev)).
    rewrite (hazard_class1 prev t (identifier_nonempty prev Hprev) (identifier_nonempty t Ht)
               (identifier_back prev Hprev) (identifier_front t Ht)).
    cbn [negb andb]. unfold minimal_separator.
    change (" " ++ t ++ join_loop t rest) with (String " " (t ++ join_loop t rest)).
    split; [|split; reflexivity].
    rewrite tokenize_blank by reflexivity.
    destruct (IH t Ht) as (E & F1 & F2).
    now rewrite (tokenize_identifier t _ Ht F1 F2), E.
Qed.

(** X5: identifiers survive the round trip: joining a list of
    identifiers with [join_tokens_min_sep] and tokenizing the joined text
    gives the list back. *)
Theorem join_then_tokenize_identifiers (ids : list string) :
  Forall (fun t => is_identifier t = true) ids ->
  tokenize_minimal_cpp (join_tokens_min_sep ids) = ids.
Proof.
  intro Hids. unfold join_tokens_min_sep.
  destruct Hids as [|t rest Ht Hrest]; [reflexivity|].
  cbn [join_loop String.length Nat.eqb negb andb].
  change (EmptyString ++ t ++ join_loop t rest) with (t ++ join_loop t rest).
  destruct (join_loop_identifiers rest Hrest t Ht) as (E & F1 & F2).
  now rewrite (tokenize_identifier t _ Ht F1 F2), E.
Qed.

Lemma join_then_tokenize_identifiers_witness :
  Forall (fun t => is_identifier t = true) ["unsigned"; "long"; "u8"; "_x1"] /\
  tokenize_minimal_cpp (join_tokens_min_sep ["unsigned"; "long"; "u8"; "_x1"])
  = ["unsigned"; "long"; "u8"; "_x1"].
Proof.
  assert (H : Forall (fun t => is_identifier t = true) ["unsigned"; "long"; "u8"; "_x1"])
    by (repeat constructor).
  split; [exact H|].
  exact (join_then_tokenize_identifiers ["unsigned"; "long"; "u8"; "_x1"] H).
Defined.

(** ** The tokens are pieces of the text *)

Lemma take_drop_str (k : nat) (s : string) : take_str k s ++ drop_str k s = s.
Proof.
  revert s. induction k as [|k IH]; intro s.
  - now rewrite take_str_0.
  - destruct s as [|c s]; [reflexivity|]. rewrite take_str_S. simpl. now rewrite IH.
Qed.

Lemma pieces_blank (c : ascii) (s : string) (toks : list string) :
  isspace c = true -> pieces s toks -> pieces (String c s) toks.
Proof.
  intros Hc Hp. destruct Hp as [gap Hg | gap t rest toks Hg Hp].
  - apply pieces_end. simpl. now rewrite Hc, Hg.
  - change (String c (gap ++ t ++ rest)) with (String c gap ++ t ++ rest).
    apply pieces_token; [|exact Hp]. simpl. now rewrite Hc, Hg.
Qed.

Lemma tokenize_pieces (k : nat) :
  forall code, (String.length code <= k)%nat ->
    pieces code (tokenize_minimal_cpp code) /\
    Forall (fun t => t <> EmptyString /\ isspace (front t) = false) (tokenize_minimal_cpp code).
Proof.
  induction k as [|k IH]; intros code Hk.
  - destruct code; [|simpl in Hk; lia]. split; [now apply pieces_end | constructor].
  - destruct code as [|c r]; [split; [now apply pieces_end | constructor]|].
    simpl in Hk. destruct (isspace c) eqn:Hc.
    + rewrite (tokenize_blank c r Hc). destruct (IH r ltac:(lia)) as [Hp Hf].
      split; [now apply pieces_blank | exact Hf].
    + rewrite (tokenize_token c r Hc).
      pose proof (token_len_pos (String c r)) as Hl.
      pose proof (drop_str_length (token_len (String c r)) (String c r)) as Hd.
      simpl String.length in Hd.
      destruct (IH (drop_str (token_len (String c r)) (String c r)) ltac:(lia)) as [Hp Hf].
      split.
      * rewrite <- (take_drop_str (token_len (String c r)) (String c r)) at 1.
        apply (pieces_token EmptyString); [reflexivity | exact Hp].
      * constructor; [|exact Hf].
        destruct (token_len (String c r)) as [|l]; [lia|].
        rewrite take_str_S. split; [discriminate | exact Hc].
Qed.

Lemma pieces_blank_text (code : string) (toks : list string) :
  pieces code toks -> all_chars isspace code = true ->
  Forall (fun t => t <> EmptyString /\ isspace (front t) = false) toks -> toks = [].
Proof.
  intros Hp Hall Hf. destruct Hp as [gap Hg | gap t rest toks Hg Hp]; [reflexivity|].
  exfalso. inversion Hf as [|t' toks' [Hne Hfront] _]; subst.
  rewrite !all_chars_app in Hall. apply andb_true_iff in Hall as [_ Hall].
  apply andb_true_iff in Hall as [Hall _].
  destruct t as [|c t]; [contradiction|]. simpl in Hall.
  apply andb_true_iff in Hall as [Hc _]. unfold front, at_ in Hfront. simpl in Hfront.
  congruence.
Qed.

(** X6: the tokenizer loses nothing but white space between tokens: the
    text is its tokens in order, with white space only in front of each
    token and after the last; every token is non-empty and begins with a
    character that is not white space; and there is no token at all exactly
    when the whole text is white space. *)
Theorem tokenize_pieces_of_text (code : string) :
  pieces code (tokenize_minimal_cpp code) /\
  Forall (fun t => t <> EmptyString /\ isspace (front t) = false) (tokenize_minimal_cpp code) /\
  (tokenize_minimal_cpp code = [] <-> all_chars isspace code = true).
Proof.
  destruct (tokenize_pieces (String.length code) code (le_n _)) as [Hp Hf].
  split; [exact Hp|]. split; [exact Hf|]. split.
  - intro E. rewrite E in Hp. now inversion Hp.
  - intro Hall. now apply (pieces_blank_text code).
Qed.

(** ** String and character literals *)

Lemma scan_quoted_body (q : ascii) (k : nat) :
  Ascii.eqb q BSL = false ->
  forall body, (String.length body <= k)%nat -> escaped_body q body = true ->
    (forall rest, scan_quoted q false (body ++ String q rest) = S (String.length body)) /\
    scan_quoted q false body = String.length body.
Proof.
  intro Hq. induction k as [|k IH]; intros body Hk Hb.
  - destruct body; [|simpl in Hk; lia]. split; [intro rest|reflexivity].
    simpl. now rewrite Hq, Ascii.eqb_refl.
  - destruct body as [|c r].
    { split; [intro rest|reflexivity]. simpl. now rewrite Hq, Ascii.eqb_refl. }
    simpl in Hk. cbn [escaped_body] in Hb.
    destruct (Ascii.eqb c BSL) eqn:Ec.
    + destruct r as [|x r']; [discriminate Hb|]. simpl in Hk.
      destruct (IH r' ltac:(lia) Hb) as [H1 H2].
      split; [intro rest|]; cbn [String.append scan_quoted String.length]; rewrite Ec.
      * change (String x r' ++ String q rest) with (String x (r' ++ String q rest)).
        cbn [scan_quoted]. now rewrite H1.
      * cbn [scan_quoted]. now rewrite H2.
    + apply andb_true_iff in Hb as [Hcq Hb]. apply negb_true_iff in Hcq.
      destruct (IH r ltac:(lia) Hb) as [H1 H2].
      split; [intro rest|]; cbn [String.append scan_quoted String.length]; rewrite Ec, Hcq.
      * now rewrite H1.
      * now rewrite H2.
Qed.

Lemma is_R_quote_not_R (s : string) (off : nat) :
  Ascii.eqb (at_ s off) "R" = false -> is_R_quote s off = false.
Proof. unfold is_R_quote. intros ->. now rewrite andb_false_r. Qed.

Lemma starts_with_cons (c p : ascii) (x y : string) :
  starts_with (String c x) (String p y) = Ascii.eqb p c && starts_with x y.
Proof.
  unfold starts_with. cbn [String.prefix].
  destruct (Ascii.ascii_dec p c) as [E | E].
  - subst. now rewrite Ascii.eqb_refl.
  - apply Ascii.eqb_neq in E. now rewrite E.
Qed.

Lemma parse_prefixed_raw_none (s : string) :
  starts_with s "u8" && is_R_quote s 2 = false ->
  (starts_with s "u" || starts_with s "U" || starts_with s "L") && is_R_quote s 1 = false ->
  parse_prefixed_raw s = None.
Proof.
  unfold parse_prefixed_raw. intros -> H.
  destruct (is_R_quote s 1); [|now rewrite !andb_false_r].
  rewrite andb_true_r in H. apply orb_false_iff in H as [H ->].
  apply orb_false_iff in H as [-> ->]. reflexivity.
Qed.

(** The two raw-string tests fail on a text whose first characters are
    known not to open a raw string. *)
Ltac no_prefixed_raw :=
  apply parse_prefixed_raw_none; rewrite ?starts_with_cons;
  cbn [Ascii.eqb Bool.eqb andb orb starts_with String.prefix];
  try reflexivity;
  rewrite is_R_quote_not_R by reflexivity; rewrite ?andb_false_r; reflexivity.

Ltac literal_simpl :=
  cbn [at_ String.get String.length Nat.ltb Nat.leb Ascii.eqb Bool.eqb andb orb negb is_uUL
       drop_str Nat.add String.append DQ SQ BSL].

Ltac literal_token_len s :=
  let Hp := fresh "Hp" in
  let Hr := fresh "Hr" in
  assert (Hp : parse_prefixed_raw s = None) by no_prefixed_raw;
  assert (Hr : parse_raw_string s = None)
    by (unfold parse_raw_string; now rewrite is_R_quote_not_R);
  unfold token_len; rewrite Hp, Hr; cbv zeta; unfold tok_string, tok_char;
  literal_simpl; reflexivity.

Lemma token_len_string_literal (pfx X : string) :
  In pfx string_prefixes ->
  token_len (pfx ++ String DQ X) = (String.length pfx + 1 + scan_quoted DQ false X)%nat.
Proof.
  intro H. simpl in H.
  destruct H as [<- | [<- | [<- | [<- | [<- | []]]]]]; literal_simpl.
  - literal_token_len (String DQ X).
  - literal_token_len (String "u" (String "8" (String DQ X))).
  - literal_token_len (String "u" (String DQ X)).
  - literal_token_len (String "U" (String DQ X)).
  - literal_token_len (String "L" (String DQ X)).
Qed.

Lemma token_len_char_literal (pfx X : string) :
  In pfx char_prefixes ->
  token_len (pfx ++ String SQ X) = (String.length pfx + 1 + scan_quoted SQ false X)%nat.
Proof.
  intro H. simpl in H.
  destruct H as [<- | [<- | [<- | [<- | []]]]]; literal_simpl.
  - literal_token_len (String SQ X).
  - literal_token_len (String "u" (String SQ X)).
  - literal_token_len (String "U" (String SQ X)).
  - literal_token_len (String "L" (String SQ X)).
Qed.

Lemma tokenize_first (s : string) :
  s <> EmptyString -> isspace (front s) = false ->
  tokenize_minimal_cpp s
  = take_str (token_len s) s :: tokenize_minimal_cpp (drop_str (token_len s) s).
Proof.
  destruct s as [|c r]; [contradiction|]. intros _ Hc. now apply tokenize_token.
Qed.

Lemma front_app (a b : string) : a <> EmptyString -> front (a ++ b) = front a.
Proof. destruct a; [contradiction | reflexivity]. Qed.

Lemma literal_assoc (q : ascii) (pfx body rest : string) :
  pfx ++ String q (body ++ String q rest) = (pfx ++ String q (body ++ str1 q)) ++ rest.
Proof.
  rewrite str_app_assoc. f_equal. cbn [String.append]. f_equal.
  now rewrite str_app_assoc.
Qed.

Lemma literal_length (q : ascii) (pfx body : string) :
  String.length (pfx ++ String q (body ++ str1 q))
  = (String.length pfx + 1 + S (String.length body))%nat.
Proof. rewrite str_app_length. cbn [String.length]. rewrite str_app_length. simpl. lia. Qed.

(** A quoted literal is one token, and an unterminated one runs to the
    end of the text. *)
Lemma tokenize_literal (q : ascii) (pfx body rest : string) :
  (forall X, token_len (pfx ++ String q X)
             = (String.length pfx + 1 + scan_quoted q false X)%nat) ->
  Ascii.eqb q BSL = false ->
  isspace (front (pfx ++ str1 q)) = false ->
  escaped_body q body = true ->
  tokenize_minimal_cpp (pfx ++ String q (body ++ String q rest))
  = (pfx ++ String q (body ++ str1 q)) :: tokenize_minimal_cpp rest /\
  tokenize_minimal_cpp (pfx ++ String q body) = [pfx ++ String q body].
Proof.
  intros Hlen Hq Hsp Hb.
  destruct (scan_quoted_body q (String.length body) Hq body (le_n _) Hb) as [H1 H2].
  assert (Hfront : forall X, isspace (front (pfx ++ String q X)) = false).
  { intro X. destruct pfx; exact Hsp. }
  assert (Hne : forall X, pfx ++ String q X <> EmptyString)
    by (intro X; destruct pfx; discriminate).
  split.
  - rewrite (tokenize_first _ (Hne _) (Hfront _)), Hlen, H1.
    rewrite literal_assoc, <- (literal_length q).
    now rewrite take_str_app, drop_str_app.
  - rewrite (tokenize_first _ (Hne _) (Hfront _)), Hlen, H2.
    replace (String.length pfx + 1 + String.length body)%nat
      with (String.length (pfx ++ String q body))
      by (rewrite str_app_length; simpl; lia).
    rewrite <- (str_app_nil_r (pfx ++ String q body)) at 2 4.
    now rewrite take_str_app, drop_str_app.
Qed.

(** X7: a string literal is one token.  With one of the prefixes (none,
    [u8], [u], [U], [L]) and a body made of ordinary characters and
    backslash escapes, the text up to the closing quote is the first token
    and tokenizing goes on behind it; comment marks and white space in the
    body do not matter.  Without a closing quote the literal takes the rest
    of the text. *)
Theorem tokenize_string_literal (pfx body rest : string) :
  In pfx string_prefixes -> escaped_body DQ body = true ->
  tokenize_minimal_cpp (pfx ++ String DQ (body ++ String DQ rest))
  = (pfx ++ String DQ (body ++ str1 DQ)) :: tokenize_minimal_cpp rest /\
  tokenize_minimal_cpp (pfx ++ String DQ body) = [pfx ++ String DQ body].
Proof.
  intros Hp Hb. apply tokenize_literal; try assumption; try reflexivity.
  - intro X. now apply token_len_string_literal.
  - simpl in Hp. destruct Hp as [<- | [<- | [<- | [<- | [<- | []]]]]]; reflexivity.
Qed.

Lemma tokenize_string_literal_witness :
  In "u8" string_prefixes /\ escaped_body DQ ("/* a\" ++ str1 DQ ++ " */") = true /\
  tokenize_minimal_cpp ("u8" ++ String DQ (("/* a\" ++ str1 DQ ++ " */") ++ String DQ ";x"))
  = ("u8" ++ String DQ (("/* a\" ++ str1 DQ ++ " */") ++ str1 DQ)) :: tokenize_minimal_cpp ";x".
Proof.
  assert (Hp : In "u8" string_prefixes) by (simpl; tauto).
  assert (Hb : escaped_body DQ ("/* a\" ++ str1 DQ ++ " */") = true) by reflexivity.
  split; [exact Hp|]. split; [exact Hb|].
  exact (proj1 (tokenize_string_literal "u8" ("/* a\" ++ str1 DQ ++ " */") ";x" Hp Hb)).
Defined.

(** X8: a character literal is one token, with the prefixes none, [u],
    [U] and [L], in the same way as a string literal; without a closing
    quote it takes the rest of the text. *)
Theorem tokenize_char_literal (pfx body rest : string) :
  In pfx char_prefixes -> escaped_body SQ body = true ->
  tokenize_minimal_cpp (pfx ++ String SQ (body ++ String SQ rest))
  = (pfx ++ String SQ (body ++ str1 SQ)) :: tokenize_minimal_cpp rest /\
  tokenize_minimal_cpp (pfx ++ String SQ body) = [pfx ++ String SQ body].
Proof.
  intros Hp Hb. apply tokenize_literal; try assumption; try reflexivity.
  - intro X. now apply token_len_char_literal.
  - simpl in Hp. destruct Hp as [<- | [<- | [<- | [<- | []]]]]; reflexivity.
Qed.

Lemma tokenize_char_literal_witness :
  In "L" char_prefixes /\ escaped_body SQ "\'" = true /\
  tokenize_minimal_cpp ("L" ++ String SQ ("\'" ++ String SQ "+1"))
  = ("L" ++ String SQ ("\'" ++ str1 SQ)) :: tokenize_minimal_cpp "+1".
Proof.
  assert (Hp : In "L" char_prefixes) by (simpl; tauto).
  assert (Hb : escaped_body SQ "\'" = true) by reflexivity.
  split; [exact Hp|]. split; [exact Hb|].
  exact (proj1 (tokenize_char_literal "L" "\'" "+1" Hp Hb)).
Defined.

(** ** Numbers *)

Lemma digit_facts (c : ascii) :
  isdigit c = true ->
  (Ascii.eqb "u" c = false /\ Ascii.eqb "U" c = false /\ Ascii.eqb "L" c = false) /\
  (Ascii.eqb c "R" = false /\ Ascii.eqb c "u" = false /\ Ascii.eqb c "U" = false /\
   Ascii.eqb c "L" = false /\ is_uUL c = false) /\
  (Ascii.eqb c DQ = false /\ Ascii.eqb c SQ = false) /\
  is_ident_start c = false /\ isspace c = false.
Proof.
  destruct c as [[] [] [] [] [] [] [] []]; vm_compute; intro H;
    try discriminate H; repeat split; reflexivity.
Qed.

(** At a digit the iteration falls through to the number case. *)
Lemma token_len_digit (c : ascii) (r : string) :
  isdigit c = true -> token_len (String c r) = S (scan_while number_char r).
Proof.
  intro Hc.
  destruct (digit_facts c Hc)
    as ((Pu & PU & PL) & (CR & Cu & CU & CL & Cp) & (CD & CS) & Hi & _).
  assert (Hp : parse_prefixed_raw (String c r) = None).
  { apply parse_prefixed_raw_none; rewrite ?starts_with_cons, ?Pu, ?PU, ?PL; reflexivity. }
  assert (Hr : parse_raw_string (String c r) = None).
  { unfold parse_raw_string. rewrite is_R_quote_not_R; [reflexivity | exact CR]. }
  unfold token_len. rewrite Hp, Hr. cbv zeta.
  change (at_ (String c r) 0) with c.
  rewrite CD, CS, Cu, CU, CL, Cp, Hi, Hc. cbn [andb orb].
  change (drop_str 1 (String c r)) with r. reflexivity.
Qed.

(** X9: a number is read as one token that runs as far as letters, digits,
    dots, underscores and single quotes go: the tokens of a text that begins
    with a digit followed by such characters, and then by a character of
    another kind (or by nothing), are that number and then the tokens of
    what follows.  A sign is of another kind, so the exponent of [1e+5]
    begins a new token. *)
Theorem tokenize_number_first (t rest : string) :
  is_number t = true -> number_char (front rest) = false ->
  tokenize_minimal_cpp (t ++ rest) = t :: tokenize_minimal_cpp rest.
Proof.
  intros Ht Hr. destruct t as [|c r]; [discriminate Ht|].
  simpl in Ht. apply andb_true_iff in Ht as [Hc Hall].
  change (String c r ++ rest) with (String c (r ++ rest)).
  rewrite (tokenize_token c (r ++ rest)) by apply (digit_facts c Hc).
  rewrite (token_len_digit c (r ++ rest) Hc), (scan_while_app number_char r rest Hall Hr).
  change (String c (r ++ rest)) with (String c r ++ rest).
  change (S (String.length r)) with (String.length (String c r)).
  now rewrite take_str_app, drop_str_app.
Qed.

Lemma tokenize_number_first_witness :
  is_number "1e" = true /\ number_char (front "+5;") = false /\
  tokenize_minimal_cpp ("1e" ++ "+5;") = "1e" :: tokenize_minimal_cpp "+5;".
Proof.
  repeat (split; [reflexivity|]).
  apply (tokenize_number_first "1e" "+5;"); reflexivity.
Defined.

(** ** Raw strings *)

Lemma string_eqb_cons (a x : ascii) (u w : string) :
  String.eqb (String a u) (String x w) = Ascii.eqb a x && String.eqb u w.
Proof. simpl. destruct (Ascii.eqb a x); reflexivity. Qed.

Lemma prefix_cons (x a : ascii) (p s : string) :
  String.prefix (String x p) (String a s) = Ascii.eqb x a && String.prefix p s.
Proof. exact (starts_with_cons a x s p). Qed.

Lemma prefix_nil (s : string) : String.prefix EmptyString s = true.
Proof. now destruct s. Qed.

Lemma prefix_app (p s : string) : String.prefix p (p ++ s) = true.
Proof.
  induction p as [|x p IH]; [apply prefix_nil|].
  cbn [String.append]. now rewrite prefix_cons, Ascii.eqb_refl.
Qed.

(** The test made by the search for the closing sequence, read as the
    occurrence of the closing sequence. *)
Lemma closer_test (d : string) :
  forall s',
    (String.length d <? String.length s')%nat
    && String.eqb (String.substring 0 (String.length d) s') d
    && Ascii.eqb (at_ s' (String.length d)) DQ
    = String.prefix (d ++ str1 DQ) s'.
Proof.
  induction d as [|x d IH]; intro s'.
  - destruct s' as [|a s']; [reflexivity|].
    cbn [String.append]. unfold str1. rewrite prefix_cons.
    cbn [String.length Nat.ltb Nat.leb String.substring at_ String.get String.prefix
         String.eqb andb].
    rewrite prefix_nil.
    rewrite andb_true_r. apply Ascii.eqb_sym.
  - destruct s' as [|a s']; [reflexivity|].
    cbn [String.append]. rewrite prefix_cons, <- IH.
    cbn [String.length String.substring]. rewrite string_eqb_cons, at_S.
    change (S (String.length d) <? S (String.length s'))%nat
      with (String.length d <? String.length s')%nat.
    rewrite (Ascii.eqb_sym a x).
    destruct (Ascii.eqb x a), (String.length d <? String.length s')%nat; reflexivity.
Qed.

Lemma find_close_step (d : string) (c : ascii) (s' : string) :
  find_close d (String c s')
  = if String.prefix (raw_closer d) (String c s') then (2 + String.length d)%nat
    else S (find_close d s').
Proof.
  unfold raw_closer. cbn [String.append find_close]. rewrite prefix_cons, <- closer_test.
  rewrite (Ascii.eqb_sym ")" c), !andb_assoc. reflexivity.
Qed.

Lemma find_close_first (d : string) (k : nat) :
  forall s, absent_before (raw_closer d) s k ->
            String.prefix (raw_closer d) (drop_str k s) = true ->
            find_close d s = (k + (2 + String.length d))%nat.
Proof.
  induction k as [|k IH]; intros s Habs Hat.
  - destruct s as [|c s']; [discriminate Hat|]. rewrite find_close_step.
    cbn [drop_str] in Hat. now rewrite Hat.
  - destruct s as [|c s']; [discriminate Hat|]. rewrite find_close_step.
    pose proof (Habs 0%nat ltac:(lia)) as H0. cbn [drop_str] in H0. rewrite H0.
    cbn [drop_str] in Hat.
    rewrite (IH s'); [lia | | exact Hat].
    intros i Hi. exact (Habs (S i) ltac:(lia)).
Qed.

Lemma find_close_none (d s : string) :
  (forall i, String.prefix (raw_closer d) (drop_str i s) = false) ->
  find_close d s = String.length s.
Proof.
  induction s as [|c s' IH]; intro Habs; [reflexivity|].
  pose proof (Habs 0%nat) as H0. cbn [drop_str] in H0.
  rewrite find_close_step, H0. cbn [String.length]. f_equal.
  apply IH. intro i. exact (Habs (S i)).
Qed.

Lemma parse_raw_string_opener (d X : string) :
  delim_ok d = true -> (String.length d <= 17)%nat ->
  parse_raw_string (opener_text d X)
  = Some (2 + String.length d + 1 + find_close d X)%nat.
Proof.
  intros Hok Hlen. unfold parse_raw_string, opener_text.
  change (is_R_quote ("R" ++ str1 DQ ++ d ++ "(" ++ X) 0)
    with ((0 + 1 <? S (S (String.length (d ++ "(" ++ X))))%nat && true && true).
  replace (0 + 1 <? S (S (String.length (d ++ "(" ++ X))))%nat with true
    by (symmetry; apply Nat.ltb_lt; lia).
  cbn [andb negb].
  change (drop_str 2 ("R" ++ str1 DQ ++ d ++ "(" ++ X)) with (d ++ String "(" X).
  rewrite (raw_delim_loop_accepts d Hok EmptyString X) by (simpl; lia).
  reflexivity.
Qed.

Lemma token_len_raw_string (d X : string) :
  delim_ok d = true -> (String.length d <= 17)%nat ->
  token_len (opener_text d X) = (2 + String.length d + 1 + find_close d X)%nat.
Proof.
  intros Hok Hlen. unfold token_len. cbv zeta.
  rewrite (parse_raw_string_opener d X Hok Hlen).
  assert (Hp : parse_prefixed_raw (opener_text d X) = None).
  { unfold opener_text. cbn [String.append]. no_prefixed_raw. }
  now rewrite Hp.
Qed.

Lemma opener_length (d X : string) :
  String.length (opener_text d X) = (2 + String.length d + 1 + String.length X)%nat.
Proof.
  unfold opener_text, str1. cbn [String.append String.length]. rewrite str_app_length.
  simpl. lia.
Qed.

Lemma opener_assoc (d X rest : string) : opener_text d (X ++ rest) = opener_text d X ++ rest.
Proof.
  unfold opener_text, str1. cbn [String.append]. do 2 f_equal.
  rewrite !str_app_assoc. cbn [String.append]. reflexivity.
Qed.

(** X10: a raw string is one token.  For a delimiter of at most 17
    characters none of which stops the delimiter loop, the raw string runs
    to the first occurrence of its closing sequence (right parenthesis,
    delimiter, double quote), whatever the body holds, and tokenizing goes on
    behind it; when the closing sequence does not occur, the raw string takes
    the rest of the text. *)
Theorem tokenize_raw_string (d body rest : string) :
  delim_ok d = true -> (String.length d <= 17)%nat ->
  (absent_before (raw_closer d) (body ++ raw_closer d ++ rest) (String.length body) ->
   tokenize_minimal_cpp (opener_text d (body ++ raw_closer d ++ rest))
   = opener_text d (body ++ raw_closer d) :: tokenize_minimal_cpp rest) /\
  ((forall i, String.prefix (raw_closer d) (drop_str i body) = false) ->
   tokenize_minimal_cpp (opener_text d body) = [opener_text d body]).
Proof.
  intros Hok Hlen.
  assert (Hne : forall X, opener_text d X <> EmptyString) by (intro X; discriminate).
  assert (Hsp : forall X, isspace (front (opener_text d X)) = false) by reflexivity.
  split; intro Habs.
  - rewrite (tokenize_first _ (Hne _) (Hsp _)), (token_len_raw_string d _ Hok Hlen).
    rewrite (find_close_first d (String.length body) _ Habs).
    2:{ rewrite drop_str_app. apply prefix_app. }
    replace (body ++ raw_closer d ++ rest) with ((body ++ raw_closer d) ++ rest)
      by apply str_app_assoc.
    rewrite opener_assoc.
    replace (2 + String.length d + 1 + (String.length body + (2 + String.length d)))%nat
      with (String.length (opener_text d (body ++ raw_closer d))).
    + now rewrite take_str_app, drop_str_app.
    + rewrite opener_length, str_app_length. unfold raw_closer.
      cbn [String.append String.length]. rewrite str_app_length. simpl. lia.
  - rewrite (tokenize_first _ (Hne _) (Hsp _)), (token_len_raw_string d _ Hok Hlen).
    rewrite (find_close_none d body Habs), <- opener_length.
    rewrite <- (str_app_nil_r (opener_text d body)) at 2 4.
    now rewrite take_str_app, drop_str_app.
Qed.

Lemma tokenize_raw_string_witness :
  delim_ok "x" = true /\ (String.length "x" <= 17)%nat /\
  absent_before (raw_closer "x") ("f(a) // b" ++ raw_closer "x" ++ ";") (String.length "f(a) // b") /\
  tokenize_minimal_cpp (opener_text "x" ("f(a) // b" ++ raw_closer "x" ++ ";"))
  = opener_text "x" ("f(a) // b" ++ raw_closer "x") :: tokenize_minimal_cpp ";".
Proof.
  assert (H1 : delim_ok "x" = true) by reflexivity.
  assert (H2 : (String.length "x" <= 17)%nat) by (simpl; lia).
  assert (H3 : absent_before (raw_closer "x") ("f(a) // b" ++ raw_closer "x" ++ ";")
                             (String.length "f(a) // b")).
  { intros i Hi. simpl in Hi.
    do 9 (destruct i as [|i]; [reflexivity|]). lia. }
  split; [exact H1|]. split; [exact H2|]. split; [exact H3|].
  exact (proj1 (tokenize_raw_string "x" "f(a) // b" ";" H1 H2) H3).
Defined.

(** * Further properties of the comment stripper *)

(** ** One iteration of the loop *)

Lemma strip_from_step (st : State) (c : ascii) (r : string) :
  strip_from st (String c r)
  = let '(out, st', code') := strip_step st (String c r) in out ++ strip_from st' code'.
Proof.
  unfold strip_from. cbn [String.length strip_loop].
  destruct (strip_step st (String c r)) as [[out st'] code'] eqn:E.
  f_equal. apply strip_step_shrinks in E.
  apply strip_loop_fuel; lia.
Qed.

Lemma strip_from_empty (st : State) : strip_from st EmptyString = EmptyString.
Proof. reflexivity. Qed.

Lemma strip_is_strip_from (code : string) :
  strip_comments_preserve_literals code = strip_from Normal code.
Proof. reflexivity. Qed.

(** ** What an iteration puts out is what it consumes, or nothing *)

Lemma scan_delim_split (s : string) :
  forall acc rd tl, scan_delim s acc = (rd, tl) -> exists d, rd = acc ++ d /\ s = d ++ tl.
Proof.
  induction s as [|x s IH]; intros acc rd tl E; simpl in E.
  - inversion E; subst. exists EmptyString. now rewrite str_app_nil_r.
  - destruct (Ascii.eqb x "(").
    { inversion E; subst. exists EmptyString. now rewrite str_app_nil_r. }
    destruct (delim_stop x || (16 <? String.length acc)%nat).
    { inversion E; subst. exists EmptyString. now rewrite str_app_nil_r. }
    destruct (IH _ _ _ E) as (d & -> & ->). exists (String x d).
    split; [now rewrite str_app_assoc | reflexivity].
Qed.

Lemma raw_open_split (code : string) (off : nat) (opener d rest : string) :
  raw_open code off = Some (opener, d, rest) -> code = opener ++ rest.
Proof.
  unfold raw_open.
  destruct (scan_delim (drop_str (off + 2) code) EmptyString) as [rd [|p tl]] eqn:E;
    [discriminate|].
  destruct (Ascii.eqb p "(") eqn:Ep; [|discriminate].
  intro H. inversion H; subst. apply Ascii.eqb_eq in Ep. subst p.
  apply scan_delim_split in E as (d' & Hd & Hs). simpl in Hd. subst d'.
  rewrite <- (take_drop_str (off + 2) code) at 1. rewrite Hs.
  rewrite !str_app_assoc. reflexivity.
Qed.

Lemma take_str_snoc (k : nat) :
  forall s, (k < String.length s)%nat -> take_str (S k) s = take_str k s ++ str1 (at_ s k).
Proof.
  induction k as [|k IH]; intros s Hk.
  - destruct s as [|c s]; [simpl in Hk; lia|]. rewrite take_str_S, !take_str_0. reflexivity.
  - destruct s as [|c s]; [simpl in Hk; lia|]. simpl in Hk.
    rewrite take_str_S, (IH s) by lia. rewrite take_str_S, at_S. reflexivity.
Qed.

Lemma strip_raw_split (d code out code' : string) (st' : State) :
  code <> EmptyString -> strip_raw d code = (out, st', code') -> code = out ++ code'.
Proof.
  intros Hne. unfold strip_raw.
  destruct (Ascii.eqb (at_ code 0) ")" && negb (str_empty d)
            && (1 + String.length d <? String.length code)%nat
            && String.eqb (String.substring 1 (String.length d) code) d
            && Ascii.eqb (at_ code (1 + String.length d)) DQ) eqn:E; intro H; inversion H; subst.
  - apply andb_true_iff in E as [E E4]. apply andb_true_iff in E as [E E3].
    apply andb_true_iff in E as [E E2]. apply andb_true_iff in E as [E1 _].
    apply Ascii.eqb_eq in E1, E4. apply String.eqb_eq in E3. apply Nat.ltb_lt in E2.
    rewrite <- (take_drop_str (2 + String.length d) code) at 1. f_equal.
    destruct code as [|c r]; [contradiction|]. rewrite at_0 in E1. subst c.
    change (2 + String.length d)%nat with (S (S (String.length d))).
    rewrite take_str_S. cbn [String.append]. f_equal.
    simpl in E2. rewrite take_str_snoc by lia.
    change (String.substring 1 (String.length d) (String ")" r))
      with (take_str (String.length d) r) in E3.
    change (at_ (String ")" r) (1 + String.length d)) with (at_ r (String.length d)) in E4.
    now rewrite E3, E4.
  - destruct code; [contradiction | reflexivity].
Qed.

(** Outside comments, an iteration that does not start at a slash puts
    out exactly the characters it consumes, and does not enter a comment. *)
Lemma strip_step_copies (st : State) (c : ascii) (r out code' : string) (st' : State) :
  in_comment st = false -> Ascii.eqb c "/" = false ->
  strip_step st (String c r) = (out, st', code') ->
  String c r = out ++ code' /\ in_comment st' = false.
Proof.
  intros Hst Hc E.
  assert (Hplain : forall o s x, strip_plain (String c r) = (o, s, x) ->
                     String c r = o ++ x /\ in_comment s = false).
  { intros o s x. unfold strip_plain. rewrite at_0, Hc. cbn [andb].
    destruct (Ascii.eqb c DQ); [intro H; inversion H; subst; split; reflexivity|].
    destruct (Ascii.eqb c SQ); intro H; inversion H; subst; split; reflexivity. }
  assert (Hopen : forall off o d x, raw_open (String c r) off = Some (o, d, x) ->
                    String c r = o ++ x /\ in_comment (InRaw d) = false).
  { intros off o d x H. split; [now apply raw_open_split in H | reflexivity]. }
  destruct st as [| | |esc|esc|d]; try discriminate Hst; cbn [strip_step] in E.
  - unfold strip_normal in E.
    assert (P : forall o s x,
               match strip_prefix_off (String c r) with
               | Some off =>
                   match raw_open (String c r) off with
                   | Some (opener, raw_delim, rest) => (opener, InRaw raw_delim, rest)
                   | None => strip_plain (String c r)
                   end
               | None => strip_plain (String c r)
               end = (o, s, x) -> String c r = o ++ x /\ in_comment s = false).
    { intros o s x. destruct (strip_prefix_off (String c r)) as [off|]; [|apply Hplain].
      destruct (raw_open (String c r) off) as [[[o' d'] x']|] eqn:Eo; [|apply Hplain].
      intro H. inversion H; subst. exact (Hopen _ _ _ _ Eo). }
    destruct (is_R_quote (String c r) 0); [|exact (P _ _ _ E)].
    destruct (raw_open (String c r) 0) as [[[o' d'] x']|] eqn:Eo; [|exact (P _ _ _ E)].
    inversion E; subst. exact (Hopen _ _ _ _ Eo).
  - unfold strip_quoted in E. inversion E; subst. split; [reflexivity|].
    destruct esc; [reflexivity|]. destruct (Ascii.eqb _ BSL); [reflexivity|].
    destruct (Ascii.eqb _ DQ); reflexivity.
  - unfold strip_quoted in E. inversion E; subst. split; [reflexivity|].
    destruct esc; [reflexivity|]. destruct (Ascii.eqb _ BSL); [reflexivity|].
    destruct (Ascii.eqb _ SQ); reflexivity.
  - split; [now apply (strip_raw_split d _ _ _ st') |].
    unfold strip_raw in E. destruct (_ && _) in E; inversion E; reflexivity.
Qed.

Lemma all_chars_drop (p : ascii -> bool) (k : nat) :
  forall s, all_chars p s = true -> all_chars p (drop_str k s) = true.
Proof.
  induction k as [|k IH]; intros s Hs; [exact Hs|].
  destruct s as [|c s]; [reflexivity|]. simpl in Hs. apply andb_true_iff in Hs as [_ Hs].
  now apply IH.
Qed.

Lemma strip_from_no_slash (k : nat) :
  forall st code,
    (String.length code <= k)%nat -> in_comment st = false ->
    all_chars (fun c => negb (Ascii.eqb c "/")) code = true ->
    strip_from st code = code.
Proof.
  induction k as [|k IH]; intros st code Hk Hst Hall.
  - destruct code; [reflexivity | simpl in Hk; lia].
  - destruct code as [|c r]; [reflexivity|].
    rewrite strip_from_step.
    destruct (strip_step st (String c r)) as [[out st'] code'] eqn:E.
    pose proof (strip_step_shrinks _ _ _ _ _ _ E) as Hlen.
    assert (Hc : Ascii.eqb c "/" = false).
    { simpl in Hall. apply andb_true_iff in Hall as [Hc _]. now apply negb_true_iff in Hc. }
    destruct (strip_step_copies st c r out code' st' Hst Hc E) as [Hsplit Hst'].
    rewrite (IH st' code'); [now rewrite Hsplit | simpl in Hk; lia | exact Hst' |].
    rewrite Hsplit in Hall. rewrite all_chars_app in Hall.
    now apply andb_true_iff in Hall as [_ Hall].
Qed.

(** X11: a text without a slash holds no comment and is returned
    unchanged, whatever literals it holds. *)
Theorem strip_without_slash_is_identity (code : string) :
  all_chars (fun c => negb (Ascii.eqb c "/")) code = true ->
  strip_comments_preserve_literals code = code.
Proof.
  intro Hall. rewrite strip_is_strip_from.
  now apply (strip_from_no_slash (String.length code)).
Qed.

Lemma strip_without_slash_is_identity_witness :
  all_chars (fun c => negb (Ascii.eqb c "/")) ("char*s=" ++ str1 DQ ++ "a b" ++ str1 DQ ++ ";")
  = true /\
  strip_comments_preserve_literals ("char*s=" ++ str1 DQ ++ "a b" ++ str1 DQ ++ ";")
  = "char*s=" ++ str1 DQ ++ "a b" ++ str1 DQ ++ ";".
Proof.
  split; [reflexivity|].
  apply (strip_without_slash_is_identity ("char*s=" ++ str1 DQ ++ "a b" ++ str1 DQ ++ ";")).
  reflexivity.
Defined.

(** ** The stripper only deletes *)

Lemma subseq_refl (a : string) : subseq a a.
Proof. induction a; constructor; assumption. Qed.

Lemma subseq_empty (a : string) : subseq EmptyString a.
Proof. induction a; constructor; assumption. Qed.

Lemma subseq_app (a b a' b' : string) : subseq a a' -> subseq b b' -> subseq (a ++ b) (a' ++ b').
Proof. intros Ha Hb. induction Ha; cbn [String.append]; try constructor; assumption. Qed.

Lemma subseq_length (a b : string) : subseq a b -> (String.length a <= String.length b)%nat.
Proof. induction 1; simpl; lia. Qed.

Lemma strip_step_subseq (st : State) (c : ascii) (r out code' : string) (st' : State) :
  strip_step st (String c r) = (out, st', code') ->
  exists consumed, String c r = consumed ++ code' /\ subseq out consumed.
Proof.
  intro E.
  assert (Hcut : forall k, exists consumed,
             String c r = consumed ++ drop_str k (String c r) /\ subseq EmptyString consumed).
  { intro k. exists (take_str k (String c r)).
    split; [symmetry; apply take_drop_str | apply subseq_empty]. }
  assert (Hone : exists consumed,
             String c r = consumed ++ drop_str 1 (String c r) /\ subseq (str1 c) consumed).
  { exists (str1 c). split; [reflexivity | apply subseq_refl]. }
  assert (Hcopy : in_comment st = false -> Ascii.eqb c "/" = false ->
                  exists consumed, String c r = consumed ++ code' /\ subseq out consumed).
  { intros Hst Hc. destruct (strip_step_copies st c r out code' st' Hst Hc E) as [Hs _].
    exists out. split; [exact Hs | apply subseq_refl]. }
  destruct st as [| | |esc|esc|d]; cbn [strip_step] in E.
  - destruct (Ascii.eqb c "/") eqn:Hc; [|now apply Hcopy].
    apply Ascii.eqb_eq in Hc. subst c.
    rewrite strip_normal_not_opener in E by reflexivity.
    unfold strip_plain in E. rewrite at_0 in E. cbn [Ascii.eqb Bool.eqb andb] in E.
    destruct (Ascii.eqb (at_ (String "/" r) 1) "*");
      [inversion E; subst; exact (Hcut 2%nat)|].
    destruct (Ascii.eqb (at_ (String "/" r) 1) "/");
      [inversion E; subst; exact (Hcut 2%nat)|].
    change (Ascii.eqb "/" DQ) with false in E. change (Ascii.eqb "/" SQ) with false in E.
    cbv iota in E. inversion E; subst. exact Hone.
  - destruct (_ && _) in E; inversion E; subst; [exact (Hcut 2%nat) | exact (Hcut 1%nat)].
  - destruct (Ascii.eqb _ NL) in E; inversion E; subst; [exact Hone | exact (Hcut 1%nat)].
  - unfold strip_quoted in E. inversion E; subst. exact Hone.
  - unfold strip_quoted in E. inversion E; subst. exact Hone.
  - exists out. split; [|apply subseq_refl].
    now apply (strip_raw_split d _ _ _ st').
Qed.

Lemma strip_from_subseq (k : nat) :
  forall st code, (String.length code <= k)%nat -> subseq (strip_from st code) code.
Proof.
  induction k as [|k IH]; intros st code Hk.
  - destruct code; [constructor | simpl in Hk; lia].
  - destruct code as [|c r]; [constructor|].
    rewrite strip_from_step.
    destruct (strip_step st (String c r)) as [[out st'] code'] eqn:E.
    pose proof (strip_step_shrinks _ _ _ _ _ _ E) as Hlen.
    destruct (strip_step_subseq _ _ _ _ _ _ E) as (consumed & Hs & Hsub).
    rewrite Hs. apply subseq_app; [exact Hsub|]. apply IH. simpl in Hk. lia.
Qed.

(** X12: the stripper only deletes: its output is the text with some
    characters taken out, the others in their order, and so it is never
    longer than the text. *)
Theorem strip_only_deletes (code : string) :
  subseq (strip_comments_preserve_literals code) code /\
  (String.length (strip_comments_preserve_literals code) <= String.length code)%nat.
Proof.
  assert (H : subseq (strip_comments_preserve_literals code) code)
    by (rewrite strip_is_strip_from; now apply (strip_from_subseq (String.length code))).
  split; [exact H | now apply subseq_length].
Qed.

(** ** The prefixed-opener test adds nothing *)

Lemma take_str_add (a b : nat) :
  forall s, take_str (a + b) s = take_str a s ++ take_str b (drop_str a s).
Proof.
  induction a as [|a IH]; intro s.
  - now rewrite take_str_0.
  - destruct s as [|c s].
    + cbn [drop_str]. unfold take_str. simpl. now destruct b.
    + cbn [Nat.add drop_str]. rewrite !take_str_S, IH. reflexivity.
Qed.

Lemma drop_str_drop (a b : nat) :
  forall s, drop_str (a + b) s = drop_str b (drop_str a s).
Proof.
  induction a as [|a IH]; intro s; [reflexivity|].
  destruct s as [|c s]; cbn [Nat.add drop_str]; [now destruct b | apply IH].
Qed.

Lemma is_R_quote_drop (off : nat) :
  forall s, is_R_quote (drop_str off s) 0 = is_R_quote s off.
Proof.
  induction off as [|off IH]; intro s; [reflexivity|].
  destruct s as [|c s]; [reflexivity|]. rewrite is_R_quote_S. apply IH.
Qed.

Lemma raw_open_drop (code : string) (off : nat) :
  raw_open (drop_str off code) 0
  = match raw_open code off with
    | Some (_, d, rest) => Some (take_str 2 (drop_str off code) ++ d ++ "(", d, rest)
    | None => None
    end.
Proof.
  unfold raw_open. cbn [Nat.add]. rewrite <- drop_str_drop.
  destruct (scan_delim (drop_str (off + 2) code) EmptyString) as [d [|p rest]]; [reflexivity|].
  destruct (Ascii.eqb p "("); reflexivity.
Qed.

Lemma strip_from_Normal (c : ascii) (r : string) :
  strip_from Normal (String c r)
  = let '(out, st', code') := strip_normal (String c r) in out ++ strip_from st' code'.
Proof. apply strip_from_step. Qed.

(** A character that is no slash and no quote, and does not begin a raw
    string that has no prefix, is copied by the plain part. *)
Lemma strip_plain_char (c : ascii) (r : string) :
  Ascii.eqb c "/" = false -> is_quote c = false ->
  strip_plain (String c r) = (str1 c, Normal, r).
Proof.
  intros Hs Hq. unfold strip_plain. rewrite at_0, Hs, (is_quote_DQ c Hq), (is_quote_SQ c Hq).
  reflexivity.
Qed.

Lemma strip_from_R_quote (code : string) :
  code <> EmptyString -> is_R_quote code 0 = true ->
  strip_from Normal code
  = match raw_open code 0 with
    | Some (opener, d, rest) => opener ++ strip_from (InRaw d) rest
    | None => str1 (front code) ++ strip_from Normal (drop_str 1 code)
    end.
Proof.
  intros Hne HR. destruct code as [|c r]; [contradiction|].
  rewrite strip_from_Normal. unfold strip_normal. rewrite HR.
  destruct (raw_open (String c r) 0) as [[[opener d] rest]|] eqn:Eo; [reflexivity|].
  assert (Hc : c = "R"%char) by (apply is_R_quote_true in HR as [HR _]; exact HR).
  subst c.
  replace (strip_prefix_off (String "R" r)) with (@None nat); [reflexivity|].
  unfold strip_prefix_off. rewrite at_0. reflexivity.
Qed.

Lemma strip_prefix_off_cases (code : string) (off : nat) :
  strip_prefix_off code = Some off ->
  is_R_quote code off = true /\ is_uUL (at_ code 0) = true /\
  (off = 1%nat \/ (off = 2%nat /\ at_ code 1 = "8"%char)).
Proof.
  unfold strip_prefix_off, is_uUL.
  destruct (Ascii.eqb (at_ code 0) "u" && Ascii.eqb (at_ code 1) "8" && is_R_quote code 2) eqn:E1.
  - intro H. inversion H; subst.
    apply andb_true_iff in E1 as [E1 E3]. apply andb_true_iff in E1 as [E1 E2].
    apply Ascii.eqb_eq in E2. rewrite E1. auto.
  - destruct ((Ascii.eqb (at_ code 0) "u" || Ascii.eqb (at_ code 0) "U"
               || Ascii.eqb (at_ code 0) "L") && is_R_quote code 1) eqn:E2; [|discriminate].
    intro H. inversion H; subst. apply andb_true_iff in E2 as [E2 E3]. auto.
Qed.

Lemma uUL_plain (c : ascii) :
  is_uUL c = true ->
  Ascii.eqb c "/" = false /\ is_quote c = false /\ Ascii.eqb c "R" = false.
Proof.
  unfold is_uUL. intro H.
  apply orb_true_iff in H as [H | H]; [apply orb_true_iff in H as [H | H]|];
    apply Ascii.eqb_eq in H; subst c; repeat split; reflexivity.
Qed.

(** In [Normal], in front of a character that is no slash and no quote
    and does not begin an [R]-quote pair, the loop copies the character
    and goes on in [Normal]: a raw string that has a prefix is handled as
    its prefix followed by a raw string. *)
Lemma strip_from_plain_char (c : ascii) (r : string) :
  Ascii.eqb c "/" = false -> is_quote c = false -> is_R_quote (String c r) 0 = false ->
  strip_from Normal (String c r) = String c (strip_from Normal r).
Proof.
  intros Hs Hq HR.
  assert (Hplain : (let '(out, st', code') := strip_plain (String c r) in
                    out ++ strip_from st' code') = String c (strip_from Normal r))
    by (now rewrite strip_plain_char).
  rewrite strip_from_Normal. unfold strip_normal. rewrite HR.
  destruct (strip_prefix_off (String c r)) as [off|] eqn:Eoff; [|exact Hplain].
  destruct (raw_open (String c r) off) as [[[opener d] rest]|] eqn:Eo; [|exact Hplain].
  apply strip_prefix_off_cases in Eoff as (Hoff & Hu & Hcase).
  pose proof (raw_open_drop (String c r) off) as Hdrop. rewrite Eo in Hdrop.
  assert (Hopener : opener = take_str (off + 2) (String c r) ++ d ++ "(").
  { unfold raw_open in Eo.
    destruct (scan_delim (drop_str (off + 2) (String c r)) EmptyString) as [d' [|p tl]];
      [discriminate|].
    destruct (Ascii.eqb p "("); [|discriminate]. now inversion Eo. }
  assert (Hraw : strip_from Normal (drop_str off (String c r))
                 = (take_str 2 (drop_str off (String c r)) ++ d ++ "(")
                   ++ strip_from (InRaw d) rest).
  { rewrite strip_from_R_quote.
    - now rewrite Hdrop.
    - intro E. rewrite <- is_R_quote_drop, E in Hoff. discriminate.
    - now rewrite is_R_quote_drop. }
  subst opener. rewrite take_str_add, !str_app_assoc. rewrite !str_app_assoc in Hraw.
  rewrite <- Hraw.
  destruct Hcase as [-> | [-> H8]].
  - rewrite take_str_S, take_str_0. reflexivity.
  - destruct r as [|c1 r1]; [discriminate H8|]. rewrite at_S, at_0 in H8. subst c1.
    rewrite !take_str_S, take_str_0.
    change (drop_str 2 (String c (String "8" r1))) with r1.
    cbn [String.append]. f_equal.
    rewrite strip_from_Normal, strip_normal_not_opener by reflexivity.
    now rewrite strip_plain_char.
Qed.

Lemma plain_text_cons (c : ascii) (s : string) :
  plain_text (String c s) = true ->
  Ascii.eqb c "/" = false /\ is_quote c = false /\ plain_text s = true.
Proof.
  unfold plain_text. simpl. intro H. apply andb_true_iff in H as [H Hs].
  apply andb_true_iff in H as [H1 H2]. apply negb_true_iff in H1, H2. auto.
Qed.

Lemma back_cons (c d : ascii) (s : string) : back (String c (String d s)) = back (String d s).
Proof.
  unfold back. replace (String.length (String c (String d s)) - 1)%nat
    with (S (String.length (String d s) - 1)) by (simpl; lia).
  now rewrite at_S.
Qed.

(** Text without a slash and without a quote is copied, and the loop is
    in [Normal] behind it, unless the text ends in an [R] that the next
    character, a double quote, turns into a raw-string opener. *)
Lemma strip_from_plain_prefix (pre rest : string) :
  plain_text pre = true ->
  ~ (back pre = "R"%char /\ front rest = DQ) ->
  strip_from Normal (pre ++ rest) = pre ++ strip_from Normal rest.
Proof.
  induction pre as [|c pre IH]; intros Hp Hb; [reflexivity|].
  apply plain_text_cons in Hp as (Hs & Hq & Hp).
  cbn [String.append]. rewrite strip_from_plain_char; try assumption.
  - f_equal. destruct pre as [|c' pre']; [reflexivity|].
    apply IH; [exact Hp|]. now rewrite back_cons in Hb.
  - destruct (is_R_quote (String c (pre ++ rest)) 0) eqn:E; [|reflexivity].
    exfalso. apply is_R_quote_true in E as [E1 E2]. rewrite at_0 in E1. subst c.
    change (at_ (String "R" (pre ++ rest)) (0 + 1)) with (front (pre ++ rest)) in E2.
    destruct pre as [|c' pre'].
    + apply Hb. split; [reflexivity | exact E2].
    + apply plain_text_cons in Hp as (_ & Hq' & _).
      change (front (String c' pre' ++ rest)) with c' in E2. subst c'. discriminate.
Qed.

(** ** Comments *)

Lemma block_test (c : ascii) (s' : string) :
  Ascii.eqb c "*" && Ascii.eqb (at_ (String c s') 1) "/" = String.prefix "*/" (String c s').
Proof.
  rewrite prefix_cons, at_S, (Ascii.eqb_sym "*" c). f_equal.
  destruct s' as [|x s']; [reflexivity|].
  rewrite prefix_cons, prefix_nil, andb_true_r, at_0. apply Ascii.eqb_sym.
Qed.

Lemma strip_step_block (c : ascii) (s' : string) :
  strip_step InBlock (String c s')
  = if String.prefix "*/" (String c s') then (EmptyString, Normal, drop_str 2 (String c s'))
    else (EmptyString, InBlock, s').
Proof. cbn [strip_step]. now rewrite at_0, block_test. Qed.

Lemma strip_from_block (body : string) :
  forall rest,
    absent_before "*/" (body ++ "*/" ++ rest) (String.length body) ->
    strip_from InBlock (body ++ "*/" ++ rest) = strip_from Normal rest.
Proof.
  induction body as [|c body IH]; intros rest Habs.
  - cbn [String.append]. rewrite strip_from_step, strip_step_block.
    pose proof (prefix_app "*/" rest) as H0. cbn [String.append] in H0. rewrite H0.
    reflexivity.
  - cbn [String.append]. rewrite strip_from_step, strip_step_block.
    pose proof (Habs 0%nat ltac:(simpl; lia)) as H0. cbn [drop_str String.append] in H0.
    rewrite H0. cbn [String.append]. apply IH.
    intros i Hi. exact (Habs (S i) ltac:(simpl; lia)).
Qed.

Lemma strip_from_block_open (body : string) :
  (forall i, String.prefix "*/" (drop_str i body) = false) ->
  strip_from InBlock body = EmptyString.
Proof.
  induction body as [|c body IH]; intro Habs; [reflexivity|].
  rewrite strip_from_step, strip_step_block.
  pose proof (Habs 0%nat) as H0. cbn [drop_str] in H0. rewrite H0.
  cbn [String.append]. apply IH. intro i. exact (Habs (S i)).
Qed.

Lemma strip_from_slash (n : ascii) (X : string) :
  strip_from Normal (String "/" (String n X))
  = if Ascii.eqb n "*" then strip_from InBlock X
    else if Ascii.eqb n "/" then strip_from InLine X
         else String "/" (strip_from Normal (String n X)).
Proof.
  rewrite strip_from_Normal, strip_normal_not_opener by reflexivity.
  unfold strip_plain. rewrite at_0, at_S, at_0.
  change (Ascii.eqb "/" "/") with true. cbn [andb].
  destruct (Ascii.eqb n "*"); [reflexivity|].
  destruct (Ascii.eqb n "/"); reflexivity.
Qed.

Lemma not_R_before_slash (pre X : string) :
  ~ (back pre = "R"%char /\ front (String "/" X) = DQ).
Proof. intros [_ H]. discriminate H. Qed.

(** X13: a block comment behind text that holds no slash and no quote
    is deleted up to the first [*/], white space and line feeds included,
    and nothing is put in its place; stripping goes on behind it.  A block
    comment that is not closed takes the rest of the text with it. *)
Theorem strip_block_comment (pre body rest : string) :
  plain_text pre = true ->
  (absent_before "*/" (body ++ "*/" ++ rest) (String.length body) ->
   strip_comments_preserve_literals (pre ++ "/*" ++ body ++ "*/" ++ rest)
   = pre ++ strip_comments_preserve_literals rest) /\
  ((forall i, String.prefix "*/" (drop_str i body) = false) ->
   strip_comments_preserve_literals (pre ++ "/*" ++ body) = pre).
Proof.
  intro Hp. rewrite !strip_is_strip_from. split; intro Habs.
  - rewrite strip_from_plain_prefix by (exact Hp || apply not_R_before_slash).
    f_equal. cbn [String.append]. rewrite strip_from_slash. cbn [Ascii.eqb Bool.eqb].
    now apply strip_from_block.
  - rewrite strip_from_plain_prefix by (exact Hp || apply not_R_before_slash).
    cbn [String.append]. rewrite strip_from_slash. cbn [Ascii.eqb Bool.eqb].
    rewrite (strip_from_block_open body Habs). apply str_app_nil_r.
Qed.

Lemma strip_block_comment_witness :
  plain_text "int a" = true /\
  absent_before "*/" ("* b /" ++ "*/" ++ "=1;") (String.length "* b /") /\
  strip_comments_preserve_literals ("int a" ++ "/*" ++ "* b /" ++ "*/" ++ "=1;")
  = "int a" ++ strip_comments_preserve_literals "=1;".
Proof.
  assert (Hp : plain_text "int a" = true) by reflexivity.
  assert (Ha : absent_before "*/" ("* b /" ++ "*/" ++ "=1;") (String.length "* b /")).
  { intros i Hi. simpl in Hi. do 5 (destruct i as [|i]; [reflexivity|]). lia. }
  split; [exact Hp|]. split; [exact Ha|].
  exact (proj1 (strip_block_comment "int a" "* b /" "=1;" Hp) Ha).
Defined.

Lemma strip_from_line (body : string) :
  no_newline body = true ->
  (forall rest, strip_from InLine (body ++ String NL rest) = String NL (strip_from Normal rest))
  /\ strip_from InLine body = EmptyString.
Proof.
  induction body as [|c body IH]; intro Hb.
  - split; [intro rest|reflexivity]. cbn [String.append]. rewrite strip_from_step. reflexivity.
  - simpl in Hb. apply andb_true_iff in Hb as [Hc Hb]. apply negb_true_iff in Hc.
    destruct (IH Hb) as [H1 H2].
    split; [intro rest|]; cbn [String.append]; rewrite strip_from_step; cbn [strip_step];
      rewrite at_0, Hc; cbn [String.append drop_str]; [apply H1 | exact H2].
Qed.

(** X14: a line comment behind text that holds no slash and no quote is
    deleted up to the line feed, which is kept; stripping goes on behind
    the line feed.  A line comment on the last line, with no line feed
    behind it, is deleted to the end of the text. *)
Theorem strip_line_comment (pre body rest : string) :
  plain_text pre = true -> no_newline body = true ->
  strip_comments_preserve_literals (pre ++ "//" ++ body ++ String NL rest)
  = pre ++ String NL (strip_comments_preserve_literals rest) /\
  strip_comments_preserve_literals (pre ++ "//" ++ body) = pre.
Proof.
  intros Hp Hb. rewrite !strip_is_strip_from. destruct (strip_from_line body Hb) as [H1 H2].
  split.
  - rewrite strip_from_plain_prefix by (exact Hp || apply not_R_before_slash).
    f_equal. cbn [String.append]. rewrite strip_from_slash. cbn [Ascii.eqb Bool.eqb].
    apply H1.
  - rewrite strip_from_plain_prefix by (exact Hp || apply not_R_before_slash).
    cbn [String.append]. rewrite strip_from_slash. cbn [Ascii.eqb Bool.eqb].
    rewrite H2. apply str_app_nil_r.
Qed.

Lemma strip_line_comment_witness :
  plain_text "x=1; " = true /\ no_newline "/ note */" = true /\
  strip_comments_preserve_literals ("x=1; " ++ "//" ++ "/ note */" ++ String NL "y=2;")
  = "x=1; " ++ String NL (strip_comments_preserve_literals "y=2;").
Proof.
  assert (Hp : plain_text "x=1; " = true) by reflexivity.
  assert (Hb : no_newline "/ note */" = true) by reflexivity.
  split; [exact Hp|]. split; [exact Hb|].
  exact (proj1 (strip_line_comment "x=1; " "/ note */" "y=2;" Hp Hb)).
Defined.

(** ** Literals *)

Lemma strip_from_quoted (q : ascii) (mk : bool -> State) :
  (forall esc code, strip_step (mk esc) code = strip_quoted q mk esc code) ->
  Ascii.eqb q BSL = false ->
  forall k body, (String.length body <= k)%nat -> escaped_body q body = true ->
    (forall rest, strip_from (mk false) (body ++ String q rest)
                  = body ++ String q (strip_from Normal rest)) /\
    strip_from (mk false) body = body.
Proof.
  intros Hstep Hq. induction k as [|k IH]; intros body Hk Hb.
  - destruct body; [|simpl in Hk; lia]. split; [intro rest|reflexivity].
    cbn [String.append]. rewrite strip_from_step, Hstep. unfold strip_quoted.
    rewrite at_0, Hq, Ascii.eqb_refl. reflexivity.
  - destruct body as [|c r].
    { split; [intro rest|reflexivity].
      cbn [String.append]. rewrite strip_from_step, Hstep. unfold strip_quoted.
      rewrite at_0, Hq, Ascii.eqb_refl. reflexivity. }
    simpl in Hk. cbn [escaped_body] in Hb.
    destruct (Ascii.eqb c BSL) eqn:Ec.
    + destruct r as [|x r']; [discriminate Hb|]. simpl in Hk.
      destruct (IH r' ltac:(lia) Hb) as [H1 H2].
      split; [intro rest|]; cbn [String.append];
        rewrite strip_from_step, Hstep; unfold strip_quoted; rewrite at_0, Ec;
        cbn [String.append drop_str str1];
        rewrite strip_from_step, Hstep; unfold strip_quoted;
        cbn [String.append drop_str str1]; rewrite at_0; [now rewrite H1 | now rewrite H2].
    + apply andb_true_iff in Hb as [Hcq Hb]. apply negb_true_iff in Hcq.
      destruct (IH r ltac:(lia) Hb) as [H1 H2].
      split; [intro rest|]; cbn [String.append];
        rewrite strip_from_step, Hstep; unfold strip_quoted; rewrite at_0, Ec, Hcq;
        cbn [String.append drop_str str1]; [now rewrite H1 | now rewrite H2].
Qed.

Lemma strip_from_DQ (X : string) :
  strip_from Normal (String DQ X) = String DQ (strip_from (InStr false) X).
Proof. now rewrite strip_from_Normal, strip_normal_not_opener. Qed.

Lemma strip_from_SQ (X : string) :
  strip_from Normal (String SQ X) = String SQ (strip_from (InChar false) X).
Proof. now rewrite strip_from_Normal, strip_normal_not_opener. Qed.

(** X15: a string literal behind text that holds no slash and no quote
    (and does not end in [R]) is copied as it is, comment marks in its body
    included, and stripping goes on behind its closing quote; a string
    literal that is not closed is copied to the end of the text. *)
Theorem strip_keeps_string_literal (pre body rest : string) :
  plain_text pre = true -> back pre <> "R"%char -> escaped_body DQ body = true ->
  strip_comments_preserve_literals (pre ++ String DQ (body ++ String DQ rest))
  = pre ++ String DQ (body ++ String DQ (strip_comments_preserve_literals rest)) /\
  strip_comments_preserve_literals (pre ++ String DQ body) = pre ++ String DQ body.
Proof.
  intros Hp HR Hb. rewrite !strip_is_strip_from.
  destruct (strip_from_quoted DQ InStr (fun _ _ => eq_refl) eq_refl
              (String.length body) body (le_n _) Hb) as [H1 H2].
  split; (rewrite strip_from_plain_prefix; [|exact Hp | now intros [E _]]);
    rewrite strip_from_DQ; [now rewrite H1 | now rewrite H2].
Qed.

Lemma strip_keeps_string_literal_witness :
  plain_text "s=" = true /\ back "s=" <> "R"%char /\
  escaped_body DQ ("/*a*/ \" ++ str1 DQ ++ "//") = true /\
  strip_comments_preserve_literals
    ("s=" ++ String DQ (("/*a*/ \" ++ str1 DQ ++ "//") ++ String DQ ";//c"))
  = "s=" ++ String DQ (("/*a*/ \" ++ str1 DQ ++ "//")
                       ++ String DQ (strip_comments_preserve_literals ";//c")).
Proof.
  assert (Hp : plain_text "s=" = true) by reflexivity.
  assert (HR : back "s=" <> "R"%char) by discriminate.
  assert (Hb : escaped_body DQ ("/*a*/ \" ++ str1 DQ ++ "//") = true) by reflexivity.
  split; [exact Hp|]. split; [exact HR|]. split; [exact Hb|].
  exact (proj1 (strip_keeps_string_literal "s=" ("/*a*/ \" ++ str1 DQ ++ "//") ";//c"
                  Hp HR Hb)).
Defined.

(** X16: a character literal behind text that holds no slash and no
    quote is copied as it is, and stripping goes on behind its closing
    quote; one that is not closed is copied to the end of the text. *)
Theorem strip_keeps_char_literal (pre body rest : string) :
  plain_text pre = true -> escaped_body SQ body = true ->
  strip_comments_preserve_literals (pre ++ String SQ (body ++ String SQ rest))
  = pre ++ String SQ (body ++ String SQ (strip_comments_preserve_literals rest)) /\
  strip_comments_preserve_literals (pre ++ String SQ body) = pre ++ String SQ body.
Proof.
  intros Hp Hb. rewrite !strip_is_strip_from.
  destruct (strip_from_quoted SQ InChar (fun _ _ => eq_refl) eq_refl
              (String.length body) body (le_n _) Hb) as [H1 H2].
  split; (rewrite strip_from_plain_prefix; [|exact Hp | now intros [_ E]]);
    rewrite strip_from_SQ; [now rewrite H1 | now rewrite H2].
Qed.

Lemma strip_keeps_char_literal_witness :
  plain_text "c=" = true /\ escaped_body SQ "/" = true /\
  strip_comments_preserve_literals ("c=" ++ String SQ ("/" ++ String SQ "/*x*/;"))
  = "c=" ++ String SQ ("/" ++ String SQ (strip_comments_preserve_literals "/*x*/;")).
Proof.
  assert (Hp : plain_text "c=" = true) by reflexivity.
  assert (Hb : escaped_body SQ "/" = true) by reflexivity.
  split; [exact Hp|]. split; [exact Hb|].
  exact (proj1 (strip_keeps_char_literal "c=" "/" "/*x*/;" Hp Hb)).
Defined.

(** ** Raw strings *)

Lemma strip_raw_test (d : string) (c : ascii) (s' : string) :
  strip_raw d (String c s')
  = if negb (str_empty d) && String.prefix (raw_closer d) (String c s')
    then (raw_closer d, Normal, drop_str (2 + String.length d) (String c s'))
    else (str1 c, InRaw d, s').
Proof.
  unfold strip_raw, raw_closer. cbn [String.append]. rewrite prefix_cons, <- closer_test.
  rewrite at_0.
  change (1 + String.length d <? String.length (String c s'))%nat
    with (String.length d <? String.length s')%nat.
  change (String.substring 1 (String.length d) (String c s'))
    with (String.substring 0 (String.length d) s').
  change (at_ (String c s') (1 + String.length d)) with (at_ s' (String.length d)).
  rewrite (Ascii.eqb_sym ")" c).
  destruct (Ascii.eqb c ")"), (negb (str_empty d)); reflexivity.
Qed.

Lemma raw_closer_length (d : string) : String.length (raw_closer d) = (2 + String.length d)%nat.
Proof. unfold raw_closer, str1. cbn [String.append String.length]. rewrite str_app_length. simpl. lia. Qed.

Lemma strip_from_raw (d body : string) :
  str_empty d = false ->
  forall rest,
    absent_before (raw_closer d) (body ++ raw_closer d ++ rest) (String.length body) ->
    strip_from (InRaw d) (body ++ raw_closer d ++ rest)
    = body ++ raw_closer d ++ strip_from Normal rest.
Proof.
  intro Hd. induction body as [|c body IH]; intros rest Habs.
  - cbn [String.append].
    assert (Hne : exists c s', raw_closer d ++ rest = String c s')
      by (unfold raw_closer; cbn [String.append]; eauto).
    destruct Hne as (c & s' & E). rewrite E, strip_from_step. cbn [strip_step].
    rewrite strip_raw_test, Hd, <- E, prefix_app, <- raw_closer_length, drop_str_app.
    reflexivity.
  - cbn [String.append]. rewrite strip_from_step. cbn [strip_step].
    rewrite strip_raw_test.
    pose proof (Habs 0%nat ltac:(simpl; lia)) as H0. cbn [drop_str String.append] in H0.
    rewrite H0, andb_false_r. cbn [String.append str1]. f_equal. apply IH.
    intros i Hi. exact (Habs (S i) ltac:(simpl; lia)).
Qed.

Lemma strip_from_raw_open (d body : string) :
  str_empty d = true \/ (forall i, String.prefix (raw_closer d) (drop_str i body) = false) ->
  strip_from (InRaw d) body = body.
Proof.
  intro H. induction body as [|c body IH]; [reflexivity|].
  rewrite strip_from_step. cbn [strip_step]. rewrite strip_raw_test.
  replace (negb (str_empty d) && String.prefix (raw_closer d) (String c body)) with false.
  - cbn [String.append str1]. f_equal. apply IH.
    destruct H as [H | H]; [left; exact H | right; intro i; exact (H (S i))].
  - destruct H as [H | H]; [now rewrite H|].
    pose proof (H 0%nat) as H0. cbn [drop_str] in H0. now rewrite H0, andb_false_r.
Qed.

Lemma strip_from_opener (d X : string) :
  delim_ok d = true -> (String.length d <= 17)%nat ->
  strip_from Normal (opener_text d X) = opener_text d (strip_from (InRaw d) X).
Proof.
  intros Hok Hlen. rewrite strip_from_R_quote; [|discriminate|].
  - unfold raw_open, opener_text.
    change (drop_str (0 + 2) ("R" ++ str1 DQ ++ d ++ "(" ++ X)) with (d ++ String "(" X).
    rewrite (scan_delim_accepts d Hok EmptyString X) by (simpl; lia).
    change (take_str (0 + 2) ("R" ++ str1 DQ ++ d ++ "(" ++ X))
      with (String "R" (String DQ (take_str 0 (d ++ String "(" X)))).
    rewrite take_str_0. rewrite Ascii.eqb_refl. unfold str1. cbn [String.append].
    do 2 f_equal. now rewrite !str_app_assoc.
  - unfold is_R_quote, opener_text, str1. cbn [String.append String.length at_ String.get].
    rewrite !Ascii.eqb_refl.
    replace (0 + 1 <? S (S (String.length (d ++ String "(" X))))%nat with true
      by (symmetry; apply Nat.ltb_lt; lia).
    reflexivity.
Qed.

Lemma not_R_before_opener (pre d X : string) :
  ~ (back pre = "R"%char /\ front (opener_text d X) = DQ).
Proof. intros [_ H]. discriminate H. Qed.

(** X17: a raw string behind text that holds no slash and no quote
    (its prefix, if it has one, is such text) is copied as it is up to the
    first occurrence of its closing sequence, comment marks and quotes in
    its body included, and stripping goes on behind it; this for a delimiter
    of 1 to 17 characters none of which stops the delimiter loop.  A raw
    string that is not closed is copied to the end of the text. *)
Theorem strip_keeps_raw_string (pre d body rest : string) :
  plain_text pre = true -> delim_ok d = true -> (1 <= String.length d <= 17)%nat ->
  (absent_before (raw_closer d) (body ++ raw_closer d ++ rest) (String.length body) ->
   strip_comments_preserve_literals (pre ++ opener_text d (body ++ raw_closer d ++ rest))
   = pre ++ opener_text d (body ++ raw_closer d ++ strip_comments_preserve_literals rest)) /\
  ((forall i, String.prefix (raw_closer d) (drop_str i body) = false) ->
   strip_comments_preserve_literals (pre ++ opener_text d body) = pre ++ opener_text d body).
Proof.
  intros Hp Hok Hlen. rewrite !strip_is_strip_from.
  assert (Hd : str_empty d = false) by (destruct d; [simpl in Hlen; lia | reflexivity]).
  split; intro Habs;
    rewrite strip_from_plain_prefix by (exact Hp || apply not_R_before_opener);
    rewrite strip_from_opener by (exact Hok || lia).
  - now rewrite strip_from_raw.
  - rewrite strip_from_raw_open; [reflexivity | right; exact Habs].
Qed.

Lemma strip_keeps_raw_string_witness :
  plain_text "auto s=u8" = true /\ delim_ok "x" = true /\ (1 <= String.length "x" <= 17)%nat /\
  absent_before (raw_closer "x") ("/*a*/)" ++ raw_closer "x" ++ ";//c") (String.length "/*a*/)") /\
  strip_comments_preserve_literals
    ("auto s=u8" ++ opener_text "x" ("/*a*/)" ++ raw_closer "x" ++ ";//c"))
  = "auto s=u8" ++ opener_text "x" ("/*a*/)" ++ raw_closer "x"
                                    ++ strip_comments_preserve_literals ";//c").
Proof.
  assert (H1 : plain_text "auto s=u8" = true) by reflexivity.
  assert (H2 : delim_ok "x" = true) by reflexivity.
  assert (H3 : (1 <= String.length "x" <= 17)%nat) by (simpl; lia).
  assert (H4 : absent_before (raw_closer "x") ("/*a*/)" ++ raw_closer "x" ++ ";//c")
                             (String.length "/*a*/)")).
  { intros i Hi. simpl in Hi. do 6 (destruct i as [|i]; [reflexivity|]). lia. }
  split; [exact H1|]. split; [exact H2|]. split; [exact H3|]. split; [exact H4|].
  exact (proj1 (strip_keeps_raw_string "auto s=u8" "x" "/*a*/)" ";//c" H1 H2 H3) H4).
Defined.

(** X18: a raw string with an empty delimiter is never closed by the
    stripper: behind its opener [R], double quote, left parenthesis (after
    text that holds no slash and no quote) the rest of the text is copied
    as it is, comments included. *)
Theorem strip_raw_empty_delimiter_never_closes (pre rest : string) :
  plain_text pre = true ->
  strip_comments_preserve_literals (pre ++ opener_text EmptyString rest)
  = pre ++ opener_text EmptyString rest.
Proof.
  intro Hp. rewrite !strip_is_strip_from.
  rewrite strip_from_plain_prefix by (exact Hp || apply not_R_before_opener).
  rewrite strip_from_opener by (reflexivity || (simpl; lia)).
  rewrite strip_from_raw_open; [reflexivity | left; reflexivity].
Qed.

Lemma strip_raw_empty_delimiter_never_closes_witness :
  plain_text "s=" = true /\
  strip_comments_preserve_literals
    ("s=" ++ opener_text EmptyString ("a)" ++ str1 DQ ++ "; /* gone? */ int x; // no"))
  = "s=" ++ opener_text EmptyString ("a)" ++ str1 DQ ++ "; /* gone? */ int x; // no").
Proof.
  split; [reflexivity|].
  apply (strip_raw_empty_delimiter_never_closes "s="
           ("a)" ++ str1 DQ ++ "; /* gone? */ int x; // no")).
  reflexivity.
Defined.

(** * Further properties of the art parser *)

Lemma max_width_spec (rows : list (list Z)) :
  (forall r, In r rows -> Z.of_nat (length r) <= max_width rows) /\
  (rows <> [] -> exists r, In r rows /\ Z.of_nat (length r) = max_width rows).
Proof.
  unfold max_width.
  set (f := fun (W : Z) (s : list Z) =>
              if W <? Z.of_nat (length s) then Z.of_nat (length s) else W).
  assert (G : forall l a,
             a <= fold_left f l a /\
             (forall r, In r l -> Z.of_nat (length r) <= fold_left f l a) /\
             (fold_left f l a = a \/
              exists r, In r l /\ Z.of_nat (length r) = fold_left f l a)).
  { induction l as [|x l IH]; intro a; cbn [fold_left].
    - split; [lia|]. split; [intros r []|]. now left.
    - destruct (IH (f a x)) as (H1 & H2 & H3).
      assert (Hf : a <= f a x /\ Z.of_nat (length x) <= f a x /\
                   (f a x = a \/ f a x = Z.of_nat (length x))).
      { unfold f. destruct (a <? Z.of_nat (length x)) eqn:E;
          [apply Z.ltb_lt in E | apply Z.ltb_ge in E]; lia. }
      destruct Hf as (Hf1 & Hf2 & Hf3).
      split; [lia|]. split.
      + intros r [<- | Hr]; [lia | now apply H2].
      + destruct H3 as [H3 | (r & Hr & H3)].
        * destruct Hf3 as [Hf3 | Hf3]; [left; lia|].
          right. exists x. split; [now left | lia].
        * right. exists r. split; [now right | exact H3]. }
  destruct (G rows 0) as (H1 & H2 & H3).
  split; [exact H2|]. intro Hne.
  destruct H3 as [H3 | H3]; [|exact H3].
  destruct rows as [|r rows]; [contradiction|].
  exists r. split; [now left|]. specialize (H2 r (or_introl eq_refl)). lia.
Qed.

(** X19: the grid the art parser returns has the announced shape: [H]
    rows of [W] cells each, with [W] and [H] not negative, and an override
    of the width or of the height is taken as it is; a height of 0 with no
    override of the width gives the fallback width 80.  The parser fails
    (the allocation of the grid throws) exactly when an override is
    negative. *)
Theorem parse_art_shape (art_text : string) (wo ho : option Z) (m : option AsciiDensity) :
  match parse_art_to_density art_text wo ho m with
  | Some A =>
      0 <= art_W A /\ 0 <= art_H A /\
      Z.of_nat (length (art_density A)) = art_H A /\
      Forall (fun row => Z.of_nat (length row) = art_W A) (art_density A) /\
      (forall w, wo = Some w -> art_W A = w) /\
      (forall h, ho = Some h -> art_H A = h) /\
      (ho = Some 0 -> wo = None -> art_W A = 80)
  | None => (exists h, ho = Some h /\ h < 0) \/ (exists w, wo = Some w /\ w < 0)
  end.
Proof.
  assert (Hzero : ho = Some 0 -> wo = None ->
                  forall A, parse_art_to_density art_text wo ho m = Some A -> art_W A = 80).
  { intros -> -> A E. cbv in E. now inversion E. }
  revert Hzero.
  unfold parse_art_to_density. cbv zeta.
  match goal with |- context [if ?c then None else _] => destruct c eqn:EH end.
  { intros _. left. destruct ho as [h|]; [|apply Z.ltb_lt in EH; lia].
    exists h. split; [reflexivity | now apply Z.ltb_lt in EH]. }
  match goal with |- context [if ?c then None else _] => destruct c eqn:EW end.
  { intros _. right. destruct wo as [w|].
    - exists w. split; [reflexivity | now apply Z.ltb_lt in EW].
    - exfalso. apply Z.ltb_lt in EW. cbn [is_some negb andb] in EW.
      match type of EW with (if ?c then _ else _) < 0 => destruct c end; [lia|].
      match type of EW with max_width ?rows < 0 => pose proof (max_width_nonneg rows) end.
      lia. }
  intro Hzero. apply Z.ltb_ge in EH, EW. cbn [art_W art_H art_density].
  split; [exact EW|]. split; [exact EH|]. split.
  { rewrite length_map, length_seq. lia. }
  split.
  { apply Forall_forall. intros row Hrow. apply list_elem_of_In in Hrow.
    apply in_map_iff in Hrow as (i & <- & _). rewrite length_map, length_seq. lia. }
  split; [intros w ->; reflexivity|].
  split; [intros h ->; reflexivity|].
  intros Hh Hw. exact (Hzero Hh Hw _ eq_refl).
Qed.

Lemma back_NL_split (t : string) :
  Ascii.eqb (back t) NL = true -> exists t', t = t' ++ str1 NL.
Proof.
  induction t as [|c t IH]; [discriminate|].
  destruct t as [|d t].
  - intro H. change (back (String c EmptyString)) with c in H.
    apply Ascii.eqb_eq in H. subst c.
    exists EmptyString. reflexivity.
  - rewrite back_cons. intro H. destruct (IH H) as [t' E]. exists (String c t').
    cbn [String.append]. now rewrite <- E.
Qed.

Lemma count_nl_app (a b : string) : count_nl (a ++ b) = (count_nl a + count_nl b)%nat.
Proof.
  induction a as [|c a IH]; [reflexivity|]. cbn [String.append count_nl].
  destruct (Ascii.eqb c NL); simpl; now rewrite IH.
Qed.

Lemma art_lines_no_trailing_newline (t : string) :
  Ascii.eqb (back t) NL = false -> art_lines t None None = split_lines t.
Proof. intro H. unfold art_lines. now rewrite H, !andb_false_r. Qed.

Lemma art_lines_length (t : string) :
  length (art_lines t None None)
  = if Ascii.eqb (back t) NL then count_nl t else S (count_nl t).
Proof.
  destruct (Ascii.eqb (back t) NL) eqn:E.
  - destruct (back_NL_split t E) as [t' ->].
    rewrite art_lines_trailing_newline, split_lines_length, count_nl_app. simpl. lia.
  - rewrite (art_lines_no_trailing_newline t E). apply split_lines_length.
Qed.

Lemma art_lines_nonempty (t : string) : art_lines t None None <> [].
Proof.
  intro E. pose proof (art_lines_length t) as H. rewrite E in H. simpl in H.
  destruct (Ascii.eqb (back t) NL) eqn:Eb; [|discriminate].
  destruct (back_NL_split t Eb) as [t' ->]. rewrite count_nl_app in H. simpl in H. lia.
Qed.

(** X20: with no override the size of the grid is read off the art:
    [H] is the number of lines (the number of line feeds, plus one when the
    text does not end in a line feed), which is at least 1, and [W] is the
    number of code points of a longest line; the fallback width 80 is never
    used. *)
Theorem parse_art_inferred_size (art_text : string) (m : option AsciiDensity) :
  exists A,
    parse_art_to_density art_text None None m = Some A /\
    art_H A = Z.of_nat (if Ascii.eqb (back art_text) NL then count_nl art_text
                        else S (count_nl art_text)) /\
    1 <= art_H A /\
    (forall line, In line (art_lines art_text None None) ->
                  Z.of_nat (length (utf8_to_u32 line)) <= art_W A) /\
    (exists line, In line (art_lines art_text None None) /\
                  Z.of_nat (length (utf8_to_u32 line)) = art_W A).
Proof.
  unfold parse_art_to_density. cbv zeta. cbn [is_some negb andb].
  pose proof (art_lines_nonempty art_text) as Hne.
  pose proof (art_lines_length art_text) as Hlen.
  set (lines := art_lines art_text None None) in *.
  assert (Hl0 : (length (List.map utf8_to_u32 lines) =? 0)%nat = false).
  { apply Nat.eqb_neq. rewrite length_map. destruct lines; [contradiction | discriminate]. }
  rewrite Hl0.
  destruct (Z.of_nat (length (List.map utf8_to_u32 lines)) <? 0) eqn:EH;
    [apply Z.ltb_lt in EH; lia|].
  destruct (max_width (List.map utf8_to_u32 lines) <? 0) eqn:EW.
  { apply Z.ltb_lt in EW. pose proof (max_width_nonneg (List.map utf8_to_u32 lines)). lia. }
  eexists. split; [reflexivity|]. cbn [art_H art_W].
  destruct (max_width_spec (List.map utf8_to_u32 lines)) as [Hle Hex].
  split; [now rewrite length_map, Hlen|]. split.
  { rewrite length_map. destruct lines; [contradiction|]. simpl. lia. }
  split.
  - intros line Hin. apply Hle. now apply in_map.
  - destruct Hex as (r & Hr & E).
    { destruct lines; [contradiction | discriminate]. }
    apply in_map_iff in Hr as (line & <- & Hin). eauto.
Qed.

Lemma default_density_nth (k : nat) :
  (k < 128)%nat ->
  nth k (v default_ascii_density_01) 1%Q = if (k =? 32)%nat then 0%Q else 1%Q.
Proof.
  intro Hk. do 128 (destruct k as [|k]; [reflexivity|]). lia.
Qed.

(** With the default map a cell is empty exactly for a space. *)
Lemma cell_density_default (row : list Z) (j : nat) :
  cell_density default_ascii_density_01 row j = if nth j row 32 =? 32 then 0%Q else 1%Q.
Proof.
  unfold cell_density. cbv zeta.
  change (Z.of_nat (length (v default_ascii_density_01))) with 128.
  destruct ((nth j row 32 <=? 127) && (nth j row 32 <? 128)) eqn:E.
  - apply andb_true_iff in E as [E1 E2]. apply Z.leb_le in E1.
    rewrite default_density_nth by lia.
    destruct (Z_lt_le_dec (nth j row 32) 0) as [Hneg | Hpos].
    + replace (Z.to_nat (nth j row 32)) with 0%nat by lia.
      replace (nth j row 32 =? 32) with false by (symmetry; apply Z.eqb_neq; lia).
      reflexivity.
    + destruct (nth j row 32 =? 32) eqn:E3.
      * apply Z.eqb_eq in E3. rewrite E3. reflexivity.
      * apply Z.eqb_neq in E3.
        replace (Nat.eqb (Z.to_nat (nth j row 32)) 32%nat) with false
          by (symmetry; apply Nat.eqb_neq; lia).
        reflexivity.
  - replace (nth j row 32 =? 32) with false; [reflexivity|].
    symmetry. apply Z.eqb_neq. intro E3. rewrite E3 in E. discriminate.
Qed.

Lemma nth_resize_rows (rows : list (list Z)) (h i : nat) :
  (i < h)%nat -> nth i (resize_rows rows h) [] = nth i rows [].
Proof.
  intro Hi. unfold resize_rows.
  destruct (Nat.lt_ge_cases i (length rows)) as [Hl | Hl].
  - rewrite app_nth1 by (rewrite length_firstn; lia).
    rewrite nth_firstn. apply Nat.ltb_lt in Hi. now rewrite Hi.
  - rewrite app_nth2 by (rewrite length_firstn; lia).
    rewrite nth_repeat. symmetry. now apply nth_overflow.
Qed.

(** X21: with the default density map (given, or taken for want of
    one), whatever the overrides, the cell in row [i] and column [j] of the
    grid is empty (density 0) exactly when the [j]-th code point of line [i]
    is a space, the line has no [j]-th code point or the text has no line
    [i]; every other code point, the ones outside ASCII included, gives a
    filled cell (density 1).  So an override cuts the picture or pads it
    with empty cells, at the right and at the bottom. *)
Theorem parse_art_cells (art_text : string) (wo ho : option Z) (m : option AsciiDensity)
    (A : Art) (i j : nat) :
  m = None \/ m = Some default_ascii_density_01 ->
  parse_art_to_density art_text wo ho m = Some A ->
  Z.of_nat i < art_H A -> Z.of_nat j < art_W A ->
  nth j (nth i (art_density A) []) 1%Q
  = if nth j (utf8_to_u32 (nth i (art_lines art_text wo ho) EmptyString)) 32 =? 32
    then 0%Q else 1%Q.
Proof.
  intro Hm.
  assert (Em : match m with Some x => x | None => default_ascii_density_01 end
               = default_ascii_density_01) by (destruct Hm as [-> | ->]; reflexivity).
  unfold parse_art_to_density. cbv zeta. rewrite Em.
  set (rows0 := List.map utf8_to_u32 (art_lines art_text wo ho)).
  set (H := match ho with Some h => h | None => Z.of_nat (length rows0) end).
  set (rows := match ho with Some _ => resize_rows rows0 (Z.to_nat H) | None => rows0 end).
  set (W := match wo with
            | Some w => w
            | None => if negb (is_some wo) && (length rows =? 0)%nat
                      then 80 else max_width rows
            end).
  destruct (H <? 0); [discriminate|]. destruct (W <? 0); [discriminate|].
  intro E. inversion E; subst A; clear E. cbn [art_H art_W art_density].
  intros Hi Hj.
  set (f := fun i0 : nat =>
              List.map (fun j0 : nat => cell_density default_ascii_density_01 (nth i0 rows []) j0)
                       (seq 0 (Z.to_nat W))).
  assert (Hrow : nth i (List.map f (seq 0 (Z.to_nat H))) [] = f i).
  { rewrite (nth_indep _ [] (f 0%nat)) by (rewrite length_map, length_seq; lia).
    rewrite map_nth, seq_nth by lia. reflexivity. }
  rewrite Hrow. unfold f.
  set (g := fun j0 : nat => cell_density default_ascii_density_01 (nth i rows []) j0).
  rewrite (nth_indep _ 1%Q (g 0%nat)) by (rewrite length_map, length_seq; lia).
  rewrite map_nth, seq_nth by lia. unfold g. cbn [Nat.add].
  rewrite cell_density_default.
  assert (Hr : nth i rows [] = nth i rows0 []).
  { unfold rows. destruct ho as [h|]; [|reflexivity].
    apply nth_resize_rows. unfold H in *. lia. }
  rewrite Hr. unfold rows0.
  change (@nil Z) with (utf8_to_u32 EmptyString). now rewrite map_nth.
Qed.

Lemma parse_art_cells_witness :
  (@None AsciiDensity = None \/ None = Some default_ascii_density_01) /\
  parse_art_to_density ("# #" ++ str1 NL ++ "##" ++ str1 NL) (Some 4) (Some 3) None
  = Some {| art_W := 4; art_H := 3;
            art_density := [[1%Q; 0%Q; 1%Q; 0%Q]; [1%Q; 1%Q; 0%Q; 0%Q];
                            [0%Q; 0%Q; 0%Q; 0%Q]] |} /\
  nth 1 (nth 1 [[1%Q; 0%Q; 1%Q; 0%Q]; [1%Q; 1%Q; 0%Q; 0%Q]; [0%Q; 0%Q; 0%Q; 0%Q]] []) 1%Q
  = if nth 1 (utf8_to_u32
                (nth 1 (art_lines ("# #" ++ str1 NL ++ "##" ++ str1 NL) (Some 4) (Some 3))
                     EmptyString)) 32 =? 32
    then 0%Q else 1%Q.
Proof.
  assert (E : parse_art_to_density ("# #" ++ str1 NL ++ "##" ++ str1 NL) (Some 4) (Some 3) None
              = Some {| art_W := 4; art_H := 3;
                        art_density := [[1%Q; 0%Q; 1%Q; 0%Q]; [1%Q; 1%Q; 0%Q; 0%Q];
                                        [0%Q; 0%Q; 0%Q; 0%Q]] |})
    by reflexivity.
  split; [left; reflexivity|]. split; [exact E|].
  apply (parse_art_cells ("# #" ++ str1 NL ++ "##" ++ str1 NL) (Some 4) (Some 3) None _ 1 1
           (or_introl eq_refl) E); cbn; lia.
Defined.

(** ** The decoder *)

Lemma ascii_code_bound (c : ascii) : 0 <= code_of c < 256.
Proof.
  unfold code_of. pose proof (N_ascii_bounded c). lia.
Qed.

Lemma utf8_length (k : nat) :
  forall s, (String.length s <= k)%nat -> (length (utf8_to_u32 s) <= String.length s)%nat.
Proof.
  induction k as [|k IH]; intros s Hk.
  - destruct s; [simpl; lia | simpl in Hk; lia].
  - destruct s as [|a0 r0]; [simpl; lia|]. simpl in Hk. cbn [utf8_to_u32]. cbv zeta.
    assert (H0 : (length (utf8_to_u32 r0) <= String.length r0)%nat) by (apply IH; lia).
    destruct (Z.land (code_of a0) 128 =? 0); [simpl; lia|].
    destruct ((Z.land (code_of a0) 224 =? 192) && has_more 1 r0).
    { destruct r0 as [|a1 r1]; [simpl; lia|]. simpl in Hk |- *.
      specialize (IH r1 ltac:(lia)). lia. }
    destruct ((Z.land (code_of a0) 240 =? 224) && has_more 2 r0).
    { destruct r0 as [|a1 [|a2 r2]]; try (simpl; lia). simpl in Hk |- *.
      specialize (IH r2 ltac:(lia)). lia. }
    destruct ((Z.land (code_of a0) 248 =? 240) && has_more 3 r0).
    { destruct r0 as [|a1 [|a2 [|a3 r3]]]; try (simpl; lia). simpl in Hk |- *.
      specialize (IH r3 ltac:(lia)). lia. }
    simpl. lia.
Qed.

Lemma land_128_small (x : Z) : 0 <= x < 128 -> Z.land x 128 = 0.
Proof.
  intro Hx. change 128 with (2 ^ 7). apply Z.bits_inj'. intros i Hi.
  rewrite Z.land_spec, Z.bits_0.
  destruct (Z_lt_le_dec i 7) as [Hlt | Hge].
  - rewrite (Z.pow2_bits_false 7 i) by lia. apply andb_false_r.
  - rewrite (Z.bits_above_log2 x i); [reflexivity | lia|].
    destruct (Z.eq_dec x 0) as [-> | Hnz]; [simpl; lia|].
    apply Z.log2_lt_pow2; [lia|]. apply Z.lt_le_trans with (2 ^ 7); [simpl; lia|].
    apply Z.pow_le_mono_r; lia.
Qed.

(** X22: the decoder of the art parser copies ASCII: a line all of whose
    bytes are below 128 decodes to its bytes, one code point each; and on
    any line it never gives more code points than there are bytes. *)
Theorem utf8_decoding_of_ascii (s : string) :
  (all_chars (fun c => code_of c <? 128) s = true ->
   utf8_to_u32 s = List.map code_of (list_ascii_of_string s)) /\
  (length (utf8_to_u32 s) <= String.length s)%nat.
Proof.
  split; [|apply (utf8_length (String.length s)); lia].
  induction s as [|c s IH]; intro Hs; [reflexivity|].
  cbn [all_chars] in Hs. apply andb_true_iff in Hs as [Hc Hs]. apply Z.ltb_lt in Hc.
  cbn [utf8_to_u32 list_ascii_of_string List.map]. cbv zeta.
  pose proof (ascii_code_bound c) as Hb.
  rewrite land_128_small by lia. cbn [Z.eqb]. now rewrite IH.
Qed.

(** * Further properties of the layout engine *)

(** ** Generated comments *)



Section CommentSeg.

Variable W H : Z.
Variable target_density : list (list Q).
Variable rng : nat -> Z.
Variable row : Z.




End CommentSeg.

(** ** The blobs of the rows *)

Section Rows.

Variable tokens : list string.
Variable W H : Z.
Variable target_density : list (list Q).
Variable density_map : AsciiDensity.
Variable rng : nat -> Z.






Hypothesis Hpre : precondition tokens W = true.
Hypothesis Htokens : Forall (fun t => t <> EmptyString) tokens.
Hypothesis HH : 0 <= H.


End Rows.





(** ** The width assertion *)



(** * Further properties of the command-line driver *)

(** ** Reading an integer *)

Lemma parse_digits_digit (k : Z) (c : ascii) (s : string) (acc : Z) :
  code_of c = 48 + k -> 0 <= k <= 9 -> acc * 10 + k <= 1000000000 ->
  parse_digits (String c s) acc = parse_digits s (acc * 10 + k).
Proof.
  intros Hc Hk Hb. cbn [parse_digits]. rewrite Hc.
  replace ((48 + k <? 48) || (57 <? 48 + k)) with false
    by (symmetry; apply orb_false_iff; rewrite !Z.ltb_ge; lia).
  replace (48 + k - 48) with k by lia.
  replace (1000000000 <? acc * 10 + k) with false by (symmetry; apply Z.ltb_ge; lia).
  reflexivity.
Qed.

Lemma of_uint_acc_ge (d : Decimal.uint) :
  forall a : positive, (a <= Pos.of_uint_acc d a)%positive.
Proof.
  induction d; intro a; cbn [Pos.of_uint_acc]; try lia;
    match goal with |- (_ <= Pos.of_uint_acc _ ?b)%positive => specialize (IHd b) end; lia.
Qed.

Lemma parse_digits_acc (d : Decimal.uint) :
  forall a : positive,
    Z.pos (Pos.of_uint_acc d a) <= 1000000000 ->
    parse_digits (NilEmpty.string_of_uint d) (Z.pos a) = Some (Z.pos (Pos.of_uint_acc d a)).
Proof.
  induction d; intros a Hb; cbn [NilEmpty.string_of_uint Pos.of_uint_acc] in *;
    [reflexivity | ..];
    match goal with
    | |- parse_digits (String ?c _) _ = Some (Z.pos (Pos.of_uint_acc _ ?b)) =>
        pose proof (of_uint_acc_ge d b) as Hge;
        let k := eval vm_compute in (code_of c - 48) in
        rewrite (parse_digits_digit k) by (reflexivity || lia);
        replace (Z.pos a * 10 + k) with (Z.pos b) by lia;
        now apply IHd
    end.
Qed.

Lemma parse_digits_uint (d : Decimal.uint) :
  Z.of_N (Pos.of_uint d) <= 1000000000 ->
  parse_digits (NilEmpty.string_of_uint d) 0 = Some (Z.of_N (Pos.of_uint d)).
Proof.
  induction d; intro Hb; cbn [NilEmpty.string_of_uint Pos.of_uint] in *;
    [reflexivity | rewrite (parse_digits_digit 0) by (reflexivity || lia); now apply IHd | ..];
    match goal with
    | |- parse_digits (String _ _) _ = Some (Z.of_N (N.pos (Pos.of_uint_acc _ ?b))) =>
        pose proof (of_uint_acc_ge d b) as Hge;
        rewrite (parse_digits_digit (Z.pos b)) by (reflexivity || (cbn in *; lia));
        now apply parse_digits_acc
    end.
Qed.

Lemma string_of_uint_front (d : Decimal.uint) :
  d <> Decimal.Nil ->
  str_empty (NilEmpty.string_of_uint d) = false /\
  Ascii.eqb (at_ (NilEmpty.string_of_uint d) 0) "-" = false.
Proof. destruct d; intro Hd; [contradiction | ..]; split; reflexivity. Qed.

Lemma nilzero_string_of_uint (d : Decimal.uint) :
  d <> Decimal.Nil -> NilZero.string_of_uint d = NilEmpty.string_of_uint d.
Proof. destruct d; intro Hd; [contradiction | ..]; reflexivity. Qed.

(** X26: [parse_int] reads back what decimal notation writes: for every
    integer between minus and plus one thousand million, parsing its decimal
    notation gives the integer. *)
Theorem parse_int_round_trip (z : Z) :
  -1000000000 <= z <= 1000000000 -> parse_int (decimal z) = Some z.
Proof.
  intro Hz. unfold decimal. destruct z as [|p|p]; [reflexivity | |].
  - cbn [Z.to_int NilZero.string_of_int].
    pose proof (Unsigned.to_uint_nonnil p) as Hn.
    rewrite (nilzero_string_of_uint _ Hn).
    destruct (string_of_uint_front _ Hn) as [He Hm].
    unfold parse_int. rewrite He, Hm, parse_digits_uint; rewrite Unsigned.of_to;
      [reflexivity | cbn; lia].
  - cbn [Z.to_int NilZero.string_of_int].
    pose proof (Unsigned.to_uint_nonnil p) as Hn.
    rewrite (nilzero_string_of_uint _ Hn).
    unfold parse_int. cbn [str_empty String.length Nat.eqb at_ String.get drop_str].
    rewrite Ascii.eqb_refl, parse_digits_uint; rewrite Unsigned.of_to;
      [reflexivity | cbn; lia].
Qed.

Lemma parse_int_round_trip_witness :
  -1000000000 <= -1000000000 <= 1000000000 /\
  parse_int (decimal (-1000000000)) = Some (-1000000000).
Proof.
  assert (H : -1000000000 <= -1000000000 <= 1000000000) by lia.
  split; [exact H|]. exact (parse_int_round_trip (-1000000000) H).
Defined.

Lemma parse_digits_sound (s : string) :
  forall acc x, 0 <= acc <= 1000000000 -> parse_digits s acc = Some x ->
                acc <= x <= 1000000000 /\ all_chars isdigit s = true.
Proof.
  induction s as [|c s IH]; intros acc x Hacc E; cbn [parse_digits] in E.
  - inversion E; subst. split; [lia | reflexivity].
  - destruct ((code_of c <? 48) || (57 <? code_of c)) eqn:Ed; [discriminate|].
    apply orb_false_iff in Ed as [E1 E2]. apply Z.ltb_ge in E1, E2.
    destruct (1000000000 <? acc * 10 + (code_of c - 48)) eqn:Eb; [discriminate|].
    apply Z.ltb_ge in Eb.
    destruct (IH (acc * 10 + (code_of c - 48)) x ltac:(lia) E) as [Hx Hs]. split; [lia|].
    cbn [all_chars]. rewrite Hs, andb_true_r.
    unfold isdigit, in_range. apply andb_true_iff. rewrite !Z.leb_le. lia.
Qed.

(** X27: what [parse_int] accepts: a text that is not empty and consists
    of digits only, after one optional minus sign, and whose value lies
    between minus and plus one thousand million, so that it fits an [int].
    A plus sign is not accepted; a lone minus sign reads as 0. *)
Theorem parse_int_accepts :
  (forall s x, parse_int s = Some x ->
     -1000000000 <= x <= 1000000000 /\ s <> EmptyString /\
     all_chars isdigit (if Ascii.eqb (front s) "-" then drop_str 1 s else s) = true) /\
  parse_int EmptyString = None /\ parse_int "+1" = None /\
  parse_int "1000000001" = None /\ parse_int "-" = Some 0.
Proof.
  split; [|repeat split; reflexivity].
  intros s x. unfold parse_int.
  destruct (str_empty s) eqn:Es; [discriminate|].
  assert (Hne : s <> EmptyString) by (intros ->; discriminate Es).
  change (at_ s 0) with (front s).
  destruct (Ascii.eqb (front s) "-").
  - destruct (parse_digits (drop_str 1 s) 0) as [acc|] eqn:E; [|discriminate].
    intro Hx. inversion Hx; subst x.
    destruct (parse_digits_sound (drop_str 1 s) 0 acc ltac:(lia) E) as [Hb Hd].
    split; [lia|]. split; assumption.
  - intro E. destruct (parse_digits_sound s 0 x ltac:(lia) E) as [Hb Hd].
    split; [lia|]. split; assumption.
Qed.

(** ** The arguments *)

Lemma parse_int_bounded (s : string) (x : Z) :
  parse_int s = Some x -> -1000000000 <= x <= 1000000000.
Proof.
  intro E. unfold parse_int in E. destruct (str_empty s); [discriminate|].
  destruct (Ascii.eqb (at_ s 0) "-").
  - destruct (parse_digits (drop_str 1 s) 0) as [acc|] eqn:Ed; [|discriminate].
    inversion E; subst. destruct (parse_digits_sound (drop_str 1 s) 0 acc ltac:(lia) Ed). lia.
  - destruct (parse_digits_sound s 0 x ltac:(lia) E). lia.
Qed.

Lemma parse_args_loop_ok (k : nat) :
  forall argv a0 a,
    (length argv <= k)%nat ->
    int_option_bounded (args_width a0) -> int_option_bounded (args_height a0) ->
    parse_args_loop argv a0 = ArgsOk a ->
    args_code a <> EmptyString /\ args_art a <> EmptyString /\ args_out a <> EmptyString /\
    int_option_bounded (args_width a) /\ int_option_bounded (args_height a).
Proof.
  induction k as [|k IH]; intros argv a0 a Hk Hw Hh E.
  - destruct argv; [|simpl in Hk; lia]. cbn [parse_args_loop] in E.
    destruct (str_empty (args_code a0) || str_empty (args_art a0) || str_empty (args_out a0))
      eqn:Ee; [discriminate|].
    inversion E; subst a. apply orb_false_iff in Ee as [Ee E3].
    apply orb_false_iff in Ee as [E1 E2].
    split; [intro Hc; rewrite Hc in E1; discriminate E1|].
    split; [intro Hc; rewrite Hc in E2; discriminate E2|].
    split; [intro Hc; rewrite Hc in E3; discriminate E3|].
    split; assumption.
  - destruct argv as [|key rest].
    { apply (IH [] a0 a); [simpl; lia | assumption..]. }
    cbn [parse_args_loop] in E. simpl in Hk.
    assert (Hskip : forall x rest' a1,
               rest = x :: rest' ->
               int_option_bounded (args_width a1) -> int_option_bounded (args_height a1) ->
               parse_args_loop rest' a1 = ArgsOk a ->
               args_code a <> EmptyString /\ args_art a <> EmptyString /\
               args_out a <> EmptyString /\
               int_option_bounded (args_width a) /\ int_option_bounded (args_height a)).
    { intros x rest' a1 -> Hw1 Hh1 E1. apply (IH rest' a1 a); try assumption.
      simpl in Hk. lia. }
    destruct (String.eqb key "--code").
    { destruct rest as [|x rest']; [discriminate|]. now apply (Hskip x rest' (set_code a0 x)). }
    destruct (String.eqb key "--art").
    { destruct rest as [|x rest']; [discriminate|]. now apply (Hskip x rest' (set_art a0 x)). }
    destruct (String.eqb key "--out").
    { destruct rest as [|x rest']; [discriminate|]. now apply (Hskip x rest' (set_out a0 x)). }
    destruct (String.eqb key "--width").
    { destruct rest as [|x rest']; [discriminate|].
      destruct (parse_int x) as [w|] eqn:Ew; [|discriminate].
      apply (Hskip x rest' (set_width a0 w)); try assumption; try reflexivity.
      intros y Hy. cbn in Hy. inversion Hy; subst y. now apply (parse_int_bounded x). }
    destruct (String.eqb key "--height").
    { destruct rest as [|x rest']; [discriminate|].
      destruct (parse_int x) as [h|] eqn:Eh; [|discriminate].
      apply (Hskip x rest' (set_height a0 h)); try assumption; try reflexivity.
      intros y Hy. cbn in Hy. inversion Hy; subst y. now apply (parse_int_bounded x). }
    destruct (String.eqb key "--dump-meta").
    { apply (IH rest (set_dump_meta a0) a); try assumption. lia. }
    destruct (String.eqb key "-h" || String.eqb key "--help"); discriminate.
Qed.

(** X28: arguments that are accepted are complete and in range: when
    [parse_args] succeeds, the paths of the code, of the art and of the
    output are all non-empty, and a width or a height that was given lies
    between minus and plus one thousand million. *)
Theorem parse_args_accepts (argv : list string) (a : Args) :
  parse_args argv = ArgsOk a ->
  args_code a <> EmptyString /\ args_art a <> EmptyString /\ args_out a <> EmptyString /\
  int_option_bounded (args_width a) /\ int_option_bounded (args_height a).
Proof.
  unfold parse_args. intro E.
  apply (parse_args_loop_ok (length (tail argv)) (tail argv) _ a (le_n _)) in E;
    [exact E | intros x Hx; discriminate Hx | intros x Hx; discriminate Hx].
Qed.

Lemma parse_args_accepts_witness :
  parse_args ["waifufy"; "--width"; "-5"; "--out"; "o"; "--art"; "a"; "--code"; "c";
              "--width"; "120"]
  = ArgsOk (Build_Args "c" "a" "o" (Some 120) None false) /\
  args_code (Build_Args "c" "a" "o" (Some 120) None false) <> EmptyString /\
  args_art (Build_Args "c" "a" "o" (Some 120) None false) <> EmptyString /\
  args_out (Build_Args "c" "a" "o" (Some 120) None false) <> EmptyString /\
  int_option_bounded (args_width (Build_Args "c" "a" "o" (Some 120) None false)) /\
  int_option_bounded (args_height (Build_Args "c" "a" "o" (Some 120) None false)).
Proof.
  assert (E : parse_args ["waifufy"; "--width"; "-5"; "--out"; "o"; "--art"; "a"; "--code"; "c";
                          "--width"; "120"]
              = ArgsOk (Build_Args "c" "a" "o" (Some 120) None false)) by reflexivity.
  split; [exact E|]. exact (parse_args_accepts _ _ E).
Defined.

(** ** The run as a whole *)

Lemma convert_layout_no_timeout (tokens : list string) (W H : Z)
    (target_density : list (list Q)) (density_map : AsciiDensity) (rng : nat -> Z) :
  Forall (fun t => t <> EmptyString) tokens -> 0 <= H ->
  convert_layout tokens W H target_density density_map rng <> OutOfFuel.
Proof.
  intros Htokens HH. destruct (precondition tokens W) eqn:Ep.
  - destruct (convert_layout_finishes tokens W H target_density density_map rng
                Ep Htokens HH) as [waifu E]. rewrite E. discriminate.
  - unfold convert_layout, layout_rows. rewrite Ep. discriminate.
Qed.

(** X29: every run ends: whatever the command line, the files and the
    random stream, [main] returns or the process is terminated, and never
    hangs.  When it returns, the status is 0, 2 or 3; it is 2 exactly when
    the arguments are refused; and an output is written only with status
    0. *)
Theorem main_outcomes (fs : string -> option string) (can_open_out : string -> bool)
    (rng : nat -> Z) (argv : list string) :
  main fs can_open_out rng argv <> Hangs /\
  (parse_args argv = ArgsBad <-> main fs can_open_out rng argv = Exit 2 None) /\
  (forall status written, main fs can_open_out rng argv = Exit status written ->
     (status = 0 \/ status = 2 \/ status = 3) /\ (written <> None -> status = 0)).
Proof.
  unfold main. destruct (parse_args argv) as [args | |] eqn:Ea.
  - cbv zeta.
    destruct (parse_art_to_density _ _ _ _) as [art|] eqn:Eart.
    2:{ split; [discriminate|]. split; [split; discriminate|]. intros s w E. discriminate E. }
    pose proof (convert_layout_no_timeout
                  (tokenize_minimal_cpp
                     (strip_comments_preserve_literals (read_file fs (args_code args))))
                  (art_W art) (art_H art) (art_density art) default_ascii_density_01 rng
                  (tokenize_nonempty _) (parse_art_H_nonneg _ _ _ _ _ Eart)) as Hno.
    destruct (convert_layout _ _ _ _ _ _) as [waifu | | |]; try contradiction.
    + destruct (can_open_out (args_out args)).
      * split; [discriminate|]. split; [split; discriminate|].
        intros s w E. inversion E; subst. split; [left; reflexivity | reflexivity].
      * split; [discriminate|]. split; [split; discriminate|].
        intros s w E. inversion E; subst.
        split; [right; right; reflexivity | intro Hc; contradiction].
    + split; [discriminate|]. split; [split; discriminate|]. intros s w E. discriminate E.
    + split; [discriminate|]. split; [split; discriminate|]. intros s w E. discriminate E.
  - split; [discriminate|]. split; [split; reflexivity|].
    intros s w E. inversion E; subst.
    split; [right; left; reflexivity | intro Hc; contradiction].
  - split; [discriminate|]. split; [split; discriminate|].
    intros s w E. inversion E; subst. split; [left; reflexivity | intro Hc; contradiction].
Qed.

Lemma parse_int_accepts_witness :
  parse_int "-42" = Some (-42) /\
  -1000000000 <= -42 <= 1000000000 /\ "-42" <> EmptyString /\
  all_chars isdigit (if Ascii.eqb (front "-42") "-" then drop_str 1 "-42" else "-42") = true.
Proof.
  assert (E : parse_int "-42" = Some (-42)) by reflexivity.
  split; [exact E|]. exact (proj1 parse_int_accepts "-42" (-42) E).
Defined.

Lemma main_outcomes_witness :
  main no_files (fun _ => true) zero_stream ["waifufy"; "--code"] = Exit 2 None /\
  (2 = 0 \/ 2 = 2 \/ 2 = 3) /\ (@None string <> None -> 2 = 0).
Proof.
  assert (E : main no_files (fun _ => true) zero_stream ["waifufy"; "--code"] = Exit 2 None)
    by reflexivity.
  split; [exact E|].
  exact (proj2 (proj2 (main_outcomes no_files (fun _ => true) zero_stream
                         ["waifufy"; "--code"])) 2 None E).
Defined.
